(** * dotfiles-cli: the manifest-driven file reconciliation engine

    A shallow embedding of [files/linker.py], [files/copier.py],
    [files/manifest.py] and of [apply] and [collect] from
    [commands/sync.py], over a model of the POSIX file tree and of the
    [pathlib], [shutil], [filecmp] and [yaml] calls the code makes. *)

From Stdlib Require Import Ascii String.
From stdpp Require Import gmap strings list fin_maps.

Open Scope string_scope.
Open Scope list_scope.

(** ** Python outcomes *)

Module Py.

(** The exception classes the modelled calls can raise.  [is_OSError] is
    the subclass test behind [except OSError]. *)
Inductive exn :=
| FileExistsError
| FileNotFoundError
| NotADirectoryError
| IsADirectoryError
| LoopError            (* OSError with errno ELOOP *)
| RmtreeSymlinkError   (* OSError("Cannot call rmtree on a symbolic link") *)
| DirectoryNotEmpty    (* OSError with errno ENOTEMPTY *)
| SameFileError        (* shutil.SameFileError, an OSError *)
| ShutilError          (* shutil.Error, an OSError *)
| ValueError
| YAMLError
| KeyError
| TypeError
| AttributeError.

Definition is_OSError (e : exn) : bool :=
  match e with
  | ValueError | YAMLError | KeyError | TypeError | AttributeError => false
  | _ => true
  end.

Inductive res (A : Type) :=
| Ret (a : A)
| Raise (e : exn).
Arguments Ret {A} a.
Arguments Raise {A} e.

Definition returns {A} (r : res A) : bool :=
  match r with Ret _ => true | Raise _ => false end.

End Py.
Export Py.

(** ** Pure paths *)

Module Paths.

(** An absolute path handed to the operating system: the names below the
    root. *)
Abbreviation apath := (list string).

(** [pathlib.PurePosixPath]: an anchor and the names after it. *)
Record Path := mkPath { is_absolute : bool; names : list string }.

#[global] Instance Path_eq_dec : EqDecision Path.
Proof. solve_decision. Defined.

(** [base / p] for an absolute [base]: an absolute [p] replaces it. *)
Definition under (base : apath) (p : Path) : apath :=
  if is_absolute p then names p else base ++ names p.

(** [p / q]. *)
Definition joinpath (p q : Path) : Path :=
  if is_absolute q then q else mkPath (is_absolute p) (names p ++ names q).

Definition absolute (p : apath) : Path := mkPath true p.

(** [p.parent] and [p.name], both lexical. *)
Definition parent (p : apath) : apath := removelast p.
Definition name (p : apath) : string := List.last p "".

Fixpoint unsnoc (p : apath) : option (apath * string) :=
  match p with
  | [] => None
  | c :: rest =>
      match unsnoc rest with
      | None => Some ([], c)
      | Some (q, l) => Some (c :: q, l)
      end
  end.

(** Splitting the text of a path at the slashes. *)
Fixpoint split_slash (acc : string) (s : string) : list string :=
  match s with
  | EmptyString => [String.rev acc]
  | String a s' =>
      if Ascii.eqb a "/"%char then String.rev acc :: split_slash "" s'
      else split_slash (String a acc) s'
  end.

(** [Path(s)]: empty names and [.] are dropped, a leading slash makes the
    path absolute.  Any number of leading slashes gives the one anchor;
    the anchor of exactly two slashes, which [pathlib] keeps apart, is
    left out. *)
Definition Path_of_string (s : string) : Path :=
  mkPath (match s with String a _ => Ascii.eqb a "/"%char | _ => false end)
         (filter (fun c => c <> "" /\ c <> ".") (split_slash "" s)).

(** [str(p)]. *)
Definition str (p : Path) : string :=
  match is_absolute p, names p with
  | true, l => String.append "/" (String.concat "/" l)
  | false, [] => "."
  | false, l => String.concat "/" l
  end.

End Paths.
Export Paths.

(** ** The file tree *)

Module Fs.

Inductive node :=
| File (mode : N) (content : string)
| Dir
| Link (target : Path).

(** The tree is a finite map from canonical absolute paths to nodes; the
    root is a directory that needs no entry. *)
Abbreviation FS := (gmap (list string) node).

Definition node_at (fs : FS) (p : apath) : option node :=
  match p with [] => Some Dir | _ => fs !! p end.

Definition is_dir_at (fs : FS) (p : apath) : bool :=
  match node_at fs p with Some Dir => true | _ => false end.

(** The entry named [c] of the directory at the canonical path [cur]. *)
Definition child (fs : FS) (cur : apath) (c : string) : option node :=
  if is_dir_at fs cur then fs !! (cur ++ [c]) else None.

(** How far a path resolution got: every name found; every name but the
    last found, in a directory where the last can be created; or the
    errno of the failure. *)
Inductive wstatus := Found | Creatable | Missing | NotDir | Loop.

#[global] Instance wstatus_eq_dec : EqDecision wstatus.
Proof. solve_decision. Defined.

Definition after (st step : wstatus) : wstatus :=
  match st with
  | Found => step
  | Creatable => Missing
  | s => s
  end.

(** One pass over the names of a path, in the manner of
    [posixpath.realpath]: [cur] is the part resolved so far, [seen] the
    links whose targets are being resolved, [follow] resolves the target
    of a link.  The pass goes on after a failure, as [realpath] does when
    it is not strict; the status records the first failure. *)
Fixpoint walkc (follow : list apath -> apath -> Path -> apath * wstatus)
    (fs : FS) (seen : list apath) (cur : apath) (st : wstatus)
    (todo : list string) : apath * wstatus :=
  match todo with
  | [] => (cur, st)
  | c :: rest =>
      if decide (c = "..") then
        walkc follow fs seen (removelast cur)
              (after st (if is_dir_at fs cur then Found else NotDir)) rest
      else
        let newpath := cur ++ [c] in
        match child fs cur c with
        | Some (Link t) =>
            if decide (newpath ∈ seen) then
              walkc follow fs seen newpath (after st Loop) rest
            else
              let '(p, s) := follow (newpath :: seen)
                                    (if is_absolute t then [] else cur) t in
              walkc follow fs seen p (after st s) rest
        | Some _ => walkc follow fs seen newpath (after st Found) rest
        | None =>
            walkc follow fs seen newpath
                  (after st (if is_dir_at fs cur then Creatable else NotDir))
                  rest
        end
  end.

(** [d] bounds the nesting of link targets. *)
Fixpoint realpath (d : nat) (fs : FS) (seen : list apath) (cur : apath)
    (todo : list string) : apath * wstatus :=
  walkc (fun seen' base t =>
           match d with
           | 0 => (base ++ names t, Loop)
           | S d' => realpath d' fs seen' base (names t)
           end) fs seen cur Found todo.

(** A link being resolved is entered in [seen] and never entered twice,
    so the nesting stays below the number of entries of the tree. *)
Definition depth (fs : FS) : nat := S (size fs).

Definition canon (fs : FS) (p : apath) : apath * wstatus :=
  realpath (depth fs) fs [] [] p.

(** Resolution that does not follow a link in the last name: [lstat],
    [mkdir], [symlink], [unlink], [rmdir]. *)
Definition locate (fs : FS) (p : apath) : apath * wstatus :=
  match unsnoc p with
  | None => ([], Found)
  | Some (q, c) =>
      let '(cq, st) := canon fs q in
      if decide (c = "..") then
        (removelast cq, after st (if is_dir_at fs cq then Found else NotDir))
      else
        (cq ++ [c],
         after st (match child fs cq c with
                   | Some _ => Found
                   | None => if is_dir_at fs cq then Creatable else NotDir
                   end))
  end.

Definition stat (fs : FS) (p : apath) : option node :=
  match canon fs p with
  | (c, Found) => node_at fs c
  | _ => None
  end.

Definition lstat (fs : FS) (p : apath) : option node :=
  match locate fs p with
  | (c, Found) => node_at fs c
  | _ => None
  end.

Definition errno (st : wstatus) : exn :=
  match st with
  | NotDir => NotADirectoryError
  | Loop => LoopError
  | _ => FileNotFoundError
  end.

(** *** [pathlib] queries *)

Definition exists_ (fs : FS) (p : apath) : bool :=
  match stat fs p with Some _ => true | None => false end.

Definition is_symlink (fs : FS) (p : apath) : bool :=
  match lstat fs p with Some (Link _) => true | _ => false end.

Definition is_dir (fs : FS) (p : apath) : bool :=
  match stat fs p with Some Dir => true | _ => false end.

Definition is_file (fs : FS) (p : apath) : bool :=
  match stat fs p with Some (File _ _) => true | _ => false end.

(** [Path.resolve()], not strict: the path is resolved as far as it goes
    and the rest is appended; a missing name or a link loop raises
    nothing (Python 3.13; up to 3.12 a loop raised [RuntimeError], which
    is no [OSError] either). *)
Definition resolve (fs : FS) (p : apath) : res apath :=
  Ret (fst (canon fs p)).

(** *** Commands: the tree is threaded, an exception keeps the tree as it
    was when raised *)

Definition M (A : Type) : Type := FS -> res A * FS.

Definition ret {A} (a : A) : M A := fun fs => (Ret a, fs).
Definition raise {A} (e : exn) : M A := fun fs => (Raise e, fs).
Definition bind {A B} (m : M A) (k : A -> M B) : M B :=
  fun fs =>
    match m fs with
    | (Ret a, fs') => k a fs'
    | (Raise e, fs') => (Raise e, fs')
    end.
Definition ask {A} (f : FS -> A) : M A := fun fs => (Ret (f fs), fs).
Definition lift {A} (f : FS -> res A) : M A := fun fs => (f fs, fs).

End Fs.
Export Fs.

Declare Scope fs_scope.
Delimit Scope fs_scope with fs.
Notation "'bind!' x := m 'in' k" := (bind m (fun x => k))
  (at level 10, x name, m at level 100, k at level 200) : fs_scope.
Notation "'run!' m 'in' k" := (bind m (fun _ => k))
  (at level 10, m at level 100, k at level 200) : fs_scope.
Open Scope fs_scope.

(** ** Operating-system and library calls *)

Module Os.

Definition os_mkdir (p : apath) : M unit := fun fs =>
  match locate fs p with
  | (k, Creatable) => (Ret tt, <[k := Dir]> fs)
  | (_, Found) => (Raise FileExistsError, fs)
  | (_, st) => (Raise (errno st), fs)
  end.

(** [p.mkdir(parents=False, exist_ok=True)]. *)
Definition mkdir_exist_ok (p : apath) : M unit := fun fs =>
  match os_mkdir p fs with
  | (Raise FileNotFoundError, _) => (Raise FileNotFoundError, fs)
  | (Raise e, _) => if is_dir fs p then (Ret tt, fs) else (Raise e, fs)
  | r => r
  end.

(** [p.mkdir(parents=True, exist_ok=True)], [p] given with its names
    reversed: on [FileNotFoundError] the parent is made first. *)
Fixpoint mkdir_rec (rp : list string) : M unit := fun fs =>
  let p := rev rp in
  match os_mkdir p fs with
  | (Raise FileNotFoundError, _) =>
      match rp with
      | [] => (Raise FileNotFoundError, fs)
      | _ :: rq => (run! mkdir_rec rq in mkdir_exist_ok p) fs
      end
  | (Raise e, _) => if is_dir fs p then (Ret tt, fs) else (Raise e, fs)
  | r => r
  end.

Definition mkdir_parents (p : apath) : M unit := mkdir_rec (rev p).

(** [p.symlink_to(target)]. *)
Definition symlink_to (p : apath) (target : apath) : M unit := fun fs =>
  match locate fs p with
  | (k, Creatable) => (Ret tt, <[k := Link (absolute target)]> fs)
  | (_, Found) => (Raise FileExistsError, fs)
  | (_, st) => (Raise (errno st), fs)
  end.

(** [p.unlink()]. *)
Definition unlink (p : apath) : M unit := fun fs =>
  match locate fs p with
  | (k, Found) =>
      match node_at fs k with
      | Some Dir => (Raise IsADirectoryError, fs)
      | Some _ => (Ret tt, delete k fs)
      | None => (Raise FileNotFoundError, fs)
      end
  | (_, st) => (Raise (errno st), fs)
  end.

(** Opening for reading: mode and content of the regular file.  The tree
    has no access rights: the mode of a file is stored and copied, never
    consulted, so that no call here ends with [PermissionError]. *)
Definition open_read (fs : FS) (p : apath) : res (N * string) :=
  match canon fs p with
  | (c, Found) =>
      match node_at fs c with
      | Some (File m b) => Ret (m, b)
      | Some Dir => Raise IsADirectoryError
      | _ => Raise FileNotFoundError
      end
  | (_, st) => Raise (errno st)
  end.

(** [p.read_bytes()]. *)
Definition read_bytes (fs : FS) (p : apath) : res string :=
  match open_read fs p with
  | Ret (_, b) => Ret b
  | Raise e => Raise e
  end.

(** Opening for writing, links followed: where the content goes. *)
Definition open_write (fs : FS) (p : apath) : res apath :=
  match canon fs p with
  | (c, Found) =>
      match node_at fs c with
      | Some (File _ _) => Ret c
      | Some Dir => Raise IsADirectoryError
      | _ => Raise FileNotFoundError
      end
  | (c, Creatable) => Ret c
  | (_, st) => Raise (errno st)
  end.

Definition default_mode : N := 420.  (* 0o644 *)

(** [p.write_text(s)]. *)
Definition write_text (p : apath) (s : string) : M unit := fun fs =>
  match open_write fs p with
  | Ret c =>
      let m := match fs !! c with Some (File m _) => m | _ => default_mode end in
      (Ret tt, <[c := File m s]> fs)
  | Raise e => (Raise e, fs)
  end.

(** [os.path.samefile], [False] on error as in [shutil._samefile]. *)
Definition samefile (fs : FS) (a b : apath) : bool :=
  match canon fs a, canon fs b with
  | (ca, Found), (cb, Found) => bool_decide (ca = cb)
  | _, _ => false
  end.

(** [shutil.copy2(src, dst)]: into [dst] when that is a directory;
    content and mode are those of [src]. *)
Definition copy2 (src dst : apath) : M unit := fun fs =>
  let dst := if is_dir fs dst then dst ++ [name src] else dst in
  if samefile fs src dst then (Raise SameFileError, fs)
  else
    match open_read fs src with
    | Raise e => (Raise e, fs)
    | Ret (m, b) =>
        match open_write fs dst with
        | Raise e => (Raise e, fs)
        | Ret c => (Ret tt, <[c := File m b]> fs)
        end
    end.

(** [os.chmod(p, mode)]; directories carry no mode here. *)
Definition chmod (p : apath) (mode : N) : M unit := fun fs =>
  match canon fs p with
  | (c, Found) =>
      match node_at fs c with
      | Some (File _ b) => (Ret tt, <[c := File mode b]> fs)
      | Some _ => (Ret tt, fs)
      | None => (Raise FileNotFoundError, fs)
      end
  | (_, st) => (Raise (errno st), fs)
  end.

(** [filecmp.cmp(a, b, shallow=False)]: both regular files with the same
    bytes. *)
Definition filecmp_cmp (fs : FS) (a b : apath) : res bool :=
  match stat fs a, stat fs b with
  | None, _ | _, None => Raise FileNotFoundError
  | Some (File _ x), Some (File _ y) => Ret (bool_decide (x = y))
  | _, _ => Ret false
  end.

(** Whether the directory at the canonical path [k] has an entry. *)
Definition has_entries (fs : FS) (k : apath) : bool :=
  negb (bool_decide (map_Forall (fun k' _ => k' = [] \/ removelast k' <> k) fs)).

(** [any(p.iterdir())]. *)
Definition any_iterdir (fs : FS) (p : apath) : res bool :=
  match canon fs p with
  | (c, Found) =>
      if is_dir_at fs c then Ret (has_entries fs c) else Raise NotADirectoryError
  | (_, st) => Raise (errno st)
  end.

(** [p.rmdir()]. *)
Definition rmdir (p : apath) : M unit := fun fs =>
  match locate fs p with
  | (k, Found) =>
      if is_dir_at fs k then
        if has_entries fs k then (Raise DirectoryNotEmpty, fs)
        else (Ret tt, delete k fs)
      else (Raise NotADirectoryError, fs)
  | (_, st) => (Raise (errno st), fs)
  end.

(** [shutil.copytree(src, dst)] and [shutil.rmtree(p)] are taken as an
    interface: the reconcilers are defined for any behaviour of the two. *)
Class TreeOps := {
  copytree : apath -> apath -> M unit;
  rmtree : apath -> M unit
}.

(** [try: m except OSError: h]. *)
Definition except_OSError {A} (m h : M A) : M A := fun fs =>
  match m fs with
  | (Raise e, fs') => if is_OSError e then h fs' else (Raise e, fs')
  | r => r
  end.

End Os.
Export Os.

(** ** Text helpers of [pathlib] and of the copier *)

Module Text.

(** Index of the last dot of a name. *)
Fixpoint rfind_dot (s : string) (i : nat) (acc : option nat) : option nat :=
  match s with
  | EmptyString => acc
  | String a s' =>
      rfind_dot s' (S i) (if Ascii.eqb a "."%char then Some i else acc)
  end.

(** The final name with its suffix replaced: the suffix starts at the last
    dot when that is neither the first nor the last character. *)
Definition name_with_suffix (nm suffix : string) : string :=
  match rfind_dot nm 0 None with
  | Some i =>
      if (0 <? i)%nat && (i <? String.length nm - 1)%nat
      then String.append (String.substring 0 i nm) suffix
      else String.append nm suffix
  | None => String.append nm suffix
  end.

(** [p.with_suffix(suffix)]. *)
Definition with_suffix (p : apath) (suffix : string) : res apath :=
  match unsnoc p with
  | None => Raise ValueError
  | Some (q, c) => Ret (q ++ [name_with_suffix c suffix])
  end.

(** [p.relative_to(base)], [None] for [ValueError]. *)
Fixpoint relative_to (p base : apath) : option apath :=
  match base, p with
  | [], _ => Some p
  | b :: base', c :: p' =>
      if decide (b = c) then relative_to p' base' else None
  | _ :: _, [] => None
  end.

(** [str.lower()] on ASCII text: the letters [A] to [Z] are lowered and
    every other character is kept; the case mapping of letters outside
    ASCII is left out. *)
Definition lower_ascii (a : ascii) : ascii :=
  let n := nat_of_ascii a in
  if (65 <=? n)%nat && (n <=? 90)%nat then ascii_of_nat (n + 32) else a.

Fixpoint lower (s : string) : string :=
  match s with
  | EmptyString => EmptyString
  | String a s' => String (lower_ascii a) (lower s')
  end.

(** [pat in s] on strings. *)
Fixpoint contains (pat s : string) : bool :=
  String.prefix pat s ||
  match s with
  | EmptyString => false
  | String _ s' => contains pat s'
  end.

End Text.
Export Text.

(** ** [files/linker.py] *)

Module Linker.
Section Linker.

Context {T : TreeOps} (home : apath).

Definition _backup_existing (dest_abs : apath) (backup_dir : option apath)
  : M bool :=
  match backup_dir with
  | None => ret false
  | Some backup_dir =>
      bind! present :=
        ask (fun fs => exists_ fs dest_abs || is_symlink fs dest_abs) in
      if negb present then ret false
      else
        let rel_path :=
          match relative_to dest_abs home with
          | Some r => r
          | None => match unsnoc dest_abs with Some (_, c) => [c] | None => [] end
          end in
        let backup_path := backup_dir ++ rel_path in
        run! mkdir_parents (parent backup_path) in
        bind! link := ask (fun fs => is_symlink fs dest_abs) in
        if link then
          bind! there := ask (fun fs => exists_ fs dest_abs) in
          bind! target :=
            (if there then
               bind! r := lift (fun fs => resolve fs dest_abs) in
               ret (str (absolute r))
             else ret "broken") in
          bind! record := lift (fun _ => with_suffix backup_path ".symlink") in
          run! write_text record target in
          ret true
        else
          bind! d := ask (fun fs => is_dir fs dest_abs) in
          if d then
            bind! old := ask (fun fs => exists_ fs backup_path) in
            run! (if old then rmtree backup_path else ret tt) in
            run! copytree dest_abs backup_path in
            ret true
          else
            run! copy2 dest_abs backup_path in
            ret true
  end.

(** [dest_abs.resolve() == source.resolve()] under [except OSError: pass]. *)
Definition points_to (dest_abs source : apath) : M bool :=
  except_OSError
    (bind! a := lift (fun fs => resolve fs dest_abs) in
     bind! b := lift (fun fs => resolve fs source) in
     ret (bool_decide (a = b)))
    (ret false).

Definition create_symlink (source : apath) (dest : Path) (force : bool)
    (backup_dir : option apath) : M (bool * string) :=
  let dest_abs := under home dest in
  run! mkdir_parents (parent dest_abs) in
  bind! present :=
    ask (fun fs => exists_ fs dest_abs || is_symlink fs dest_abs) in
  bind! early :=
    (if present then
       bind! link := ask (fun fs => is_symlink fs dest_abs) in
       bind! already := (if link then points_to dest_abs source else ret false) in
       if already then ret (Some (true, "ok"))
       else if negb force then ret (Some (false, "conflict"))
       else
         run! _backup_existing dest_abs backup_dir in
         bind! real_dir :=
           ask (fun fs => is_dir fs dest_abs && negb (is_symlink fs dest_abs)) in
         run! (if real_dir then rmtree dest_abs else unlink dest_abs) in
         ret None
     else ret None) in
  match early with
  | Some r => ret r
  | None =>
      run! symlink_to dest_abs source in
      ret (true, "created")
  end.

Definition remove_symlink (dest : Path) : M bool :=
  let dest_abs := under home dest in
  bind! link := ask (fun fs => is_symlink fs dest_abs) in
  if link then run! unlink dest_abs in ret true
  else ret false.

Definition check_symlink (source : apath) (dest : Path) : M string :=
  let dest_abs := under home dest in
  bind! present :=
    ask (fun fs => exists_ fs dest_abs || is_symlink fs dest_abs) in
  if negb present then ret "missing"
  else
    bind! link := ask (fun fs => is_symlink fs dest_abs) in
    if negb link then ret "conflict"
    else
      except_OSError
        (bind! a := lift (fun fs => resolve fs dest_abs) in
         bind! b := lift (fun fs => resolve fs source) in
         if bool_decide (a = b) then ret "ok" else ret "wrong")
        (ret "broken").

End Linker.
End Linker.

(** ** [files/copier.py] *)

Module Copier.
Section Copier.

Context {T : TreeOps} (home : apath).

Definition _backup_existing (dest_abs : apath) (backup_dir : option apath)
  : M bool :=
  match backup_dir with
  | None => ret false
  | Some backup_dir =>
      bind! present := ask (fun fs => exists_ fs dest_abs) in
      if negb present then ret false
      else
        let rel_path :=
          match relative_to dest_abs home with
          | Some r => r
          | None => match unsnoc dest_abs with Some (_, c) => [c] | None => [] end
          end in
        let backup_path := backup_dir ++ rel_path in
        run! mkdir_parents (parent backup_path) in
        bind! d := ask (fun fs => is_dir fs dest_abs) in
        if d then
          bind! old := ask (fun fs => exists_ fs backup_path) in
          run! (if old then rmtree backup_path else ret tt) in
          run! copytree dest_abs backup_path in
          ret true
        else
          run! copy2 dest_abs backup_path in
          ret true
  end.

Definition sensitive_patterns : list string :=
  ["ssh"; "secret"; "key"; "credential"; "token"; "password"].

Definition _is_sensitive (path : Path) : bool :=
  let path_str := lower (str path) in
  existsb (fun p => contains p path_str) sensitive_patterns.

Definition copy_file (source : apath) (dest : Path) (force : bool)
    (backup_dir : option apath) : M (bool * string) :=
  let dest_abs := under home dest in
  run! mkdir_parents (parent dest_abs) in
  bind! present := ask (fun fs => exists_ fs dest_abs) in
  bind! early :=
    (if present then
       bind! files := ask (fun fs => is_file fs dest_abs && is_file fs source) in
       bind! same :=
         (if files then lift (fun fs => filecmp_cmp fs source dest_abs)
          else ret false) in
       if same then ret (Some (true, "ok"))
       else if negb force then ret (Some (false, "conflict"))
       else
         run! _backup_existing dest_abs backup_dir in
         ret None
     else ret None) in
  match early with
  | Some r => ret r
  | None =>
      bind! tree := ask (fun fs => is_dir fs source) in
      run! (if tree then
              bind! there := ask (fun fs => exists_ fs dest_abs) in
              run! (if there then rmtree dest_abs else ret tt) in
              copytree source dest_abs
            else copy2 source dest_abs) in
      run! (if _is_sensitive dest then chmod dest_abs 384 else ret tt) in
      ret (true, "copied")
  end.

End Copier.
End Copier.

(** ** Python values, as [yaml.safe_load] returns them *)

Module Value.

(** Floats, dates and binary scalars are left out. *)
#[warnings="-register-all"]
Inductive value :=
| VNone
| VBool (b : bool)
| VInt (z : Z)
| VStr (s : string)
| VList (l : list value)
| VDict (d : list (value * value)).

(** A dict is kept as its items in insertion order, keys pairwise
    different. *)
Abbreviation dict := (list (value * value)).

Definition truthy (v : value) : bool :=
  match v with
  | VNone => false
  | VBool b => b
  | VInt z => negb (z =? 0)%Z
  | VStr s => negb (String.eqb s "")
  | VList l => match l with [] => false | _ => true end
  | VDict d => match d with [] => false | _ => true end
  end.

Definition hashable (v : value) : bool :=
  match v with VList _ | VDict _ => false | _ => true end.

(** [a == b] on hashable values; [True == 1] and [False == 0]. *)
Definition key_eqb (a b : value) : bool :=
  match a, b with
  | VNone, VNone => true
  | VStr s, VStr t => String.eqb s t
  | VInt x, VInt y => (x =? y)%Z
  | VBool x, VBool y => Bool.eqb x y
  | VInt x, VBool y | VBool y, VInt x => (x =? (if y then 1 else 0))%Z
  | _, _ => false
  end.

Fixpoint dict_get (k : value) (d : dict) : option value :=
  match d with
  | [] => None
  | (k', v) :: d' => if key_eqb k' k then Some v else dict_get k d'
  end.

(** [d[k] = v]: in place when the key is there, at the end otherwise. *)
Fixpoint dict_set (k v : value) (d : dict) : dict :=
  match d with
  | [] => [(k, v)]
  | (k', v') :: d' =>
      if key_eqb k' k then (k', v) :: d' else (k', v') :: dict_set k v d'
  end.

Fixpoint dict_del (k : value) (d : dict) : dict :=
  match d with
  | [] => []
  | (k', v') :: d' => if key_eqb k' k then d' else (k', v') :: dict_del k d'
  end.

Definition res_bind {A B} (m : res A) (k : A -> res B) : res B :=
  match m with Ret a => k a | Raise e => Raise e end.

Fixpoint res_map {A B} (f : A -> res B) (l : list A) : res (list B) :=
  match l with
  | [] => Ret []
  | x :: l' =>
      res_bind (f x) (fun y => res_bind (res_map f l') (fun ys => Ret (y :: ys)))
  end.

Fixpoint chars (s : string) : list value :=
  match s with
  | EmptyString => []
  | String a s' => VStr (String a EmptyString) :: chars s'
  end.

(** [k in data] for a string [k]. *)
Definition py_in (k : string) (data : value) : res bool :=
  match data with
  | VDict d => Ret (match dict_get (VStr k) d with Some _ => true | None => false end)
  | VList l => Ret (existsb (key_eqb (VStr k)) l)
  | VStr s => Ret (contains k s)
  | _ => Raise TypeError
  end.

(** [data[k]] for a string [k]. *)
Definition subscript (data : value) (k : string) : res value :=
  match data with
  | VDict d =>
      match dict_get (VStr k) d with Some v => Ret v | None => Raise KeyError end
  | _ => Raise TypeError
  end.

(** [data.get(k, default)]. *)
Definition py_get (data : value) (k : string) (default : value) : res value :=
  match data with
  | VDict d =>
      Ret (match dict_get (VStr k) d with Some v => v | None => default end)
  | _ => Raise AttributeError
  end.

(** [v.items()]. *)
Definition items (v : value) : res dict :=
  match v with VDict d => Ret d | _ => Raise AttributeError end.

(** [for x in v]. *)
Definition iterate (v : value) : res (list value) :=
  match v with
  | VList l => Ret l
  | VDict d => Ret (map fst d)
  | VStr s => Ret (chars s)
  | _ => Raise TypeError
  end.

(** [Path(v)]. *)
Definition to_Path (v : value) : res Path :=
  match v with VStr s => Ret (Path_of_string s) | _ => Raise TypeError end.

End Value.
Export Value.

Declare Scope res_scope.
Delimit Scope res_scope with res.
Notation "'try!' x := m 'in' k" := (res_bind m (fun x => k))
  (at level 10, x name, m at level 100, k at level 200) : res_scope.
Open Scope res_scope.

(** ** The world of one command *)

Module World.

(** The manifest document: the value [yaml.safe_load] gives for it, or a
    text that is no YAML. *)
Inductive document :=
| Parsed (data : value)
| Unparsable.

(** The lines printed through [utils/console.py], one constructor for
    each call site of [apply] and [collect]. *)
Inductive line :=
| warn_no_files            (* warning("No files in manifest...") *)
| header (title : string)
| err_source_not_found (dest source : Path)
| info_dry_run (type : value) (source dest : Path)
| dim_already_ok (dest : Path)
| success_dest (dest : Path)
| warn_exists (dest : Path)
| err_failed (dest : Path) (status : string)
| blank                    (* print() *)
| success_applied (n : nat)
| warn_skipped (n : nat)
| err_errors (n : nat)
| info_backups (backup_dir : apath)
| dim_not_found (dest : Path)
| dim_symlink (dest : Path)
| dim_unchanged (dest : Path)
| info_would_collect (dest : Path)
| err_collect (dest : Path) (e : exn)
| success_collected (n : nat)
| dim_skipped (n : nat).

(** The file tree, the manifest document kept beside it ([None]: no
    document at the manifest's path), and what was printed, first line
    first. *)
Record World := mkWorld {
  tree : FS;
  disk : option document;
  console : list line
}.

Definition W (A : Type) : Type := World -> res A * World.

Definition wret {A} (a : A) : W A := fun w => (Ret a, w).
Definition wbind {A B} (m : W A) (k : A -> W B) : W B :=
  fun w =>
    match m w with
    | (Ret a, w') => k a w'
    | (Raise e, w') => (Raise e, w')
    end.
Definition say (l : line) : W unit :=
  fun w => (Ret tt, mkWorld (tree w) (disk w) (console w ++ [l])).
Definition on_tree {A} (m : M A) : W A :=
  fun w =>
    let '(r, fs) := m (tree w) in (r, mkWorld fs (disk w) (console w)).
Definition look {A} (f : FS -> A) : W A := fun w => (Ret (f (tree w)), w).
Definition when (b : bool) (m : W unit) : W unit := if b then m else wret tt.

End World.
Export World.

Declare Scope world_scope.
Delimit Scope world_scope with world.
Notation "'let!' x := m 'in' k" := (wbind m (fun x => k))
  (at level 10, x name, m at level 100, k at level 200) : world_scope.
Notation "'do!' m 'in' k" := (wbind m (fun _ => k))
  (at level 10, m at level 100, k at level 200) : world_scope.
Open Scope world_scope.

(** ** [files/manifest.py] *)

Module Manifest.

Record FileEntry := mkEntry {
  source : Path;
  dest : Path;
  type : value;      (* declared [str] *)
  platform : value   (* declared [Optional[str]] *)
}.

Record Manifest := mkManifest {
  entries : list FileEntry;
  path : apath
}.

Definition entry_of_item (item : value) : res FileEntry :=
  try! s := subscript item "source" in
  try! source := to_Path s in
  try! d := subscript item "dest" in
  try! dest := to_Path d in
  try! type := py_get item "type" (VStr "symlink") in
  try! platform := py_get item "platform" VNone in
  Ret (mkEntry source dest type platform).

Definition entry_of_pair (type platform : value) (kv : value * value)
  : res FileEntry :=
  try! source := to_Path (fst kv) in
  try! dest := to_Path (snd kv) in
  Ret (mkEntry source dest type platform).

(** The entries of one legacy mapping [data.get(section, {})]. *)
Definition section_entries (data : value) (section type : string)
    (platform : value) : res (list FileEntry) :=
  try! m := py_get data section (VDict []) in
  try! kvs := items m in
  res_map (entry_of_pair (VStr type) platform) kvs.

Definition platform_entries (kv : value * value) : res (list FileEntry) :=
  try! links := section_entries (snd kv) "symlinks" "symlink" (fst kv) in
  try! copies := section_entries (snd kv) "copies" "copy" (fst kv) in
  Ret (links ++ copies).

Definition load (path : apath) (disk : option document) : res Manifest :=
  match disk with
  | None => Ret (mkManifest [] path)
  | Some Unparsable => Raise YAMLError
  | Some (Parsed loaded) =>
      let data := if truthy loaded then loaded else VDict [] in
      try! flat := py_in "entries" data in
      if flat then
        try! listed := subscript data "entries" in
        try! its := iterate listed in
        try! entries := res_map entry_of_item its in
        Ret (mkManifest entries path)
      else
        try! links := section_entries data "symlinks" "symlink" VNone in
        try! copies := section_entries data "copies" "copy" VNone in
        try! p := py_get data "platform" (VDict []) in
        try! plats := items p in
        try! per_platform := res_map platform_entries plats in
        Ret (mkManifest (links ++ copies ++ concat per_platform) path)
  end.

Definition as_dict (v : option value) : dict :=
  match v with Some (VDict d) => d | _ => [] end.

(** The body of the loop of [save]. *)
Definition save_entry (data : dict) (entry : FileEntry) : res dict :=
  let section :=
    VStr (if key_eqb (type entry) (VStr "symlink") then "symlinks" else "copies") in
  let item := dict_set (VStr (str (source entry))) (VStr (str (dest entry))) in
  if truthy (platform entry) then
    if hashable (platform entry) then
      let plats := as_dict (dict_get (VStr "platform") data) in
      let plat := as_dict (dict_get (platform entry) plats) in
      let sec := as_dict (dict_get section plat) in
      Ret (dict_set (VStr "platform")
             (VDict (dict_set (platform entry)
                       (VDict (dict_set section (VDict (item sec)) plat))
                       plats))
             data)
    else Raise TypeError
  else
    let sec := as_dict (dict_get section data) in
    Ret (dict_set section (VDict (item sec)) data).

Fixpoint save_entries (data : dict) (l : list FileEntry) : res dict :=
  match l with
  | [] => Ret data
  | entry :: l' =>
      try! data' := save_entry data entry in
      save_entries data' l'
  end.

Definition nonempty (kv : value * value) : bool := truthy (snd kv).

(** "Clean empty sections". *)
Definition clean (data : dict) : dict :=
  let data := List.filter nonempty data in
  match dict_get (VStr "platform") data with
  | None => data
  | Some p =>
      let plats :=
        map (fun kv => (fst kv, VDict (List.filter nonempty (as_dict (Some (snd kv))))))
            (as_dict (Some p)) in
      let plats := List.filter nonempty plats in
      match plats with
      | [] => dict_del (VStr "platform") data
      | _ => dict_set (VStr "platform") (VDict plats) data
      end
  end.

(** The object handed to [yaml.dump]. *)
Definition save_data (l : list FileEntry) : res dict :=
  try! data := save_entries [(VStr "symlinks", VDict [])] l in
  Ret (clean data).

Definition write_document (data : value) : W unit :=
  fun w => (Ret tt, mkWorld (tree w) (Some (Parsed data)) (console w)).

Definition save (m : Manifest) : W unit :=
  fun w =>
    match save_data (entries m) with
    | Raise e => (Raise e, w)
    | Ret data =>
        (do! on_tree (mkdir_parents (parent (path m))) in
         write_document (VDict data)) w
    end.

(** The first entry with the given [dest] gets the new fields. *)
Fixpoint update (source dest : Path) (type platform : value)
    (l : list FileEntry) : option (list FileEntry) :=
  match l with
  | [] => None
  | entry :: l' =>
      if decide (Manifest.dest entry = dest)
      then Some (mkEntry source (Manifest.dest entry) type platform :: l')
      else option_map (cons entry) (update source dest type platform l')
  end.

(** [add] and [remove] change the entry list in place and then save: the
    manifest is returned as it is after the call, also when [save]
    raised. *)
Definition add (source dest : Path) (type platform : value) (m : Manifest)
  : World -> res unit * Manifest * World :=
  fun w =>
    let m' :=
      match update source dest type platform (entries m) with
      | Some l => mkManifest l (path m)
      | None =>
          mkManifest (entries m ++ [mkEntry source dest type platform]) (path m)
      end in
    let '(r, w') := save m' w in (r, m', w').

(** The entry list without its first entry with the given [dest]. *)
Fixpoint pop_dest (dest : Path) (l : list FileEntry) : option (list FileEntry) :=
  match l with
  | [] => None
  | entry :: l' =>
      if decide (Manifest.dest entry = dest) then Some l'
      else option_map (cons entry) (pop_dest dest l')
  end.

Definition remove (dest : Path) (m : Manifest)
  : World -> res bool * Manifest * World :=
  fun w =>
    match pop_dest dest (entries m) with
    | Some l =>
        let m' := mkManifest l (path m) in
        match save m' w with
        | (Ret _, w') => (Ret true, m', w')
        | (Raise e, w') => (Raise e, m', w')
        end
    | None => (Ret false, m, w)
    end.

Definition find_by_dest (dest : Path) (m : Manifest) : option FileEntry :=
  List.find (fun entry => bool_decide (Manifest.dest entry = dest)) (entries m).

Definition for_platform (p : string) (m : Manifest) : list FileEntry :=
  List.filter
    (fun e => match platform e with
              | VNone => true
              | v => key_eqb v (VStr p)
              end)
    (entries m).

End Manifest.

(** ** The reconciler matching an entry's type *)

Module Reconcile.
Section Reconcile.

Context {T : TreeOps} (home : apath).

(** [create_symlink] for a ["symlink"] entry, [copy_file] for any other,
    as [apply] chooses. *)
Definition create (link : bool) (source : apath) (dest : Path) (force : bool)
    (backup_dir : option apath) : M (bool * string) :=
  if link then Linker.create_symlink home source dest force backup_dir
  else Copier.copy_file home source dest force backup_dir.

End Reconcile.
End Reconcile.

(** ** [commands/sync.py]: apply and collect *)

Module Sync.
Section Sync.

(** [Config] and the environment: the home directory, the repository,
    the manifest path, [platform.system().lower()], and the time stamp
    [datetime.now().strftime("%Y%m%d_%H%M%S")]. *)
Record Config := mkConfig {
  home : apath;
  dotfiles_path : apath;
  files_yaml : apath;
  platform : string;
  timestamp : string
}.

Context {T : TreeOps} (cfg : Config).

Definition load_manifest : W Manifest.Manifest :=
  fun w => (Manifest.load (files_yaml cfg) (disk w), w).

Definition is_symlink_type (entry : Manifest.FileEntry) : bool :=
  key_eqb (Manifest.type entry) (VStr "symlink").

(** The counters [ok_count], [skip_count], [error_count]. *)
Record Counts := mkCounts { ok_count : nat; skip_count : nat; error_count : nat }.

(** The body of the loop of [apply]. *)
Definition apply_entry (force dry_run : bool) (backup_dir : option apath)
    (entry : Manifest.FileEntry) (c : Counts) : W Counts :=
  let source_abs := under (dotfiles_path cfg) (Manifest.source entry) in
  let dest := Manifest.dest entry in
  let! there := look (fun fs => exists_ fs source_abs) in
  if negb there then
    do! say (err_source_not_found dest (Manifest.source entry)) in
    wret (mkCounts (ok_count c) (skip_count c) (S (error_count c)))
  else if dry_run then
    do! say (info_dry_run (Manifest.type entry) (Manifest.source entry) dest) in
    wret c
  else
    let! r :=
      on_tree (Reconcile.create (home cfg) (is_symlink_type entry)
                                source_abs dest force backup_dir) in
    let '(ok, status) := r in
    if ok then
      do! say (if String.eqb status "ok" then dim_already_ok dest
               else success_dest dest) in
      wret (mkCounts (S (ok_count c)) (skip_count c) (error_count c))
    else if String.eqb status "conflict" && negb force then
      do! say (warn_exists dest) in
      wret (mkCounts (ok_count c) (S (skip_count c)) (error_count c))
    else
      do! say (err_failed dest status) in
      wret (mkCounts (ok_count c) (skip_count c) (S (error_count c))).

Fixpoint apply_loop (force dry_run : bool) (backup_dir : option apath)
    (l : list Manifest.FileEntry) (c : Counts) : W Counts :=
  match l with
  | [] => wret c
  | entry :: l' =>
      let! c' := apply_entry force dry_run backup_dir entry c in
      apply_loop force dry_run backup_dir l' c'
  end.

Definition positive (n : nat) : bool := negb (Nat.eqb n 0).

Definition apply (force dry_run : bool) : W unit :=
  let! manifest := load_manifest in
  match Manifest.entries manifest with
  | [] => say (warn_no_files)
  | _ =>
      do! say (header "Applying files") in
      let entries := Manifest.for_platform (platform cfg) manifest in
      let! backup_dir :=
        (if force && negb dry_run then
           let backup_dir :=
             dotfiles_path cfg
               ++ ["backups"; String.append "pre-apply-" (timestamp cfg)] in
           do! on_tree (mkdir_parents backup_dir) in
           wret (Some backup_dir)
         else wret None) in
      let! c := apply_loop force dry_run backup_dir entries (mkCounts 0 0 0) in
      if dry_run then wret tt
      else
        do! say blank in
        do! when (positive (ok_count c)) (say (success_applied (ok_count c))) in
        do! when (positive (skip_count c)) (say (warn_skipped (skip_count c))) in
        do! when (positive (error_count c)) (say (err_errors (error_count c))) in
        match backup_dir with
        | None => wret tt
        | Some backup_dir =>
            let! any := on_tree (lift (fun fs => any_iterdir fs backup_dir)) in
            if any then say (info_backups backup_dir)
            else on_tree (rmdir backup_dir)
        end
  end.

(** [try: m except Exception as e: h e]. *)
Definition except_Exception {A} (m : W A) (h : exn -> W A) : W A :=
  fun w =>
    match m w with
    | (Raise e, w') => h e w'
    | r => r
    end.

(** The [try] block of [collect]: copy from home to the repository. *)
Definition collect_copy (entry : Manifest.FileEntry) (c : nat * nat)
  : W (nat * nat) :=
  let '(collected, skipped) := c in
  let source_abs := under (dotfiles_path cfg) (Manifest.source entry) in
  let dest := Manifest.dest entry in
  let dest_abs := under (home cfg) dest in
  except_Exception
    (do! on_tree (mkdir_parents (parent source_abs)) in
     let! d := look (fun fs => is_dir fs dest_abs) in
     do! (if d then
            let! old := look (fun fs => exists_ fs source_abs) in
            do! when old (on_tree (rmtree source_abs)) in
            on_tree (copytree dest_abs source_abs)
          else on_tree (copy2 dest_abs source_abs)) in
     do! say (success_dest dest) in
     wret (S collected, skipped))
    (fun e => do! say (err_collect dest e) in wret (collected, skipped)).

(** The body of the loop of [collect], on the counters [collected] and
    [skipped]. *)
Definition collect_entry (dry_run : bool) (entry : Manifest.FileEntry)
    (c : nat * nat) : W (nat * nat) :=
  let '(collected, skipped) := c in
  let source_abs := under (dotfiles_path cfg) (Manifest.source entry) in
  let dest := Manifest.dest entry in
  let dest_abs := under (home cfg) dest in
  let! there := look (fun fs => exists_ fs dest_abs) in
  if negb there then
    do! say (dim_not_found dest) in wret (collected, S skipped)
  else
    let! link := look (fun fs => is_symlink fs dest_abs) in
    if link then
      do! say (dim_symlink dest) in wret (collected, S skipped)
    else
      let! tracked := look (fun fs => exists_ fs source_abs) in
      let! tree_dest := look (fun fs => is_dir fs dest_abs) in
      let! unchanged :=
        (if tracked && negb tree_dest then
           let! a := on_tree (lift (fun fs => read_bytes fs source_abs)) in
           let! b := on_tree (lift (fun fs => read_bytes fs dest_abs)) in
           wret (String.eqb a b)
         else wret false) in
      if unchanged then
        do! say (dim_unchanged dest) in wret (collected, S skipped)
      else if dry_run then
        do! say (info_would_collect dest) in wret (S collected, skipped)
      else collect_copy entry (collected, skipped).

Fixpoint collect_loop (dry_run : bool) (l : list Manifest.FileEntry)
    (c : nat * nat) : W (nat * nat) :=
  match l with
  | [] => wret c
  | entry :: l' =>
      let! c' := collect_entry dry_run entry c in
      collect_loop dry_run l' c'
  end.

Definition collect (dry_run : bool) : W unit :=
  let! manifest := load_manifest in
  match Manifest.entries manifest with
  | [] => say warn_no_files
  | _ =>
      do! say (header "Collecting files") in
      let entries := Manifest.for_platform (platform cfg) manifest in
      let! c := collect_loop dry_run entries (0, 0) in
      do! say blank in
      do! when (positive (fst c)) (say (success_collected (fst c))) in
      when (positive (snd c)) (say (dim_skipped (snd c)))
  end.

End Sync.
End Sync.

(** ** An instance of the tree operations

    [shutil.rmtree] and [shutil.copytree] on the tree model.  A link inside
    a copied tree is copied as the regular file it leads to; a link that
    leads to a directory or to nothing is reported in the [shutil.Error]
    raised after the rest was copied (for a link to a directory the library
    would copy that directory instead). *)

Module PlainTrees.

Definition rmtree (p : apath) : M unit := fun fs =>
  match locate fs p with
  | (k, Found) =>
      match node_at fs k with
      | Some (Link _) => (Raise RmtreeSymlinkError, fs)
      | Some Dir =>
          (Ret tt, filter (fun kv => ~ (k `prefix_of` fst kv)) fs)
      | Some (File _ _) => (Raise NotADirectoryError, fs)
      | None => (Raise FileNotFoundError, fs)
      end
  | (_, st) => (Raise (errno st), fs)
  end.

(** [os.makedirs(p)], [exist_ok] false: a [FileExistsError] from making
    the parents is passed over. *)
Definition makedirs (p : apath) : M unit :=
  bind! up := ask (fun fs => exists_ fs (parent p)) in
  run! (match p with
        | [] | [_] => ret tt
        | _ =>
            if up then ret tt
            else fun fs =>
                   match mkdir_parents (parent p) fs with
                   | (Raise FileExistsError, fs') => (Ret tt, fs')
                   | r => r
                   end
        end) in
  os_mkdir p.

(** The entries below the canonical path [cs], named from [cs]. *)
Definition below (fs : FS) (cs : apath) : FS :=
  kmap (drop (length cs))
       (filter (fun kv => cs `prefix_of` fst kv /\ fst kv <> cs) fs).

Definition copy_node (fs : FS) (cs cd : apath) (kv : apath * node)
    (acc : FS * bool) : FS * bool :=
  let k' := cd ++ drop (length cs) (fst kv) in
  match snd kv with
  | Link _ =>
      match stat fs (fst kv) with
      | Some (File m b) => (<[k' := File m b]> (fst acc), snd acc)
      | _ => (fst acc, true)
      end
  | n => (<[k' := n]> (fst acc), snd acc)
  end.

Definition copytree (src dst : apath) : M unit := fun fs =>
  match canon fs src with
  | (cs, Found) =>
      if is_dir_at fs cs then
        match makedirs dst fs with
        | (Raise e, fs') => (Raise e, fs')
        | (Ret _, fs1) =>
            let cd := fst (locate fs1 dst) in
            let below :=
              map_to_list
                (filter (fun kv => cs `prefix_of` fst kv /\ fst kv <> cs) fs) in
            let '(fs2, failed) := foldr (copy_node fs cs cd) (fs1, false) below in
            if failed then (Raise ShutilError, fs2) else (Ret tt, fs2)
        end
      else (Raise NotADirectoryError, fs)
  | (_, st) => (Raise (errno st), fs)
  end.

Definition plain_trees : TreeOps :=
  {| Os.copytree := copytree; Os.rmtree := rmtree |}.

End PlainTrees.

(** ** [files/copier.py]: the status of a copy *)

Module Status.

(** [filecmp.dircmp(a, b)] is taken as an interface: what it gives, on a
    tree it only reads, for [diff_files], [left_only] and [right_only]. *)
Class DirCmp := {
  dircmp : FS -> apath -> apath -> res (list string * list string * list string)
}.

Section Status.

Context {D : DirCmp} (home : apath).

Definition is_empty (l : list string) : bool :=
  match l with [] => true | _ => false end.

Definition check_copy (source : apath) (dest : Path) : M string :=
  let dest_abs := under home dest in
  bind! there := ask (fun fs => exists_ fs dest_abs) in
  if negb there then ret "missing"
  else
    bind! files := ask (fun fs => is_file fs source && is_file fs dest_abs) in
    if files then
      bind! same := lift (fun fs => filecmp_cmp fs source dest_abs) in
      if same then ret "ok" else ret "changed"
    else
      bind! dirs := ask (fun fs => is_dir fs source && is_dir fs dest_abs) in
      if dirs then
        bind! cmp := lift (fun fs => dircmp fs source dest_abs) in
        let '(diff_files, left_only, right_only) := cmp in
        if is_empty diff_files && is_empty left_only && is_empty right_only
        then ret "ok" else ret "changed"
      else ret "changed".

(** The status [diff] and [status] ask for an entry whose source exists:
    [check_symlink] for a ["symlink"] entry, [check_copy] for any other. *)
Definition check (link : bool) (source : apath) (dest : Path) : M string :=
  if link then Linker.check_symlink home source dest
  else check_copy source dest.

End Status.
End Status.

(** ** [commands/sync.py]: add and remove *)

Module Tracking.

(** The lines [add] and [remove] print.  Each is printed after the last
    call that can raise, so what a command printed is given with its
    result. *)
Inductive note :=
| err_file_not_found (file : string)
| err_not_under_home (file : string)
| info_secret
| success_added (source dest : Path)
| err_not_tracked (file : string)
| info_removed_symlink (dest : Path)
| success_removed (file : string).

(** Where [add] puts a file in the repository. *)
Definition repo_source (secret : bool) (dest : Path) : Path :=
  if secret then
    joinpath (Path_of_string "secrets") (Path_of_string (name (names dest)))
  else if String.prefix ".config/" (str dest) then
    joinpath (Path_of_string "files/config") (mkPath false (tail (names dest)))
  else if String.prefix "." (str dest) then
    joinpath (Path_of_string "files/home") dest
  else joinpath (Path_of_string "files") dest.

Section Tracking.

(** [expanded file] stands for [Path(file).expanduser()] made absolute
    against the working directory, which [resolve] starts from. *)
Context {T : TreeOps} (cfg : Sync.Config) (expanded : string -> apath).

Definition manifest_add (source dest : Path) (type platform : value)
    (m : Manifest.Manifest) : W unit :=
  fun w => let '(r, _, w') := Manifest.add source dest type platform m w in (r, w').

Definition manifest_remove (dest : Path) (m : Manifest.Manifest) : W bool :=
  fun w => let '(r, _, w') := Manifest.remove dest m w in (r, w').

Definition add (file type : string) (secret : bool) (platform : option string)
  : W (bool * list note) :=
  let! manifest := Sync.load_manifest cfg in
  let! file_path := on_tree (lift (fun fs => resolve fs (expanded file))) in
  let! there := look (fun fs => exists_ fs file_path) in
  if negb there then wret (false, [err_file_not_found file])
  else
    match relative_to file_path (Sync.home cfg) with
    | None => wret (false, [err_not_under_home file])
    | Some rel =>
        let dest := mkPath false rel in
        let source := repo_source secret dest in
        let source_abs := under (Sync.dotfiles_path cfg) source in
        do! on_tree (mkdir_parents (parent source_abs)) in
        let! d := look (fun fs => is_dir fs file_path) in
        do! (if d then
               let! old := look (fun fs => exists_ fs source_abs) in
               do! when old (on_tree (rmtree source_abs)) in
               on_tree (copytree file_path source_abs)
             else on_tree (copy2 file_path source_abs)) in
        do! manifest_add source dest (VStr type)
              (match platform with Some p => VStr p | None => VNone end)
              manifest in
        do! (if String.eqb type "symlink" then
               let! d := look (fun fs => is_dir fs file_path) in
               do! (if d then on_tree (rmtree file_path)
                    else on_tree (unlink file_path)) in
               on_tree (symlink_to file_path source_abs)
             else wret tt) in
        wret (true,
              (if secret then [info_secret] else [])
                ++ [success_added source dest])
    end.

Definition remove (file : string) : W (bool * list note) :=
  let! manifest := Sync.load_manifest cfg in
  let dest := Path_of_string file in
  match Manifest.find_by_dest dest manifest with
  | None => wret (false, [err_not_tracked file])
  | Some _ =>
      do! manifest_remove dest manifest in
      let dest_abs := under (Sync.home cfg) dest in
      let! link := look (fun fs => is_symlink fs dest_abs) in
      if link then
        do! on_tree (unlink dest_abs) in
        wret (true, [info_removed_symlink dest; success_removed file])
      else wret (true, [success_removed file])
  end.

End Tracking.
End Tracking.

(** * Notions used in the statements *)

(** ** Path resolution *)

Module Resolution.

(** [seen'] holds no link of [fs] that [seen] does not hold. *)
Definition compat (fs : FS) (seen seen' : list apath) : Prop :=
  forall x, x ∈ seen' -> x ∈ seen \/ fs !! x = None.

(** The resolver of link targets behind [realpath d]. *)
Definition follow_of (d : nat) (fs : FS)
  : list apath -> apath -> Path -> apath * wstatus :=
  fun seen base t =>
    match d with
    | 0 => (base ++ names t, Loop)
    | S d' => realpath d' fs seen base (names t)
    end.

(** A resolution that stopped where the last name can be created finds
    every name once a file or directory is put there. *)
Definition not_link (n : node) : Prop :=
  match n with Link _ => False | _ => True end.

End Resolution.

(** ** Conditions on a destination and on an entry *)

Module Conditions.

(** The destination is taken: for a symlink entry anything is there, a
    dangling link included; for a copy entry the path leads somewhere. *)
Definition occupied (link : bool) (fs : FS) (dest_abs : apath) : bool :=
  if link then exists_ fs dest_abs || is_symlink fs dest_abs
  else exists_ fs dest_abs.

(** The destination already stands for the source: a link that resolves
    to what the source resolves to, or a regular file with the bytes of
    the source. *)
Definition settled (link : bool) (fs : FS) (source dest_abs : apath) : Prop :=
  if link then
    is_symlink fs dest_abs = true /\ resolve fs dest_abs = resolve fs source
  else
    exists m1 m2 b,
      stat fs dest_abs = Some (File m1 b) /\ stat fs source = Some (File m2 b).

Section Entry.

Context (cfg : Sync.Config).

Definition source_abs (entry : Manifest.FileEntry) : apath :=
  under (Sync.dotfiles_path cfg) (Manifest.source entry).

Definition dest_abs (entry : Manifest.FileEntry) : apath :=
  under (Sync.home cfg) (Manifest.dest entry).

(** The line [apply] prints for an entry in a dry run. *)
Definition dry_run_line (fs : FS) (entry : Manifest.FileEntry) : line :=
  if exists_ fs (source_abs entry)
  then info_dry_run (Manifest.type entry) (Manifest.source entry)
                    (Manifest.dest entry)
  else err_source_not_found (Manifest.dest entry) (Manifest.source entry).

(** The line is about the entry with this destination. *)
Definition reports (entry : Manifest.FileEntry) (l : line) : Prop :=
  match l with
  | dim_not_found d | dim_symlink d | dim_unchanged d | info_would_collect d =>
      d = Manifest.dest entry
  | _ => False
  end.

Definition collect_summary (c : nat * nat) : W unit :=
  do! say blank in
  do! when (Sync.positive (fst c)) (say (success_collected (fst c))) in
  when (Sync.positive (snd c)) (say (dim_skipped (snd c))).

(** The destination is absent (or leads nowhere), is a symlink, or is a
    regular file with the bytes of the regular file at the source. *)
Definition skip_condition (fs : FS) (entry : Manifest.FileEntry) : Prop :=
  exists_ fs (dest_abs entry) = false \/
  is_symlink fs (dest_abs entry) = true \/
  (is_dir fs (dest_abs entry) = false /\
   exists m1 m2 b,
     stat fs (source_abs entry) = Some (File m1 b) /\
     stat fs (dest_abs entry) = Some (File m2 b)).

End Entry.

End Conditions.

(** ** The manifest and its document *)

Module Shape.
Import Manifest.

(** The manifest as [add] leaves it. *)
Definition added (source dest : Path) (type platform : value) (m : Manifest)
    (w : World) : Manifest :=
  snd (fst (add source dest type platform m w)).

Definition is_str (v : value) : bool :=
  match v with VStr _ => true | _ => false end.

Definition named (name : string) (k : value) : bool :=
  match k with VStr s => String.eqb s name | _ => false end.

(** A mapping of source text to destination text. *)
Definition str_map (v : value) : bool :=
  match v with
  | VDict d => forallb (fun kv => is_str (fst kv) && is_str (snd kv)) d
  | _ => false
  end.

Definition section_name (k : value) : bool :=
  named "symlinks" k || named "copies" k.

(** A [symlinks] or [copies] grouping that is not empty. *)
Definition full_section (kv : value * value) : bool :=
  section_name (fst kv) && str_map (snd kv) && truthy (snd kv).

(** The groupings of one platform, none of them empty. *)
Definition full_platform (v : value) : bool :=
  match v with
  | VDict secs => truthy v && forallb full_section secs
  | _ => false
  end.

Definition full_platforms (v : value) : bool :=
  match v with
  | VDict ps => truthy v && forallb (fun kv => full_platform (snd kv)) ps
  | _ => false
  end.

Definition nested_item (kv : value * value) : bool :=
  full_section kv || (named "platform" (fst kv) && full_platforms (snd kv)).

(** The nested shape: top-level [symlinks] and [copies] mappings and a
    [platform] mapping of such groupings, nothing else, nothing empty. *)
Definition nested_shape (data : dict) : bool := forallb nested_item data.

(** While the entries are being entered a top-level grouping may still be
    empty. *)
Definition loop_item (kv : value * value) : bool :=
  (section_name (fst kv) && str_map (snd kv))
  || (named "platform" (fst kv) && full_platforms (snd kv)).

(** The exceptions of the parser and of the lookups in [load]. *)
Definition lookup_error (e : exn) : bool :=
  match e with
  | YAMLError | KeyError | TypeError | AttributeError => true
  | _ => false
  end.

Definition safe {A} (r : res A) : Prop :=
  match r with Raise e => lookup_error e = true | Ret _ => True end.

End Shape.

(** ** Trees, manifests and worlds of the worked cases *)

Module Fixtures.
Import Manifest.

Definition home0 : apath := ["home"; "u"].
Definition repo0 : apath := ["home"; "u"; "dotfiles"].

Definition cfg0 : Sync.Config :=
  Sync.mkConfig home0 repo0 (repo0 ++ ["config"; "files.yaml"]) "linux"
                "20240101_120000".

(** A repository with one file and one directory, and an empty home. *)
Definition tree0 : FS :=
  list_to_map
    [ (["home"], Dir);
      (["home"; "u"], Dir);
      (repo0, Dir);
      (repo0 ++ ["files"], Dir);
      (repo0 ++ ["files"; "gitconfig"], File 420 "[user]");
      (repo0 ++ ["files"; "nvim"], Dir);
      (repo0 ++ ["files"; "nvim"; "init.lua"], File 420 "set nu") ].

Definition src_git : apath := repo0 ++ ["files"; "gitconfig"].
Definition src_nvim : apath := repo0 ++ ["files"; "nvim"].
Definition dest_git : Path := Path_of_string ".gitconfig".
Definition dest_nvim : Path := Path_of_string ".config/nvim".

Definition e_git : FileEntry :=
  mkEntry (Path_of_string "files/gitconfig") dest_git (VStr "symlink") VNone.
Definition e_nvim : FileEntry :=
  mkEntry (Path_of_string "files/nvim") dest_nvim (VStr "copy") VNone.

Definition plain := PlainTrees.plain_trees.

(** A home where [.gitconfig] is a regular file of the user's own. *)
Definition tree_own : FS :=
  <[ home0 ++ [".gitconfig"] := File 420 "[user] mine" ]> tree0.

(** A home where [.gitconfig] is a link to a path outside the repository
    that does not exist. *)
Definition tree_dangling : FS :=
  <[ home0 ++ [".gitconfig"] := Link (mkPath true ["nonexistent"; "gitconfig"]) ]>
    tree0.

(** A home where [.gitconfig] is a link to another file of the
    repository. *)
Definition tree_elsewhere : FS :=
  <[ home0 ++ [".gitconfig"] := Link (absolute (src_nvim ++ ["init.lua"])) ]> tree0.

Definition tree_linked : FS :=
  <[ home0 ++ [".gitconfig"] := Link (absolute src_git) ]> tree0.

Definition item (source dest type : string) : value :=
  VDict [(VStr "source", VStr source); (VStr "dest", VStr dest);
         (VStr "type", VStr type)].

Definition two_entries : document :=
  Parsed (VDict [(VStr "entries",
                  VList [item "files/nvim" ".config/nvim" "copy";
                         item "files/gitconfig" ".gitconfig" "symlink"])]).

(** A home where [.config] is a regular file, so that no directory can be
    made for the first entry. *)
Definition world_blocked : World :=
  mkWorld (<[ home0 ++ [".config"] := File 420 "" ]> tree0) (Some two_entries) [].

Definition world_free : World := mkWorld tree0 (Some two_entries) [].

(** A home whose [.config/nvim] is a directory equal to the one in the
    repository. *)
Definition tree_same_dir : FS :=
  <[ home0 ++ [".config"] := Dir ]>
    (<[ home0 ++ [".config"; "nvim"] := Dir ]>
       (<[ home0 ++ [".config"; "nvim"; "init.lua"] := File 420 "set nu" ]> tree0)).

Definition world_same_dir : World := mkWorld tree_same_dir None [].

Definition e_ssh_darwin : FileEntry :=
  mkEntry (Path_of_string "files/ssh_config") (Path_of_string ".ssh/config")
          (VStr "copy") (VStr "darwin").

Definition manifest3 : Manifest :=
  mkManifest [e_git; e_nvim; e_ssh_darwin] (Sync.files_yaml cfg0).

Definition world_empty : World := mkWorld tree0 None [].

Definition written3 : dict :=
  [(VStr "symlinks", VDict [(VStr "files/gitconfig", VStr ".gitconfig")]);
   (VStr "copies", VDict [(VStr "files/nvim", VStr ".config/nvim")]);
   (VStr "platform",
    VDict [(VStr "darwin",
            VDict [(VStr "copies",
                    VDict [(VStr "files/ssh_config", VStr ".ssh/config")])])])].

(** A document that is valid YAML but a list, not a mapping. *)
Definition world_list : World :=
  mkWorld tree0 (Some (Parsed (VList [VStr "files/gitconfig"]))) [].

Definition world_unparsable : World := mkWorld tree0 (Some Unparsable) [].

Definition manifest2 : Manifest :=
  mkManifest [e_git; e_nvim] (Sync.files_yaml cfg0).

End Fixtures.

(** ** Trees as a file system keeps them *)

Module WellFormed.

(** Every entry lies in a directory, and the root is no entry. *)
Definition wf (fs : FS) : Prop :=
  map_Forall (fun k _ => k <> [] /\ is_dir_at fs (removelast k) = true) fs.

(** The path leads to a file or a directory. *)
Definition good (fs : FS) (p : apath) : Prop :=
  exists n, node_at fs p = Some n /\ Resolution.not_link n.

End WellFormed.

(** ** What [apply] prints *)

Module Reports.

Definition total (c : Sync.Counts) : nat :=
  Sync.ok_count c + Sync.skip_count c + Sync.error_count c.

(** The lines after the loop of [apply]: the empty line and one line for
    each counter that is not zero. *)
Definition summary (c : Sync.Counts) : list line :=
  blank
    :: (if Sync.positive (Sync.ok_count c)
        then [success_applied (Sync.ok_count c)] else [])
    ++ (if Sync.positive (Sync.skip_count c)
        then [warn_skipped (Sync.skip_count c)] else [])
    ++ (if Sync.positive (Sync.error_count c)
        then [err_errors (Sync.error_count c)] else []).

(** The line reports the entry as applied, as skipped for a conflict, or
    as lacking its source; a line ["... - failed: ..."] is none of these. *)
Definition applied_line (entry : Manifest.FileEntry) (l : line) : Prop :=
  match l with
  | err_source_not_found d s =>
      d = Manifest.dest entry /\ s = Manifest.source entry
  | dim_already_ok d | success_dest d | warn_exists d => d = Manifest.dest entry
  | _ => False
  end.

End Reports.

(** ** What is read back from a written manifest *)

Module Saved.
Import Manifest.

Fixpoint no_slash (c : string) : bool :=
  match c with
  | EmptyString => true
  | String a c' => negb (Ascii.eqb a "/"%char) && no_slash c'
  end.

(** A name as [pathlib] keeps it: not empty, not [.], without a slash. *)
Definition plain_name (c : string) : bool :=
  negb (String.eqb c "") && negb (String.eqb c ".") && no_slash c.

Definition plain (p : Path) : bool := forallb plain_name (names p).

(** The platform an entry is grouped under by [save]; the empty text for
    an entry of every platform. *)
Definition platform_name (e : FileEntry) : string :=
  match platform e with VStr p => p | _ => "" end.

Definition is_link (e : FileEntry) : bool := key_eqb (type e) (VStr "symlink").

(** The paths are as [pathlib] keeps them and the platform is [None] or a
    text, as the fields are declared. *)
Definition savable (e : FileEntry) : bool :=
  plain (source e) && plain (dest e)
  && match platform e with VNone | VStr _ => true | _ => false end.

(** The place of an entry in the written document: its platform, its
    grouping and the text of its source, which is the key there. *)
Definition slot (e : FileEntry) : string * bool * string :=
  (platform_name e, is_link e, str (source e)).

(** The entry as it is read back: any type but ["symlink"] has become
    ["copy"], an empty platform has become [None]. *)
Definition normal (e : FileEntry) : FileEntry :=
  mkEntry (source e) (dest e)
          (VStr (if is_link e then "symlink" else "copy"))
          (if String.eqb (platform_name e) "" then VNone
           else VStr (platform_name e)).

Definition in_group (p : string) (k : bool) (e : FileEntry) : bool :=
  String.eqb (platform_name e) p && Bool.eqb (is_link e) k.

Definition group (p : string) (k : bool) (l : list FileEntry) : list FileEntry :=
  List.filter (in_group p k) l.

Definition add_new (acc : list string) (p : string) : list string :=
  if bool_decide (p ∈ acc) then acc else acc ++ [p].

Definition named_platforms (l : list FileEntry) : list string :=
  List.filter (fun p => negb (String.eqb p "")) (map platform_name l).

(** The platforms named in a list of entries, each once, in the order of
    their first entry. *)
Definition platforms (l : list FileEntry) : list string :=
  fold_left add_new (named_platforms l) [].

(** The order in which a written manifest is read back: the symlinks and
    the copies of every platform, then those of each platform in turn. *)
Definition regroup (l : list FileEntry) : list FileEntry :=
  group "" true l ++ group "" false l
  ++ concat (map (fun p => group p true l ++ group p false l) (platforms l)).

(** The type is ["symlink"] or ["copy"] and the platform is [None] or a
    text that is not empty: [save] and [load] give the entry back as it
    is. *)
Definition canonical (e : FileEntry) : bool :=
  match type e with
  | VStr t => String.eqb t "symlink" || String.eqb t "copy"
  | _ => false
  end
  && match platform e with
     | VNone => true
     | VStr p => negb (String.eqb p "")
     | _ => false
     end.

Definition of_platform (p : string) (e : FileEntry) : bool :=
  String.eqb (platform_name e) p.

(** *** The document while [save] builds it *)

Definition item_of (e : FileEntry) : value * value :=
  (VStr (str (source e)), VStr (str (dest e))).

(** The grouping under a name, empty when the name is missing. *)
Definition sec_items (d : dict) (name : string) : option dict :=
  match dict_get (VStr name) d with
  | None => Some []
  | Some (VDict s) => Some s
  | Some _ => None
  end.

Definition sn (k : bool) : string := if k then "symlinks" else "copies".

(** The two groupings of [d] hold the entries of platform [p] among [l],
    in their order. *)
Definition secs_ok (p : string) (l : list FileEntry) (d : dict) : Prop :=
  NoDup (map fst d) /\
  forall k, sec_items d (sn k) = Some (map item_of (group p k l)).

Definition plat_ok (l : list FileEntry) (p : string) (kv : value * value) : Prop :=
  fst kv = VStr p /\ exists secs, snd kv = VDict secs /\ secs_ok p l secs.

(** The document holds the entries [l]. *)
Definition Inv (l : list FileEntry) (data : dict) : Prop :=
  secs_ok "" l data /\
  exists P, sec_items data "platform" = Some P /\
            Forall2 (plat_ok l) (platforms l) P.

End Saved.

(** ** Further trees and worlds of the worked cases *)

Module MoreFixtures.
Import Manifest Fixtures.

(** The entries of the directory at the canonical path [c]. *)
Definition listing (fs : FS) (c : apath) : list (string * node) :=
  omap (fun kv : apath * node =>
          match unsnoc (fst kv) with
          | Some (q, n) => if decide (q = c) then Some (n, snd kv) else None
          | None => None
          end)
       (map_to_list fs).

Definition differs (lb : list (string * node)) (x : string * node) : bool :=
  match snd x with
  | File _ a =>
      existsb (fun y => String.eqb (fst y) (fst x)
                        && match snd y with
                           | File _ b => negb (String.eqb a b)
                           | _ => false
                           end) lb
  | _ => false
  end.

Definition lacks (lb : list (string * node)) (x : string * node) : bool :=
  negb (existsb (fun y => String.eqb (fst y) (fst x)) lb).

(** An instance of the directory comparison for the worked cases: the
    names one level down, and the regular files of the same name compared
    by their bytes (the library compares their size and time stamp). *)
Definition listing_dircmp : Status.DirCmp :=
  {| Status.dircmp fs a b :=
       match canon fs a, canon fs b with
       | (ca, Found), (cb, Found) =>
           if is_dir_at fs ca && is_dir_at fs cb then
             let la := listing fs ca in
             let lb := listing fs cb in
             Ret (map fst (List.filter (differs lb) la),
                  map fst (List.filter (lacks lb) la),
                  map fst (List.filter (lacks la) lb))
           else Raise NotADirectoryError
       | _, _ => Raise FileNotFoundError
       end |}.

(** A manifest with a copy of a regular file and a link to a directory. *)
Definition file_and_link : document :=
  Parsed (VDict [(VStr "entries",
                  VList [item "files/gitconfig" ".gitconfig" "copy";
                         item "files/nvim" ".config/nvim" "symlink"])]).

Definition world_copy : World := mkWorld tree0 (Some file_and_link) [].

(** A home where [.config/nvim] is a regular file, while the repository
    has a directory for it. *)
Definition tree_clash : FS :=
  <[ home0 ++ [".config"] := Dir ]>
    (<[ home0 ++ [".config"; "nvim"] := File 420 "set nu" ]> tree0).


(** A home whose [.gitconfig] is the link into the repository, with the
    manifest that tracks it. *)
Definition world_tracked : World := mkWorld tree_linked (Some two_entries) [].

Definition dest_ssh : Path := Path_of_string ".ssh_config".

(** A home where [.gitconfig] is a regular file of the user's own; no
    manifest is read. *)
Definition world_own : World := mkWorld tree_own None [].

(** The same home with a directory for backups, and with the directory
    [files/home] in the repository. *)
Definition backup0 : apath := home0 ++ [".backup"].

Definition tree_kept : FS :=
  <[ backup0 := Dir ]> (<[ repo0 ++ ["files"; "home"] := Dir ]> tree_own).

Definition world_kept : World := mkWorld tree_kept None [].

(** A home in sync with the two entries: [.gitconfig] is the link into
    the repository and [.config/nvim] a directory equal to the one
    there. *)
Definition tree_synced : FS :=
  <[ home0 ++ [".gitconfig"] := Link (absolute src_git) ]> tree_same_dir.

Definition world_synced : World := mkWorld tree_synced (Some two_entries) [].

(** A file name typed in the home directory. *)
Definition typed (file : string) : apath := home0 ++ names (Path_of_string file).

(** The same home with the manifest of the two entries. *)
Definition world_clash_tracked : World :=
  mkWorld tree_clash (Some two_entries) [].

(** A manifest in the list format with one file linked at two places. *)
Definition flat_document : document :=
  Parsed (VDict [(VStr "entries",
                  VList [item "files/profile" ".profile" "symlink";
                         item "files/gitconfig" ".gitconfig" "copy";
                         item "files/profile" ".bash_profile" "symlink"])]).

Definition world_flat : World := mkWorld tree0 (Some flat_document) [].

Definition flat_manifest : Manifest :=
  mkManifest
    [mkEntry (Path_of_string "files/profile") (Path_of_string ".profile")
             (VStr "symlink") VNone;
     mkEntry (Path_of_string "files/gitconfig") (Path_of_string ".gitconfig")
             (VStr "copy") VNone;
     mkEntry (Path_of_string "files/profile") (Path_of_string ".bash_profile")
             (VStr "symlink") VNone]
    (Sync.files_yaml cfg0).

End MoreFixtures.

(** ** Trees that differ in the bytes of regular files only *)

Module Contents.

Definition same_kind (a b : option node) : Prop :=
  match a, b with
  | Some (File _ _), Some (File _ _) => True
  | _, _ => a = b
  end.

Definition same_shape (fs fs' : FS) : Prop :=
  forall k, same_kind (fs !! k) (fs' !! k).

End Contents.

(** ** [commands/sync.py]: the files part of status *)

Module Overview.
Section Overview.

Context {D : Status.DirCmp} (cfg : Sync.Config).

(** The loop of [status] over the entries of the platform: how many need
    attention. *)
Fixpoint count_issues (l : list Manifest.FileEntry) (issues : nat) : W nat :=
  match l with
  | [] => wret issues
  | entry :: l' =>
      let source_abs := under (Sync.dotfiles_path cfg) (Manifest.source entry) in
      let! there := look (fun fs => exists_ fs source_abs) in
      if negb there then count_issues l' (S issues)
      else
        let! status :=
          on_tree (Status.check (Sync.home cfg) (Sync.is_symlink_type entry)
                                source_abs (Manifest.dest entry)) in
        count_issues l' (if String.eqb status "ok" then issues else S issues)
  end.

(** The part of [status] on the files, without what it prints on the git
    branch and on the numbers of entries: the number it reports, [0] for
    "All files in sync". *)
Definition issues : W nat :=
  let! manifest := Sync.load_manifest cfg in
  count_issues (Manifest.for_platform (Sync.platform cfg) manifest) 0.

(** An entry [status] finds nothing wrong with: its source exists and
    [check] answers ["ok"]. *)
Definition in_sync (fs : FS) (entry : Manifest.FileEntry) : Prop :=
  exists_ fs (Conditions.source_abs cfg entry) = true /\
  fst (Status.check (Sync.home cfg) (Sync.is_symlink_type entry)
                    (Conditions.source_abs cfg entry) (Manifest.dest entry) fs)
  = Ret "ok".

(** A symlink entry, or a copy entry whose source is a regular file. *)
Definition settled (fs : FS) (entry : Manifest.FileEntry) : bool :=
  Sync.is_symlink_type entry || is_file fs (Conditions.source_abs cfg entry).

(** The line of [apply] for an entry in sync. *)
Definition sync_line (fs : FS) (entry : Manifest.FileEntry) : line :=
  if settled fs entry then dim_already_ok (Manifest.dest entry)
  else warn_exists (Manifest.dest entry).

End Overview.
End Overview.

(** ** Where [add] puts a file *)

Module Places.

(** [str(dest).startswith(".")]. *)
Definition hidden (dest : Path) : bool := String.prefix "." (str dest).

End Places.

(** ** Links under way, and paths without [".."] *)

Module Nesting.

(** At most [n] links of [fs] are outside [seen]. *)
Definition links_within (fs : FS) (seen : list apath) (n : nat) : Prop :=
  exists L : list apath,
    NoDup L /\ length L <= n /\
    forall x t, fs !! x = Some (Link t) -> x ∉ seen -> x ∈ L.

(** [seen'] is [seen] up to the path [k]. *)
Definition seen_rel (k : apath) (seen seen' : list apath) : Prop :=
  forall x, x <> k -> (x ∈ seen' <-> x ∈ seen).

(** No name of the path is [".."]. *)
Definition no_dotdot (p : apath) : Prop := Forall (fun c => c <> "..") p.

End Nesting.

(** ** Text within ASCII *)

Module Letters.

(** [s.isascii()]: every character is below 128.  On such text [lower]
    is [str.lower()]; outside it [str.lower()] also maps letters that
    [lower] leaves alone. *)
Definition isascii (s : string) : bool :=
  forallb (fun a => (nat_of_ascii a <? 128)%nat) (list_ascii_of_string s).

(** A path all of whose names are ASCII text. *)
Definition ascii_path (p : Path) : bool := forallb isascii (names p).

End Letters.

(** * Facts about path resolution *)

Module FsFacts.
Import Resolution.

Lemma unsnoc_snoc (q : apath) (c : string) : unsnoc (q ++ [c]) = Some (q, c).
Proof.
  induction q as [|a q IH]; simpl; [reflexivity|].
  now rewrite IH.
Qed.

Lemma unsnoc_Some (p q : apath) (c : string) :
  unsnoc p = Some (q, c) -> p = q ++ [c].
Proof.
  revert q. induction p as [|a p IH]; intros q H; simpl in H; [discriminate|].
  destruct (unsnoc p) as [[q' l]|] eqn:E.
  - injection H as <- <-. simpl. f_equal. now apply IH.
  - injection H as <- <-. destruct p; [reflexivity|].
    simpl in E. destruct (unsnoc p) as [[? ?]|]; discriminate.
Qed.

Lemma unsnoc_None (p : apath) : unsnoc p = None -> p = [].
Proof.
  destruct p as [|a p]; [reflexivity|]. simpl.
  destruct (unsnoc p) as [[? ?]|]; discriminate.
Qed.

Lemma parent_snoc (q : apath) (c : string) : parent (q ++ [c]) = q.
Proof. apply removelast_last. Qed.

Lemma after_Found (st s : wstatus) :
  after st s = Found -> st = Found /\ s = Found.
Proof. destruct st; simpl; intros H; try discriminate; auto. Qed.

Lemma after_Creatable (st s : wstatus) :
  after st s = Creatable -> st = Found /\ s = Creatable.
Proof. destruct st; simpl; intros H; try discriminate; auto. Qed.

Lemma child_Some fs cur c n :
  child fs cur c = Some n -> is_dir_at fs cur = true /\ fs !! (cur ++ [c]) = Some n.
Proof. unfold child. destruct (is_dir_at fs cur); [auto | discriminate]. Qed.

Lemma child_None fs cur c :
  child fs cur c = None -> is_dir_at fs cur = true -> fs !! (cur ++ [c]) = None.
Proof. unfold child. intros H D. now rewrite D in H. Qed.

Lemma snoc_not_nil (p : apath) (c : string) : p ++ [c] <> [].
Proof. destruct p; discriminate. Qed.

Lemma node_at_snoc fs (p : apath) (c : string) :
  node_at fs (p ++ [c]) = fs !! (p ++ [c]).
Proof. destruct p; reflexivity. Qed.

(** A tree that only gained entries keeps its nodes. *)
Lemma node_at_weaken (fs fs' : FS) p n :
  fs ⊆ fs' -> node_at fs p = Some n -> node_at fs' p = Some n.
Proof.
  intros Hsub. destruct p; simpl; [auto|]. intros H.
  eapply lookup_weaken; eauto.
Qed.

Lemma is_dir_at_weaken (fs fs' : FS) p :
  fs ⊆ fs' -> is_dir_at fs p = true -> is_dir_at fs' p = true.
Proof.
  intros Hsub. unfold is_dir_at.
  destruct (node_at fs p) as [[| |]|] eqn:E; try discriminate.
  now rewrite (node_at_weaken _ _ _ _ Hsub E).
Qed.

Lemma child_weaken (fs fs' : FS) cur c n :
  fs ⊆ fs' -> child fs cur c = Some n -> child fs' cur c = Some n.
Proof.
  intros Hsub [D L]%child_Some. unfold child.
  rewrite (is_dir_at_weaken _ _ _ Hsub D).
  eapply lookup_weaken; eauto.
Qed.

Section Walk.

Variable follow : list apath -> apath -> Path -> apath * wstatus.
Variable fs : FS.

(** The status only gets worse along a path. *)
Lemma walkc_Found seen todo :
  forall cur st p,
    walkc follow fs seen cur st todo = (p, Found) -> st = Found.
Proof.
  induction todo as [|c rest IH]; intros cur st p H; simpl in H.
  - congruence.
  - repeat case_match; apply IH in H; now apply after_Found in H.
Qed.

Lemma walkc_Creatable seen todo :
  forall cur st p,
    walkc follow fs seen cur st todo = (p, Creatable) ->
    st = Found \/ (st = Creatable /\ todo = [] /\ p = cur).
Proof.
  induction todo as [|c rest IH]; intros cur st p H; simpl in H.
  - injection H as <- <-. auto.
  - left.
    repeat case_match; apply IH in H;
      (destruct H as [H | (H & _ & _)];
       [now apply after_Found in H | now apply after_Creatable in H]).
Qed.

Lemma walkc_app seen t1 t2 :
  forall cur st,
    walkc follow fs seen cur st (t1 ++ t2) =
    let '(p, s) := walkc follow fs seen cur st t1 in
    walkc follow fs seen p s t2.
Proof.
  induction t1 as [|c rest IH]; intros cur st; simpl; [reflexivity|].
  destruct (decide (c = "..")); [apply IH|].
  destruct (child fs cur c) as [[| |t]|]; try apply IH.
  destruct (decide (cur ++ [c] ∈ seen)); [apply IH|].
  destruct (follow _ _ t). apply IH.
Qed.

End Walk.

Lemma compat_nil fs : compat fs [] [].
Proof. intros x Hx. now apply elem_of_nil in Hx. Qed.

Lemma compat_cons fs seen seen' x :
  compat fs seen seen' -> compat fs (x :: seen) (x :: seen').
Proof.
  intros H y [->|Hy]%elem_of_cons.
  - left. apply elem_of_cons. now left.
  - destruct (H y Hy); [left | now right]. apply elem_of_cons. now right.
Qed.

Lemma compat_fresh fs seen seen' x n :
  compat fs seen seen' -> x ∉ seen -> fs !! x = Some n -> x ∉ seen'.
Proof. intros H Hx Hn Hin. destruct (H x Hin); congruence. Qed.

(** A resolution that found every name finds the same in a larger tree,
    with more fuel and fewer links in progress. *)
Section Mono.

Variables follow1 follow2 : list apath -> apath -> Path -> apath * wstatus.
Variables fs fs' : FS.
Hypothesis Hsub : fs ⊆ fs'.
Hypothesis Hfollow :
  forall seen seen' base t r,
    compat fs seen seen' ->
    follow1 seen base t = (r, Found) -> follow2 seen' base t = (r, Found).

Lemma walkc_mono todo :
  forall seen seen' cur r,
    compat fs seen seen' ->
    walkc follow1 fs seen cur Found todo = (r, Found) ->
    walkc follow2 fs' seen' cur Found todo = (r, Found).
Proof.
  induction todo as [|c rest IH]; intros seen seen' cur r Hc H; simpl in *;
    [assumption|].
  destruct (decide (c = "..")).
  - destruct (is_dir_at fs cur) eqn:D.
    + rewrite (is_dir_at_weaken _ _ _ Hsub D). eauto.
    + apply walkc_Found in H. discriminate.
  - destruct (child fs cur c) as [n0|] eqn:Ch.
    + rewrite (child_weaken _ _ _ _ _ Hsub Ch).
      destruct n0 as [m b| |t]; eauto.
      destruct (decide (cur ++ [c] ∈ seen)).
      { apply walkc_Found in H. discriminate. }
      destruct (follow1 ((cur ++ [c]) :: seen) _ t) as [p s] eqn:F.
      assert (s = Found) as -> by (apply walkc_Found in H; exact H).
      apply child_Some in Ch as [_ Ch].
      destruct (decide (cur ++ [c] ∈ seen')) as [Hin|_].
      { exfalso. eapply compat_fresh; eauto. }
      erewrite Hfollow; eauto using compat_cons.
    + apply walkc_Found in H. destruct (is_dir_at fs cur); discriminate.
Qed.

End Mono.

Lemma realpath_eq d fs seen cur todo :
  realpath d fs seen cur todo = walkc (follow_of d fs) fs seen cur Found todo.
Proof. destruct d; reflexivity. Qed.

Lemma realpath_mono (fs fs' : FS) :
  fs ⊆ fs' ->
  forall d d' seen seen' cur todo r,
    d <= d' -> compat fs seen seen' ->
    realpath d fs seen cur todo = (r, Found) ->
    realpath d' fs' seen' cur todo = (r, Found).
Proof.
  intros Hsub. induction d as [|d IH]; intros d' seen seen' cur todo r Hd Hc H;
    rewrite realpath_eq in *.
  - eapply walkc_mono; eauto. intros ? ? ? ? ? _ F. simpl in F. discriminate.
  - destruct d' as [|d']; [lia|].
    eapply walkc_mono; eauto.
    intros s1 s2 base t r' Hc' F. simpl in *.
    eapply (IH d' s1 s2); [lia | exact Hc' | exact F].
Qed.

Section Create.

Variables follow1 follow2 : list apath -> apath -> Path -> apath * wstatus.
Variable fs : FS.
Variable c0 : apath.
Variable n : node.
Hypothesis Hn : not_link n.
Let fs' : FS := <[c0 := n]> fs.
Hypothesis HfollowF :
  forall seen seen' base t r,
    fs ⊆ fs' -> compat fs seen seen' ->
    follow1 seen base t = (r, Found) -> follow2 seen' base t = (r, Found).
Hypothesis HfollowC :
  forall seen seen' base t r,
    compat fs seen seen' ->
    follow1 seen base t = (r, Creatable) ->
    fs !! r = None /\ r <> [] /\
    (r = c0 -> follow2 seen' base t = (c0, Found)).

Lemma walkc_create todo :
  forall seen seen' cur r,
    compat fs seen seen' ->
    walkc follow1 fs seen cur Found todo = (r, Creatable) ->
    fs !! r = None /\ r <> [] /\
    (r = c0 -> walkc follow2 fs' seen' cur Found todo = (c0, Found)).
Proof.
  induction todo as [|c rest IH]; intros seen seen' cur r Hc H; simpl in *;
    [discriminate|].
  destruct (decide (c = "..")) as [Hdots|Hdots].
  - destruct (is_dir_at fs cur) eqn:D.
    + destruct (IH _ seen' _ _ Hc H) as (Hr & Hne & Hw).
      repeat split; auto. intros ->.
      assert (fs ⊆ fs') as Hsub by (now apply insert_subseteq).
      rewrite (is_dir_at_weaken _ _ _ Hsub D). auto.
    + apply walkc_Creatable in H as [H | (H & _)]; discriminate.
  - destruct (child fs cur c) as [n0|] eqn:Ch.
    + destruct n0 as [m b| |t].
      1,2: (destruct (IH _ seen' _ _ Hc H) as (Hr & Hne & Hw);
            repeat split; auto; intros ->;
            assert (fs ⊆ fs') as Hsub by (now apply insert_subseteq);
            rewrite (child_weaken _ _ _ _ _ Hsub Ch); auto).
      destruct (decide (cur ++ [c] ∈ seen)) as [Hseen|Hseen].
      { apply walkc_Creatable in H as [H | (H & _)]; discriminate. }
      destruct (follow1 ((cur ++ [c]) :: seen) _ t) as [p s] eqn:F.
      pose proof Ch as [_ Ch']%child_Some.
      pose proof (walkc_Creatable _ _ _ _ _ _ _ H) as [Hs | (Hs & -> & ->)];
        simpl in Hs; subst s; simpl in H.
      * destruct (IH _ seen' _ _ Hc H) as (Hr & Hne & Hw).
        repeat split; auto. intros ->.
        assert (fs ⊆ fs') as Hsub by (now apply insert_subseteq).
        rewrite (child_weaken _ _ _ _ _ Hsub Ch).
        destruct (decide (cur ++ [c] ∈ seen')) as [Hin|_].
        { exfalso. eapply compat_fresh; eauto. }
        erewrite HfollowF; eauto using compat_cons.
      * destruct (HfollowC _ ((cur ++ [c]) :: seen') _ _ _
                    (compat_cons _ _ _ _ Hc) F) as (Hr & Hne & Hw).
        repeat split; auto. intros ->.
        assert (fs ⊆ fs') as Hsub by (now apply insert_subseteq).
        rewrite (child_weaken _ _ _ _ _ Hsub Ch).
        destruct (decide (cur ++ [c] ∈ seen')) as [Hin|_].
        { exfalso. eapply compat_fresh; eauto. }
        rewrite Hw by reflexivity. reflexivity.
    + destruct (is_dir_at fs cur) eqn:D.
      * apply walkc_Creatable in H as [H | (_ & -> & ->)]; [discriminate|].
        pose proof (child_None _ _ _ Ch D) as Hr.
        repeat split; auto using snoc_not_nil. intros <-.
        assert (fs ⊆ fs') as Hsub by (now apply insert_subseteq).
        unfold child. rewrite (is_dir_at_weaken _ _ _ Hsub D).
        unfold fs'. rewrite lookup_insert_eq.
        destruct n; simpl in Hn; try contradiction; reflexivity.
      * apply walkc_Creatable in H as [H | (H & _)]; discriminate.
Qed.

End Create.

Lemma realpath_create (fs : FS) :
  forall d seen cur todo r,
    realpath d fs seen cur todo = (r, Creatable) ->
    fs !! r = None /\ r <> [] /\
    forall n d' seen',
      not_link n -> d <= d' -> compat fs seen seen' ->
      realpath d' (<[r := n]> fs) seen' cur todo = (r, Found).
Proof.
  induction d as [|d IH]; intros seen cur todo r H; rewrite realpath_eq in H.
  - assert (forall n d' seen', not_link n -> compat fs seen seen' ->
              fs !! r = None /\ r <> [] /\
              (r = r -> walkc (follow_of d' (<[r := n]> fs)) (<[r := n]> fs)
                              seen' cur Found todo = (r, Found))) as Hw.
    { intros n d' seen' Hn Hc.
      eapply (walkc_create (follow_of 0 fs) _ fs r n Hn); [| |exact Hc|exact H].
      - intros ? ? ? ? ? _ _ F. simpl in F. discriminate.
      - intros ? ? ? ? ? _ F. simpl in F. discriminate. }
    destruct (Hw Dir 0 seen I (fun x Hx => or_introl Hx)) as (Hr & Hne & _).
    repeat split; auto. intros n d' seen' Hn _ Hc.
    rewrite realpath_eq. now apply (Hw n d' seen' Hn Hc).
  - assert (forall n d' seen', not_link n -> S d <= d' -> compat fs seen seen' ->
              fs !! r = None /\ r <> [] /\
              (r = r -> walkc (follow_of d' (<[r := n]> fs)) (<[r := n]> fs)
                              seen' cur Found todo = (r, Found))) as Hw.
    { intros n d' seen' Hn Hd Hc. destruct d' as [|d']; [lia|].
      eapply (walkc_create (follow_of (S d) fs) _ fs r n Hn);
        [| |exact Hc|exact H].
      - intros s1 s2 base t r' Hsub Hc' F. simpl in *.
        eapply (realpath_mono fs _ Hsub d d' s1 s2); [lia | exact Hc' | exact F].
      - intros s1 s2 base t r' Hc' F. simpl in *.
        destruct (IH _ _ _ _ F) as (Hr & Hne & Hn').
        repeat split; auto. intros ->. apply Hn'; [exact Hn | lia | exact Hc']. }
    destruct (Hw Dir (S d) seen I (le_n _) (fun x Hx => or_introl Hx))
      as (Hr & Hne & _).
    repeat split; auto. intros n d' seen' Hn Hd Hc.
    rewrite realpath_eq. now apply (Hw n d' seen' Hn Hd Hc).
Qed.

Lemma depth_mono (fs fs' : FS) : fs ⊆ fs' -> depth fs <= depth fs'.
Proof. intros H. unfold depth. apply le_n_S. now apply map_subseteq_size. Qed.

Lemma canon_weaken (fs fs' : FS) p r :
  fs ⊆ fs' -> canon fs p = (r, Found) -> canon fs' p = (r, Found).
Proof.
  intros Hsub H. unfold canon in *.
  eapply (realpath_mono fs fs' Hsub (depth fs) (depth fs') [] []);
    [now apply depth_mono | apply compat_nil | exact H].
Qed.

Lemma stat_weaken (fs fs' : FS) p n :
  fs ⊆ fs' -> stat fs p = Some n -> stat fs' p = Some n.
Proof.
  intros Hsub. unfold stat.
  destruct (canon fs p) as [c st] eqn:E. destruct st; try discriminate.
  rewrite (canon_weaken _ _ _ _ Hsub E). now apply node_at_weaken.
Qed.

Lemma canon_create (fs : FS) p r n :
  not_link n -> canon fs p = (r, Creatable) ->
  fs !! r = None /\ r <> [] /\ canon (<[r := n]> fs) p = (r, Found).
Proof.
  intros Hn H. unfold canon in *.
  destruct (realpath_create _ _ _ _ _ _ H) as (Hr & Hne & Hw).
  repeat split; auto.
  apply Hw; [exact Hn | | apply compat_nil].
  apply depth_mono. now apply insert_subseteq.
Qed.

Lemma canon_nil (fs : FS) : canon fs [] = ([], Found).
Proof. unfold canon. now rewrite realpath_eq. Qed.

Lemma canon_snoc (fs : FS) q c :
  canon fs (q ++ [c]) =
  let '(cq, st) := canon fs q in
  walkc (follow_of (depth fs) fs) fs [] cq st [c].
Proof. unfold canon. rewrite !realpath_eq. apply walkc_app. Qed.

(** What the last step of a resolution says about the directory the path
    lies in. *)
Lemma canon_snoc_Found (fs : FS) q c r :
  canon fs (q ++ [c]) = (r, Found) ->
  exists cq, canon fs q = (cq, Found) /\ is_dir_at fs cq = true /\
             (c <> ".." -> exists n, child fs cq c = Some n).
Proof.
  rewrite canon_snoc. destruct (canon fs q) as [cq st]. simpl.
  destruct (decide (c = "..")) as [Hd|Hd].
  - intros H. injection H as _ H. apply after_Found in H as [-> H].
    destruct (is_dir_at fs cq) eqn:D; [|discriminate].
    exists cq. repeat split; auto. intros; contradiction.
  - destruct (child fs cq c) as [n0|] eqn:Ch.
    + pose proof Ch as [D _]%child_Some. intros H.
      assert (st = Found) as ->.
      { destruct n0 as [| |t]; repeat case_match;
          injection H as _ H; now apply after_Found in H. }
      exists cq. eauto.
    + intros H. injection H as _ H. apply after_Found in H as [_ H].
      destruct (is_dir_at fs cq); discriminate.
Qed.

Lemma is_dir_nil (fs : FS) : is_dir fs [] = true.
Proof. unfold is_dir, stat. now rewrite canon_nil. Qed.

Lemma is_dir_canon (fs : FS) q cq :
  canon fs q = (cq, Found) -> is_dir_at fs cq = true -> is_dir fs q = true.
Proof.
  intros E D. unfold is_dir, stat. rewrite E.
  unfold is_dir_at in D. now destruct (node_at fs cq) as [[| |]|].
Qed.

(** A path that leads somewhere lies in a directory, and is in the way of
    [mkdir]. *)
Lemma stat_parent_dir (fs : FS) p n :
  stat fs p = Some n ->
  is_dir fs (parent p) = true /\ snd (locate fs p) = Found.
Proof.
  unfold stat, locate. destruct (unsnoc p) as [[q c]|] eqn:U.
  - apply unsnoc_Some in U as ->. rewrite parent_snoc.
    destruct (canon fs (q ++ [c])) as [r st] eqn:E.
    destruct st; try discriminate. intros _.
    apply canon_snoc_Found in E as (cq & Eq & D & Hc).
    split; [exact (is_dir_canon _ _ _ Eq D)|].
    rewrite Eq. destruct (decide (c = "..")); simpl; [now rewrite D|].
    destruct (Hc n0) as [n1 ->]. reflexivity.
  - apply unsnoc_None in U as ->. intros _. split; [apply is_dir_nil | reflexivity].
Qed.

Lemma lstat_parent_dir (fs : FS) p n :
  lstat fs p = Some n -> is_dir fs (parent p) = true.
Proof.
  unfold lstat, locate. destruct (unsnoc p) as [[q c]|] eqn:U.
  - apply unsnoc_Some in U as ->. rewrite parent_snoc.
    destruct (canon fs q) as [cq st] eqn:Eq.
    destruct (decide (c = "..")).
    + destruct (after st _) eqn:A; try discriminate. intros _.
      apply after_Found in A as [-> A].
      destruct (is_dir_at fs cq) eqn:D; [|discriminate].
      exact (is_dir_canon _ _ _ Eq D).
    + destruct (after st _) eqn:A; try discriminate. intros _.
      apply after_Found in A as [-> A].
      destruct (child fs cq c) as [n1|] eqn:Ch.
      * apply child_Some in Ch as [D _]. exact (is_dir_canon _ _ _ Eq D).
      * destruct (is_dir_at fs cq); discriminate.
  - apply unsnoc_None in U as ->. intros _. apply is_dir_nil.
Qed.

Lemma present_parent_dir (fs : FS) p :
  exists_ fs p || is_symlink fs p = true -> is_dir fs (parent p) = true.
Proof.
  unfold exists_, is_symlink. intros H.
  destruct (stat fs p) as [n|] eqn:S; [now apply stat_parent_dir in S|].
  destruct (lstat fs p) as [n|] eqn:L; [now apply lstat_parent_dir in L|].
  discriminate.
Qed.

Lemma is_dir_locate (fs : FS) p : is_dir fs p = true -> snd (locate fs p) = Found.
Proof.
  unfold is_dir. destruct (stat fs p) as [n|] eqn:S; [|discriminate].
  intros _. now apply stat_parent_dir in S.
Qed.

Lemma mkdir_rec_eq (rp : list string) (fs : FS) :
  mkdir_rec rp fs =
  match os_mkdir (rev rp) fs with
  | (Raise FileNotFoundError, _) =>
      match rp with
      | [] => (Raise FileNotFoundError, fs)
      | _ :: rq => (run! mkdir_rec rq in mkdir_exist_ok (rev rp)) fs
      end
  | (Raise e, _) => if is_dir fs (rev rp) then (Ret tt, fs) else (Raise e, fs)
  | r => r
  end.
Proof. destruct rp; reflexivity. Qed.

(** [mkdir(parents=True, exist_ok=True)] leaves an existing directory
    alone. *)
Lemma mkdir_parents_noop (fs : FS) p :
  is_dir fs p = true -> mkdir_parents p fs = (Ret tt, fs).
Proof.
  intros D. pose proof (is_dir_locate _ _ D) as L.
  unfold mkdir_parents.
  assert (os_mkdir p fs = (Raise FileExistsError, fs)) as E.
  { unfold os_mkdir. destruct (locate fs p) as [k st]. simpl in L. now subst. }
  now rewrite mkdir_rec_eq, rev_involutive, E, D.
Qed.

Lemma locate_Creatable (fs : FS) p k :
  locate fs p = (k, Creatable) ->
  canon fs p = (k, Creatable) /\ is_dir fs (parent p) = true.
Proof.
  unfold locate. destruct (unsnoc p) as [[q c]|] eqn:U; [|discriminate].
  apply unsnoc_Some in U as ->. rewrite canon_snoc, parent_snoc.
  destruct (canon fs q) as [cq st] eqn:Eq. simpl.
  destruct (decide (c = "..")).
  - intros H. injection H as _ H. apply after_Creatable in H as [_ H].
    destruct (is_dir_at fs cq); discriminate.
  - intros H. injection H as <- H. apply after_Creatable in H as [-> H].
    destruct (child fs cq c) as [n1|] eqn:Ch; [discriminate|].
    destruct (is_dir_at fs cq) eqn:D; [|discriminate].
    split; [reflexivity | exact (is_dir_canon _ _ _ Eq D)].
Qed.

Lemma stat_created (fs : FS) p k n :
  not_link n -> canon fs p = (k, Creatable) ->
  fs ⊆ <[k := n]> fs /\ stat (<[k := n]> fs) p = Some n.
Proof.
  intros Hn E. destruct (canon_create _ _ _ n Hn E) as (Hk & Hne & E').
  split; [now apply insert_subseteq|].
  unfold stat. rewrite E'. destruct k; [contradiction|].
  simpl. apply lookup_insert_eq.
Qed.

Lemma os_mkdir_Ret (fs fs' : FS) p :
  os_mkdir p fs = (Ret tt, fs') -> fs ⊆ fs' /\ is_dir fs' p = true.
Proof.
  unfold os_mkdir. destruct (locate fs p) as [k st] eqn:L.
  destruct st; try discriminate. intros H. injection H as <-.
  apply locate_Creatable in L as [E _].
  destruct (stat_created fs p k Dir I E) as [Hsub S].
  split; [exact Hsub|]. unfold is_dir. now rewrite S.
Qed.

Lemma os_mkdir_Raise (fs fs' : FS) p e :
  os_mkdir p fs = (Raise e, fs') -> fs' = fs.
Proof.
  unfold os_mkdir. destruct (locate fs p) as [k st].
  destruct st; intros H; now injection H.
Qed.

Lemma mkdir_exist_ok_Ret (fs fs' : FS) p :
  mkdir_exist_ok p fs = (Ret tt, fs') -> fs ⊆ fs' /\ is_dir fs' p = true.
Proof.
  unfold mkdir_exist_ok. destruct (os_mkdir p fs) as [[[]|e] fs1] eqn:E.
  - intros H. injection H as <-. now apply os_mkdir_Ret.
  - destruct (is_dir fs p) eqn:D; destruct e; intros H; try discriminate;
      injection H as <-; auto.
Qed.

Lemma mkdir_exist_ok_extends (fs fs' : FS) p r :
  mkdir_exist_ok p fs = (r, fs') -> fs ⊆ fs'.
Proof.
  unfold mkdir_exist_ok. destruct (os_mkdir p fs) as [[[]|e] fs1] eqn:E.
  - intros H. injection H as _ <-. now apply os_mkdir_Ret in E.
  - destruct (is_dir fs p); destruct e; intros H; injection H as _ <-; auto.
Qed.

Lemma mkdir_rec_extends (rp : list string) :
  forall (fs fs' : FS) r, mkdir_rec rp fs = (r, fs') -> fs ⊆ fs'.
Proof.
  induction rp as [|c rq IH]; intros fs fs' r; simpl.
  - destruct (os_mkdir [] fs) as [[[]|e] fs1] eqn:E.
    + intros H. injection H as _ <-. now apply os_mkdir_Ret in E.
    + destruct (is_dir fs []); destruct e; intros H; injection H as _ <-; auto.
  - destruct (os_mkdir (rev rq ++ [c]) fs) as [[[]|e] fs1] eqn:E.
    + intros H. injection H as _ <-. now apply os_mkdir_Ret in E.
    + assert (e = FileNotFoundError \/ e <> FileNotFoundError) as [->|Hne]
        by (destruct e; auto; right; discriminate).
      * unfold bind. destruct (mkdir_rec rq fs) as [[[]|e'] fs2] eqn:R.
        -- intros H. apply mkdir_exist_ok_extends in H.
           etransitivity; [eapply IH|]; eauto.
        -- intros H. injection H as _ <-. eauto.
      * destruct (is_dir fs (rev rq ++ [c])); destruct e; try contradiction;
          intros H; injection H as _ <-; auto.
Qed.

Lemma is_dir_weaken (fs fs' : FS) p :
  fs ⊆ fs' -> is_dir fs p = true -> is_dir fs' p = true.
Proof.
  intros Hsub. unfold is_dir.
  destruct (stat fs p) as [[| |]|] eqn:E; try discriminate.
  now rewrite (stat_weaken _ _ _ _ Hsub E).
Qed.

Lemma locate_Creatable_inv (fs : FS) p k :
  locate fs p = (k, Creatable) ->
  exists q c cq,
    p = q ++ [c] /\ c <> ".." /\ canon fs q = (cq, Found) /\
    is_dir_at fs cq = true /\ k = cq ++ [c] /\ fs !! k = None.
Proof.
  unfold locate. destruct (unsnoc p) as [[q c]|] eqn:U; [|discriminate].
  apply unsnoc_Some in U as ->.
  destruct (canon fs q) as [cq st] eqn:Eq.
  destruct (decide (c = "..")) as [Hd|Hd].
  - intros H. injection H as _ H. apply after_Creatable in H as [_ H].
    destruct (is_dir_at fs cq); discriminate.
  - intros H. injection H as <- H. apply after_Creatable in H as [-> H].
    destruct (child fs cq c) as [n1|] eqn:Ch; [discriminate|].
    destruct (is_dir_at fs cq) eqn:D; [|discriminate].
    exists q, c, cq. repeat split; auto. now apply child_None.
Qed.

(** A link made to an existing source resolves to what the source
    resolves to. *)
Lemma symlink_to_points (fs0 fs fs1 : FS) d src :
  fs0 ⊆ fs -> exists_ fs0 src = true ->
  symlink_to d src fs = (Ret tt, fs1) ->
  fs ⊆ fs1 /\ is_dir fs1 (parent d) = true /\ is_symlink fs1 d = true /\
  fst (canon fs1 d) = fst (canon fs1 src).
Proof.
  intros Hsub0 Hsrc. unfold symlink_to.
  destruct (locate fs d) as [k st] eqn:L. destruct st; try discriminate.
  intros H. injection H as <-.
  apply locate_Creatable_inv in L as (q & c & cq & -> & Hc & Eq & D & -> & Hk).
  set (fs1 := <[cq ++ [c] := Link (absolute src)]> fs).
  assert (fs ⊆ fs1) as Hsub by (now apply insert_subseteq).
  pose proof (canon_weaken _ _ _ _ Hsub Eq) as Eq1.
  pose proof (is_dir_at_weaken _ _ _ Hsub D) as D1.
  assert (child fs1 cq c = Some (Link (absolute src))) as Ch1.
  { unfold child. rewrite D1. apply lookup_insert_eq. }
  assert (exists r, canon fs0 src = (r, Found)) as [r Es].
  { unfold exists_, stat in Hsrc. destruct (canon fs0 src) as [r st].
    destruct st; try discriminate. now exists r. }
  assert (fs0 ⊆ fs1) as Hsub01 by (etransitivity; eauto).
  split; [exact Hsub|]. rewrite parent_snoc.
  split; [exact (is_dir_canon _ _ _ Eq1 D1)|]. split.
  - unfold is_symlink, lstat, locate.
    rewrite unsnoc_snoc, Eq1. destruct (decide (c = "..")); [contradiction|].
    rewrite Ch1. simpl. rewrite node_at_snoc. unfold fs1.
    now rewrite lookup_insert_eq.
  - rewrite (canon_weaken _ _ _ _ Hsub01 Es).
    rewrite canon_snoc, Eq1. simpl.
    destruct (decide (c = "..")); [contradiction|]. rewrite Ch1.
    destruct (decide (cq ++ [c] ∈ [])) as [Hin|_]; [now apply elem_of_nil in Hin|].
    simpl.
    assert (realpath (size fs1) fs1 [cq ++ [c]] [] src = (r, Found)) as ->.
    { eapply (realpath_mono fs0 fs1 Hsub01 (depth fs0) (size fs1) []);
        [| |exact Es].
      - unfold depth, fs1. rewrite map_size_insert_None by exact Hk.
        apply le_n_S. now apply map_subseteq_size.
      - intros x [->|Hx]%elem_of_cons; [|now apply elem_of_nil in Hx].
        right. eapply lookup_weaken_None; eauto. }
    reflexivity.
Qed.

(** Writing where the last name was missing makes the path lead to the
    new file. *)
Lemma open_write_fresh (fs : FS) d c :
  exists_ fs d = false -> open_write fs d = Ret c -> canon fs d = (c, Creatable).
Proof.
  unfold exists_, stat, open_write.
  destruct (canon fs d) as [c' st]. destruct st; try discriminate.
  - destruct (node_at fs c') as [[| |]|]; discriminate.
  - intros _ H. now injection H as ->.
Qed.

Lemma copy2_fresh (fs fs2 : FS) src d m b :
  stat fs src = Some (File m b) -> exists_ fs d = false ->
  copy2 src d fs = (Ret tt, fs2) ->
  exists c, canon fs d = (c, Creatable) /\ fs2 = <[c := File m b]> fs.
Proof.
  intros Ss P. unfold copy2.
  assert (is_dir fs d = false) as ->.
  { unfold is_dir. unfold exists_ in P. now destruct (stat fs d). }
  destruct (samefile fs src d); [discriminate|].
  assert (open_read fs src = Ret (m, b)) as ->.
  { unfold open_read. unfold stat in Ss.
    destruct (canon fs src) as [c st]. destruct st; try discriminate.
    now rewrite Ss. }
  destruct (open_write fs d) as [c|e] eqn:Ow; [|discriminate].
  apply (open_write_fresh _ _ _ P) in Ow.
  intros H. injection H as <-. now exists c.
Qed.

Lemma chmod_created (fs : FS) d c m b mode :
  canon fs d = (c, Creatable) ->
  chmod d mode (<[c := File m b]> fs) = (Ret tt, <[c := File mode b]> fs).
Proof.
  intros E. destruct (canon_create _ _ _ (File m b) I E) as (_ & Hne & E').
  unfold chmod. rewrite E'. destruct c as [|a c]; [contradiction|].
  simpl. rewrite lookup_insert_eq. now rewrite insert_insert_eq.
Qed.

Lemma mkdir_parents_extends (fs fs' : FS) p r :
  mkdir_parents p fs = (r, fs') -> fs ⊆ fs'.
Proof. apply mkdir_rec_extends. Qed.

Lemma mkdir_parents_Ret (fs fs' : FS) p :
  mkdir_parents p fs = (Ret tt, fs') -> fs ⊆ fs' /\ is_dir fs' p = true.
Proof.
  intros H. split; [now apply mkdir_parents_extends in H|].
  unfold mkdir_parents in H. rewrite <- (rev_involutive p).
  destruct (rev p) as [|c rq]; simpl in *.
  - destruct (os_mkdir [] fs) as [[[]|e] fs1] eqn:E.
    + injection H as <-. now apply os_mkdir_Ret in E.
    + destruct (is_dir fs []) eqn:D; destruct e; try discriminate;
        injection H as <-; auto.
  - destruct (os_mkdir (rev rq ++ [c]) fs) as [[[]|e] fs1] eqn:E.
    + injection H as <-. now apply os_mkdir_Ret in E.
    + assert (e = FileNotFoundError \/ e <> FileNotFoundError) as [->|Hne]
        by (destruct e; auto; right; discriminate).
      * unfold bind in H. destruct (mkdir_rec rq fs) as [[[]|e'] fs2];
          [|discriminate].
        now apply mkdir_exist_ok_Ret in H.
      * destruct (is_dir fs (rev rq ++ [c])) eqn:D; destruct e;
          try contradiction; try discriminate; injection H as <-; auto.
Qed.

End FsFacts.

(** * The reconcilers *)

Module ReconcileFacts.
Import Resolution Conditions FsFacts.
Section ReconcileFacts.

Context {T : TreeOps} (home : apath).

Lemma points_to_spec (fs : FS) dest_abs source :
  Linker.points_to dest_abs source fs =
  (Ret (bool_decide (fst (canon fs dest_abs) = fst (canon fs source))), fs).
Proof. reflexivity. Qed.

Lemma filecmp_files (fs : FS) a b :
  is_file fs b && is_file fs a = true ->
  exists m1 m2 x y,
    stat fs a = Some (File m1 x) /\ stat fs b = Some (File m2 y) /\
    filecmp_cmp fs a b = Ret (bool_decide (x = y)).
Proof.
  unfold is_file, filecmp_cmp. intros H.
  destruct (stat fs a) as [[m1 x| |]|]; destruct (stat fs b) as [[m2 y| |]|];
    try discriminate.
  now exists m1, m2, x, y.
Qed.

(** ** C2: no silent clobber *)

(** C2.  When the destination is taken and does not already stand for
    the source, [create] without [force] answers [(False, "conflict")] and
    leaves the whole tree, the destination with it, as it was. *)
Theorem no_silent_clobber (link : bool) (source : apath) (dest : Path)
    (backup_dir : option apath) (fs : FS) :
  occupied link fs (under home dest) = true ->
  ~ settled link fs source (under home dest) ->
  Reconcile.create home link source dest false backup_dir fs
  = (Ret (false, "conflict"), fs).
Proof.
  intros Hocc Hns. destruct link; simpl in *.
  - unfold Linker.create_symlink, bind, ask.
    rewrite (mkdir_parents_noop _ _ (present_parent_dir _ _ Hocc)), Hocc.
    destruct (is_symlink fs (under home dest)) eqn:L; [|reflexivity].
    rewrite points_to_spec. case_bool_decide as Heq; [|reflexivity].
    exfalso. apply Hns. split; [reflexivity|]. unfold resolve. now rewrite Heq.
  - unfold Copier.copy_file, bind, ask.
    assert (exists_ fs (under home dest) || is_symlink fs (under home dest) = true)
      as Hp by (now rewrite Hocc).
    rewrite (mkdir_parents_noop _ _ (present_parent_dir _ _ Hp)), Hocc.
    destruct (is_file fs (under home dest) && is_file fs source) eqn:F;
      [|reflexivity].
    destruct (filecmp_files _ _ _ F) as (m1 & m2 & x & y & Sa & Sb & C).
    unfold lift. rewrite C. case_bool_decide as Heq; [|reflexivity].
    exfalso. apply Hns. subst y. now exists m2, m1, x.
Qed.

(** ** C1: a second run is a no-op *)

Lemma create_symlink_settled (source : apath) (dest : Path)
    (backup_dir : option apath) (fs : FS) :
  is_dir fs (parent (under home dest)) = true ->
  is_symlink fs (under home dest) = true ->
  fst (canon fs (under home dest)) = fst (canon fs source) ->
  Linker.create_symlink home source dest false backup_dir fs
  = (Ret (true, "ok"), fs).
Proof.
  intros D L E. unfold Linker.create_symlink, bind, ask.
  rewrite (mkdir_parents_noop _ _ D). cbv beta iota.
  rewrite L, orb_true_r. cbv beta iota.
  rewrite L, points_to_spec. now rewrite bool_decide_eq_true_2.
Qed.

Lemma create_symlink_twice (source : apath) (dest : Path)
    (backup_dir : option apath) (fs fs1 : FS) (st : string) :
  exists_ fs source = true ->
  Linker.create_symlink home source dest false backup_dir fs
  = (Ret (true, st), fs1) ->
  Linker.create_symlink home source dest false backup_dir fs1
  = (Ret (true, "ok"), fs1).
Proof.
  intros Hsrc H. unfold Linker.create_symlink, bind, ask in H.
  destruct (mkdir_parents _ fs) as [[[]|e] fs'] eqn:Mk; [|discriminate].
  apply mkdir_parents_Ret in Mk as [Hsub D]. cbv beta iota in H.
  destruct (exists_ fs' (under home dest) || is_symlink fs' (under home dest))
    eqn:P; cbv beta iota in H.
  - destruct (is_symlink fs' (under home dest)) eqn:L; [|discriminate].
    rewrite points_to_spec in H. case_bool_decide as Heq; [|discriminate].
    injection H as _ <-. now apply create_symlink_settled.
  - unfold ret in H.
    destruct (symlink_to _ source fs') as [[[]|e] fs2] eqn:Sy; [|discriminate].
    injection H as _ <-.
    destruct (symlink_to_points _ _ _ _ _ Hsub Hsrc Sy) as (_ & D2 & L2 & E2).
    now apply create_symlink_settled.
Qed.

Lemma copy_file_settled (source : apath) (dest : Path)
    (backup_dir : option apath) (fs : FS) m1 m2 b :
  stat fs (under home dest) = Some (File m1 b) ->
  stat fs source = Some (File m2 b) ->
  Copier.copy_file home source dest false backup_dir fs = (Ret (true, "ok"), fs).
Proof.
  intros Sd Ss. unfold Copier.copy_file, bind, ask, lift.
  destruct (stat_parent_dir _ _ _ Sd) as [D _].
  rewrite (mkdir_parents_noop _ _ D). cbv beta iota.
  unfold exists_, is_file, filecmp_cmp.
  repeat (first [rewrite Sd | rewrite Ss]; simpl).
  rewrite bool_decide_eq_true_2 by reflexivity. reflexivity.
Qed.

Lemma copy_file_twice (source : apath) (dest : Path)
    (backup_dir : option apath) (fs fs1 : FS) (st : string) :
  is_file fs source = true ->
  Copier.copy_file home source dest false backup_dir fs = (Ret (true, st), fs1) ->
  Copier.copy_file home source dest false backup_dir fs1 = (Ret (true, "ok"), fs1).
Proof.
  intros Hsrc H. unfold Copier.copy_file, bind, ask, lift in H.
  destruct (mkdir_parents _ fs) as [[[]|e] fs'] eqn:Mk; [|discriminate].
  apply mkdir_parents_Ret in Mk as [Hsub D]. cbv beta iota in H.
  assert (exists m b, stat fs source = Some (File m b)) as (m & b & Ss).
  { unfold is_file in Hsrc. destruct (stat fs source) as [[m b| |]|];
      try discriminate. now exists m, b. }
  pose proof (stat_weaken _ _ _ _ Hsub Ss) as Ss'.
  destruct (exists_ fs' (under home dest)) eqn:P; cbv beta iota in H.
  - destruct (is_file fs' (under home dest) && is_file fs' source) eqn:F;
      [|discriminate].
    destruct (filecmp_files _ _ _ F) as (m1 & m2 & x & y & Sa & Sb & C).
    rewrite C in H. case_bool_decide as Heq; [|discriminate].
    injection H as _ <-. subst y. eapply copy_file_settled; eauto.
  - simpl in H.
    assert (is_dir fs' source = false) as Ds
        by (unfold is_dir; now rewrite Ss').
    rewrite Ds in H.
    destruct (copy2 source _ fs') as [[[]|e] fs2] eqn:C2; [|discriminate].
    apply (copy2_fresh _ _ _ _ _ _ Ss' P) in C2 as (c & Ow & ->).
    assert (exists m', fs1 = <[c := File m' b]> fs') as [m' ->].
    { destruct (Copier._is_sensitive dest).
      - rewrite (chmod_created _ _ _ _ _ _ Ow) in H.
        injection H as _ <-. now exists 384%N.
      - injection H as _ <-. now exists m. }
    destruct (stat_created fs' _ c (File m' b) I Ow) as [Hsub3 Sd3].
    eapply copy_file_settled; eauto.
    eapply stat_weaken; [|exact Ss']. exact Hsub3.
Qed.

(** C1, amended.  For a symlink entry whose source exists, and for a
    copy entry whose source is a regular file: when [create] without
    [force] succeeded once, running it again on the resulting tree answers
    [(True, "ok")] and changes nothing. *)
Theorem create_twice_is_noop (link : bool) (source : apath) (dest : Path)
    (backup_dir : option apath) (fs fs1 : FS) (st : string) :
  (if link then exists_ fs source else is_file fs source) = true ->
  Reconcile.create home link source dest false backup_dir fs
  = (Ret (true, st), fs1) ->
  Reconcile.create home link source dest false backup_dir fs1
  = (Ret (true, "ok"), fs1).
Proof.
  destruct link; simpl.
  - apply create_symlink_twice.
  - apply copy_file_twice.
Qed.

End ReconcileFacts.
End ReconcileFacts.

(** * apply and collect *)

Module SyncFacts.
Import Resolution FsFacts.
Section SyncFacts.

Context {T : TreeOps} (cfg : Sync.Config).

Local Abbreviation source_abs := (Conditions.source_abs cfg).
Local Abbreviation dest_abs := (Conditions.dest_abs cfg).
Local Abbreviation dry_run_line := (Conditions.dry_run_line cfg).
Local Abbreviation reports := Conditions.reports.
Local Abbreviation collect_summary := Conditions.collect_summary.
Local Abbreviation skip_condition := (Conditions.skip_condition cfg).

Local Ltac one_line :=
  repeat split; auto; eexists; (split; [|reflexivity]); simpl; reflexivity.

Lemma apply_entry_dry (force : bool) (entry : Manifest.FileEntry)
    (c : Sync.Counts) (w : World) :
  exists c',
    Sync.apply_entry cfg force true None entry c w
    = (Ret c', mkWorld (tree w) (disk w)
                       (console w ++ [dry_run_line (tree w) entry])).
Proof.
  unfold Sync.apply_entry, wbind, look, say, wret, dry_run_line, source_abs.
  simpl. destruct (exists_ (tree w) _); simpl; eauto.
Qed.

Lemma apply_loop_dry (force : bool) (l : list Manifest.FileEntry) :
  forall (c : Sync.Counts) (w : World),
  exists c',
    Sync.apply_loop cfg force true None l c w
    = (Ret c', mkWorld (tree w) (disk w)
                       (console w ++ map (dry_run_line (tree w)) l)).
Proof.
  induction l as [|entry l IH]; intros c w; simpl.
  - exists c. unfold wret. rewrite app_nil_r. now destruct w.
  - unfold wbind. destruct (apply_entry_dry force entry c w) as [c1 ->].
    destruct (IH c1 (mkWorld (tree w) (disk w)
                             (console w ++ [dry_run_line (tree w) entry])))
      as [c2 ->].
    exists c2. simpl. now rewrite <- app_assoc.
Qed.

Lemma collect_entry_dry (entry : Manifest.FileEntry) (c : nat * nat) (w : World) :
  let '(r, w') := Sync.collect_entry cfg true entry c w in
  tree w' = tree w /\ disk w' = disk w /\
  match r with
  | Ret _ => exists l, reports entry l /\ console w' = console w ++ [l]
  | Raise _ => console w' = console w
  end.
Proof.
  destruct c as [collected skipped].
  unfold Sync.collect_entry, wbind, look, say, wret, on_tree, lift. simpl.
  destruct (exists_ (tree w) _); simpl; [|one_line].
  destruct (is_symlink (tree w) _); simpl; [one_line|].
  destruct (exists_ (tree w) _ && negb (is_dir (tree w) _)); simpl;
    [|one_line].
  destruct (read_bytes (tree w) _); simpl; [|auto].
  destruct (read_bytes (tree w) _); simpl; [|auto].
  destruct (String.eqb _ _); simpl; one_line.
Qed.

Lemma collect_loop_dry (l : list Manifest.FileEntry) :
  forall (c : nat * nat) (w : World),
    let '(r, w') := Sync.collect_loop cfg true l c w in
    tree w' = tree w /\ disk w' = disk w /\
    match r with
    | Ret _ =>
        exists lines, Forall2 reports l lines /\ console w' = console w ++ lines
    | Raise _ => True
    end.
Proof.
  induction l as [|entry l IH]; intros c w; simpl.
  - repeat split; auto. exists []. split; [constructor|]. now rewrite app_nil_r.
  - unfold wbind. pose proof (collect_entry_dry entry c w) as E.
    destruct (Sync.collect_entry cfg true entry c w) as [[c1|e] w1].
    + destruct E as (Et & Ed & l1 & R1 & Ec).
      specialize (IH c1 w1).
      destruct (Sync.collect_loop cfg true l c1 w1) as [[c2|e] w2].
      * destruct IH as (It & Id & lines & Rs & Ic).
        repeat split; try congruence.
        exists (l1 :: lines). split; [now constructor|].
        rewrite Ic, Ec, <- app_assoc. reflexivity.
      * destruct IH as (It & Id & _). repeat split; congruence.
    + destruct E as (Et & Ed & _). auto.
Qed.

Lemma apply_dry_eq (force : bool) (w : World) m e0 l0 :
  Manifest.load (Sync.files_yaml cfg) (disk w) = Ret m ->
  Manifest.entries m = e0 :: l0 ->
  Sync.apply cfg force true w
  = (Ret tt,
     mkWorld (tree w) (disk w)
             (console w ++ header "Applying files"
                :: map (dry_run_line (tree w))
                       (Manifest.for_platform (Sync.platform cfg) m))).
Proof.
  intros L En. unfold Sync.apply, Sync.load_manifest.
  unfold wbind at 1. rewrite L, En.
  unfold wbind at 1. unfold say at 1.
  rewrite andb_false_r. unfold wbind at 1. unfold wret at 1.
  unfold wbind at 1.
  destruct (apply_loop_dry force (Manifest.for_platform (Sync.platform cfg) m)
              (Sync.mkCounts 0 0 0)
              (mkWorld (tree w) (disk w) (console w ++ [header "Applying files"])))
    as [c1 E].
  rewrite E. cbn. now rewrite <- app_assoc.
Qed.

(** A manifest that does not load ends [apply] at once. *)
Lemma apply_load_raise (force dry_run : bool) (w : World) e :
  Manifest.load (Sync.files_yaml cfg) (disk w) = Raise e ->
  Sync.apply cfg force dry_run w = (Raise e, w).
Proof.
  intros L. unfold Sync.apply, Sync.load_manifest. unfold wbind at 1.
  now rewrite L.
Qed.

Lemma apply_no_entries (force dry_run : bool) (w : World) m :
  Manifest.load (Sync.files_yaml cfg) (disk w) = Ret m ->
  Manifest.entries m = [] ->
  Sync.apply cfg force dry_run w = say warn_no_files w.
Proof.
  intros L En. unfold Sync.apply, Sync.load_manifest. unfold wbind at 1.
  now rewrite L, En.
Qed.

Lemma apply_dry_frame (force : bool) (w : World) :
  tree (snd (Sync.apply cfg force true w)) = tree w /\
  disk (snd (Sync.apply cfg force true w)) = disk w.
Proof.
  destruct (Manifest.load (Sync.files_yaml cfg) (disk w)) as [m|e] eqn:L.
  - destruct (Manifest.entries m) as [|e0 l0] eqn:En.
    + rewrite (apply_no_entries force true w m L En). cbn; auto.
    + rewrite (apply_dry_eq force w m e0 l0 L En). cbn; auto.
  - rewrite (apply_load_raise force true w e L). cbn; auto.
Qed.

Lemma collect_eq (dry_run : bool) (w : World) :
  Sync.collect cfg dry_run w =
  match Manifest.load (Sync.files_yaml cfg) (disk w) with
  | Raise e => (Raise e, w)
  | Ret m =>
      match Manifest.entries m with
      | [] => say warn_no_files w
      | _ :: _ =>
          match Sync.collect_loop cfg dry_run
                  (Manifest.for_platform (Sync.platform cfg) m) (0, 0)
                  (mkWorld (tree w) (disk w)
                           (console w ++ [header "Collecting files"])) with
          | (Ret c, w3) => collect_summary c w3
          | (Raise e, w3) => (Raise e, w3)
          end
      end
  end.
Proof.
  unfold Sync.collect, Sync.load_manifest, wbind at 1.
  destruct (Manifest.load _ _) as [m|e]; [|reflexivity].
  destruct (Manifest.entries m); reflexivity.
Qed.

Lemma collect_summary_eq (c : nat * nat) (w : World) :
  exists tail,
    collect_summary c w
    = (Ret tt, mkWorld (tree w) (disk w) (console w ++ blank :: tail)).
Proof.
  unfold collect_summary, wbind, say, when, wret.
  destruct (Sync.positive (fst c)), (Sync.positive (snd c)); cbn;
    eexists; rewrite <- ?app_assoc; cbn; reflexivity.
Qed.

Lemma collect_dry (w : World) :
  (tree (snd (Sync.collect cfg true w)) = tree w /\
   disk (snd (Sync.collect cfg true w)) = disk w) /\
  match Manifest.load (Sync.files_yaml cfg) (disk w) with
  | Ret m =>
      match Manifest.entries m with
      | [] => True
      | _ :: _ =>
          fst (Sync.collect cfg true w) = Ret tt ->
          exists lines tail,
            Forall2 reports (Manifest.for_platform (Sync.platform cfg) m) lines /\
            console (snd (Sync.collect cfg true w))
            = console w ++ header "Collecting files" :: lines ++ blank :: tail
      end
  | Raise _ => True
  end.
Proof.
  rewrite collect_eq.
  destruct (Manifest.load (Sync.files_yaml cfg) (disk w)) as [m|e] eqn:L;
    [|cbn; auto].
  destruct (Manifest.entries m) as [|e0 l0] eqn:En; [cbn; auto|].
  pose proof (collect_loop_dry (Manifest.for_platform (Sync.platform cfg) m)
                (0, 0)
                (mkWorld (tree w) (disk w)
                         (console w ++ [header "Collecting files"]))) as C.
  destruct (Sync.collect_loop cfg true _ (0, 0) _) as [[c2|e] w3].
  - destruct C as (Ct & Cd & lines & Rs & Cc). cbn in Ct, Cd, Cc.
    destruct (collect_summary_eq c2 w3) as [tail ->].
    cbn [fst snd tree disk console].
    split; [auto|]. intros _.
    exists lines, tail. split; [exact Rs|].
    rewrite Cc, <- !app_assoc. reflexivity.
  - destruct C as (Ct & Cd & _). cbn in Ct, Cd.
    split; [auto | discriminate].
Qed.

(** ** C9: a dry run changes nothing *)

(** With [dry_run] set, [apply] (with or without [force]) and
    [collect] leave the file tree and the manifest document exactly as
    they were, whatever the outcome; [apply] prints one line for each
    entry of the platform, and so does [collect] when it returns. *)
Theorem dry_run_is_read_only (force : bool) (w : World) :
  let a := Sync.apply cfg force true w in
  let c := Sync.collect cfg true w in
  (tree (snd a) = tree w /\ disk (snd a) = disk w) /\
  (tree (snd c) = tree w /\ disk (snd c) = disk w) /\
  match Manifest.load (Sync.files_yaml cfg) (disk w) with
  | Ret m =>
      match Manifest.entries m with
      | [] => True
      | _ :: _ =>
          let es := Manifest.for_platform (Sync.platform cfg) m in
          a = (Ret tt,
               mkWorld (tree w) (disk w)
                       (console w ++ header "Applying files"
                          :: map (dry_run_line (tree w)) es)) /\
          (fst c = Ret tt ->
           exists lines tail,
             Forall2 reports es lines /\
             console (snd c)
             = console w ++ header "Collecting files" :: lines ++ blank :: tail)
      end
  | Raise _ => True
  end.
Proof.
  intros a c. split; [apply apply_dry_frame|].
  destruct (collect_dry w) as [Hf Hl]. split; [exact Hf|]. fold c in Hl.
  destruct (Manifest.load (Sync.files_yaml cfg) (disk w)) as [m|e] eqn:L;
    [|exact I].
  destruct (Manifest.entries m) as [|e0 l0] eqn:En; [exact I|].
  split; [now apply (apply_dry_eq force w m e0 l0)|].
  exact Hl.
Qed.

(** ** C7: what [collect] skips *)

Lemma read_bytes_Ret (fs : FS) p b :
  read_bytes fs p = Ret b <-> exists m, stat fs p = Some (File m b).
Proof.
  unfold read_bytes, open_read, stat.
  destruct (canon fs p) as [c st].
  destruct st; cbn;
    [|split; [discriminate | intros [? ?]; discriminate] ..].
  destruct (node_at fs c) as [[m x| |]|]; cbn;
    [|split; [discriminate | intros [? ?]; discriminate] ..].
  split.
  - intros H. injection H as ->. now exists m.
  - intros [m' H]. now injection H as _ ->.
Qed.

Lemma wbind_Ret {A B} (m : W A) (k : A -> W B) (w w' : World) b :
  wbind m k w = (Ret b, w') ->
  exists a w1, m w = (Ret a, w1) /\ k a w1 = (Ret b, w').
Proof.
  unfold wbind. destruct (m w) as [[a|e] w1]; [eauto | discriminate].
Qed.

(** The [try] block counts the entry as collected or, on an exception,
    counts nothing. *)
Lemma collect_copy_counts (entry : Manifest.FileEntry)
    (collected skipped : nat) (w : World) :
  fst (Sync.collect_copy cfg entry (collected, skipped) w)
  = Ret (S collected, skipped) \/
  fst (Sync.collect_copy cfg entry (collected, skipped) w)
  = Ret (collected, skipped).
Proof.
  unfold Sync.collect_copy, Sync.except_Exception.
  match goal with |- context [wbind ?m ?k w] =>
    destruct (wbind m k w) as [[a|e] w'] eqn:E end.
  - left. apply wbind_Ret in E as (? & ? & _ & E).
    apply wbind_Ret in E as (? & ? & _ & E).
    apply wbind_Ret in E as (? & ? & _ & E).
    apply wbind_Ret in E as (? & ? & _ & E).
    unfold wret in E. now injection E as <- _.
  - now right.
Qed.

Local Arguments Sync.collect_copy : simpl never.

Lemma collect_entry_skip (dry_run : bool) (entry : Manifest.FileEntry)
    (collected skipped : nat) (w : World) :
  (fst (Sync.collect_entry cfg dry_run entry (collected, skipped) w)
   = Ret (collected, S skipped) <-> skip_condition (tree w) entry) /\
  (fst (Sync.collect_entry cfg dry_run entry (collected, skipped) w)
   = Ret (collected, S skipped) ->
   tree (snd (Sync.collect_entry cfg dry_run entry (collected, skipped) w))
   = tree w /\
   disk (snd (Sync.collect_entry cfg dry_run entry (collected, skipped) w))
   = disk w).
Proof.
  pose proof (collect_copy_counts entry collected skipped) as Hcopy.
  destruct w as [t d c].
  unfold skip_condition, dest_abs, source_abs.
  unfold Sync.collect_entry, wbind, look, say, wret, on_tree, lift.
  cbn [tree disk console].
  set (src := under (Sync.dotfiles_path cfg) (Manifest.source entry)).
  set (dst := under (Sync.home cfg) (Manifest.dest entry)).
  set (w := mkWorld t d c).
  destruct (exists_ t dst) eqn:Ed; cbn; [|now intuition].
  destruct (is_symlink t dst) eqn:Ls; cbn; [now intuition|].
  assert (forall (rest : World -> res (nat * nat) * World),
             (fst (rest w) = Ret (S collected, skipped) \/
              fst (rest w) = Ret (collected, skipped) \/
              exists e, fst (rest w) = Raise e) ->
             ~ (exists m1 m2 b,
                   stat t src = Some (File m1 b) /\
                   stat t dst = Some (File m2 b) /\
                   is_dir t dst = false) ->
             (fst (rest w) = Ret (collected, S skipped) <->
              true = false \/ false = true \/
              is_dir t dst = false /\
              exists m1 m2 b,
                stat t src = Some (File m1 b) /\ stat t dst = Some (File m2 b)) /\
             (fst (rest w) = Ret (collected, S skipped) ->
              tree (snd (rest w)) = t /\ disk (snd (rest w)) = d))
    as Hrest.
  { intros rest Hr Hn. split; [split|].
    - intros H. exfalso.
      destruct Hr as [Hr|[Hr|[e Hr]]]; rewrite Hr in H; try discriminate;
        injection H; intros; lia.
    - intros [?|[?|(Dd & m1 & m2 & b & S1 & S2)]]; try discriminate.
      exfalso. apply Hn. now exists m1, m2, b.
    - intros H. exfalso.
      destruct Hr as [Hr|[Hr|[e Hr]]]; rewrite Hr in H; try discriminate;
        injection H; intros; lia. }
  set (act := if dry_run
              then fun w1 : World =>
                     (Ret (S collected, skipped),
                      mkWorld (tree w1) (disk w1)
                        (console w1 ++ [info_would_collect (Manifest.dest entry)]))
              else Sync.collect_copy cfg entry (collected, skipped)).
  assert (fst (act w) = Ret (S collected, skipped) \/
          fst (act w) = Ret (collected, skipped) \/
          exists e, fst (act w) = Raise e) as Hact.
  { unfold act. destruct dry_run; [now left|]. destruct (Hcopy w); auto. }
  destruct (exists_ t src) eqn:Es; destruct (is_dir t dst) eqn:Dd; cbn.
  - apply (Hrest act Hact). intros (? & ? & ? & _ & _ & ?). discriminate.
  - destruct (read_bytes t src) as [a|e] eqn:Ra; cbn.
    + destruct (read_bytes t dst) as [b|e] eqn:Rb; cbn.
      * apply read_bytes_Ret in Ra as [m1 Sa].
        apply read_bytes_Ret in Rb as [m2 Sb].
        destruct (String.eqb a b) eqn:Eab; cbn.
        -- apply String.eqb_eq in Eab as ->.
           split; [split; auto|auto].
           intros _. right. right. split; [reflexivity|]. now exists m1, m2, b.
        -- apply String.eqb_neq in Eab.
           apply (Hrest act Hact).
           intros (x1 & x2 & y & S1 & S2 & _). congruence.
      * apply (Hrest (fun w0 => (Raise e, w0))); [right; right; now exists e|].
        intros (x1 & x2 & y & S1 & S2 & _).
        assert (read_bytes t dst = Ret y) as Hy
            by (apply read_bytes_Ret; now exists x2).
        congruence.
    + apply (Hrest (fun w0 => (Raise e, w0))); [right; right; now exists e|].
      intros (x1 & x2 & y & S1 & S2 & _).
      assert (read_bytes t src = Ret y)
        as Hy by (apply read_bytes_Ret; now exists x1).
      congruence.
  - apply (Hrest act Hact). intros (? & ? & ? & _ & _ & ?). discriminate.
  - apply (Hrest act Hact). intros (x1 & x2 & y & S1 & _ & _).
    unfold exists_ in Es. now rewrite S1 in Es.
Qed.

(** The [try] block prints one line: the destination when the copy went
    through, counted as collected, or the exception of the copy, nothing
    counted; the manifest document is not touched. *)
Lemma collect_copy_reports (entry : Manifest.FileEntry)
    (collected skipped : nat) (w : World) :
  let r := Sync.collect_copy cfg entry (collected, skipped) w in
  disk (snd r) = disk w /\
  ((fst r = Ret (S collected, skipped) /\
    console (snd r) = console w ++ [success_dest (Manifest.dest entry)]) \/
   (exists e,
       fst r = Ret (collected, skipped) /\
       console (snd r) = console w ++ [err_collect (Manifest.dest entry) e])).
Proof.
  cbv zeta. unfold Sync.collect_copy, Sync.except_Exception.
  destruct w as [t d c].
  unfold wbind, look, on_tree, when, say, wret. cbn [tree disk console].
  destruct (mkdir_parents _ t) as [[[]|e] t1];
    [|cbn; split; [reflexivity|right; now exists e]].
  cbn [tree disk console].
  destruct (is_dir t1 _); cbn [tree disk console].
  - destruct (exists_ t1 _); cbn [tree disk console].
    + destruct (rmtree _ t1) as [[[]|e] t2]; cbn [tree disk console];
        [|cbn; split; [reflexivity|right; now exists e]].
      destruct (copytree _ _ t2) as [[[]|e] t3]; cbn;
        (split; [reflexivity|]); [now left|right; now exists e].
    + cbn [tree disk console].
      destruct (copytree _ _ t1) as [[[]|e] t3]; cbn;
        (split; [reflexivity|]); [now left|right; now exists e].
  - destruct (copy2 _ _ t1) as [[[]|e] t3]; cbn;
      (split; [reflexivity|]); [now left|right; now exists e].
Qed.

(** C7, amended.  [collect] skips an entry (counts it as skipped and
    leaves the tree and the manifest as they are) exactly when the
    destination is absent, is a symlink, or is a regular file
    byte-identical to the source file.  A destination that is a real
    directory is never skipped: a dry run counts it as collected and
    prints that it would be collected, changing nothing; a real run runs
    the copy, and either counts the entry as collected and prints its
    destination, or, when the copy raised, counts nothing and prints the
    exception. *)
Theorem collect_skips_exactly (dry_run : bool) (entry : Manifest.FileEntry)
    (collected skipped : nat) (w : World) :
  let r := Sync.collect_entry cfg dry_run entry (collected, skipped) w in
  (fst r = Ret (collected, S skipped) <-> skip_condition (tree w) entry) /\
  (fst r = Ret (collected, S skipped) ->
   tree (snd r) = tree w /\ disk (snd r) = disk w) /\
  (is_dir (tree w) (dest_abs entry) = true ->
   is_symlink (tree w) (dest_abs entry) = false ->
   fst r <> Ret (collected, S skipped) /\
   (dry_run = true ->
    r = (Ret (S collected, skipped),
         mkWorld (tree w) (disk w)
                 (console w ++ [info_would_collect (Manifest.dest entry)]))) /\
   (dry_run = false ->
    r = Sync.collect_copy cfg entry (collected, skipped) w /\
    disk (snd r) = disk w /\
    ((fst r = Ret (S collected, skipped) /\
      console (snd r) = console w ++ [success_dest (Manifest.dest entry)]) \/
     (exists e,
         fst r = Ret (collected, skipped) /\
         console (snd r)
         = console w ++ [err_collect (Manifest.dest entry) e])))).
Proof.
  cbv zeta.
  destruct (collect_entry_skip dry_run entry collected skipped w)
    as [Hiff Hframe].
  split; [exact Hiff|]. split; [exact Hframe|].
  intros Dd Ls. split.
  { intros Hr. apply Hiff in Hr as [Hr|[Hr|[Hr _]]].
    - unfold is_dir in Dd. unfold exists_ in Hr.
      destruct (stat (tree w) (dest_abs entry)); discriminate.
    - congruence.
    - congruence. }
  assert (exists_ (tree w) (dest_abs entry) = true) as Ex.
  { unfold is_dir in Dd. unfold exists_.
    destruct (stat (tree w) (dest_abs entry)); [reflexivity|discriminate]. }
  assert (Sync.collect_entry cfg dry_run entry (collected, skipped) w
          = if dry_run
            then (Ret (S collected, skipped),
                  mkWorld (tree w) (disk w)
                    (console w ++ [info_would_collect (Manifest.dest entry)]))
            else Sync.collect_copy cfg entry (collected, skipped) w) as E.
  { unfold dest_abs in Dd, Ls, Ex.
    unfold Sync.collect_entry, wbind, look, say, wret.
    rewrite Ex. cbn [negb]. rewrite Ls, Dd, andb_false_r.
    now destruct dry_run, w. }
  split; intros ->; rewrite E; [reflexivity|].
  split; [reflexivity|]. apply collect_copy_reports.
Qed.

End SyncFacts.
End SyncFacts.

(** * The manifest *)

Module ManifestFacts.
Import Manifest Shape.

Lemma update_None source dest type platform l :
  update source dest type platform l = None <->
  Forall (fun e => Manifest.dest e <> dest) l.
Proof.
  induction l as [|e l IH]; simpl.
  - split; [constructor | reflexivity].
  - destruct (decide (Manifest.dest e = dest)) as [E|E].
    + split; [discriminate|]. intros H. inversion H. contradiction.
    + destruct (update source dest type platform l) as [l'|]; simpl.
      * split; [discriminate|]. intros H. inversion H as [|? ? _ H'].
        apply IH in H'. discriminate.
      * split; [|reflexivity]. intros _. constructor; [exact E|].
        now apply IH.
Qed.

Lemma update_Some source dest type platform l l' :
  update source dest type platform l = Some l' ->
  exists l1 e l2,
    l = l1 ++ e :: l2 /\ Manifest.dest e = dest /\
    Forall (fun x => Manifest.dest x <> dest) l1 /\
    l' = l1 ++ mkEntry source dest type platform :: l2.
Proof.
  revert l'. induction l as [|e l IH]; intros l'; simpl; [discriminate|].
  destruct (decide (Manifest.dest e = dest)) as [E|E].
  - intros H. injection H as <-. exists [], e, l. rewrite E. now repeat split.
  - destruct (update source dest type platform l) as [l0|]; [|discriminate].
    simpl. intros H. injection H as <-.
    destruct (IH l0 eq_refl) as (l1 & e' & l2 & -> & Hd & Hf & ->).
    exists (e :: l1), e', l2. repeat split; auto.
Qed.

Lemma pop_dest_None dest l :
  pop_dest dest l = None <-> Forall (fun e => Manifest.dest e <> dest) l.
Proof.
  induction l as [|e l IH]; simpl.
  - split; [constructor | reflexivity].
  - destruct (decide (Manifest.dest e = dest)) as [E|E].
    + split; [discriminate|]. intros H. inversion H. contradiction.
    + destruct (pop_dest dest l) as [l'|]; simpl.
      * split; [discriminate|]. intros H. inversion H as [|? ? _ H'].
        apply IH in H'. discriminate.
      * split; [|reflexivity]. intros _. constructor; [exact E|].
        now apply IH.
Qed.

Lemma pop_dest_Some dest l l' :
  pop_dest dest l = Some l' ->
  exists l1 e l2,
    l = l1 ++ e :: l2 /\ Manifest.dest e = dest /\
    Forall (fun x => Manifest.dest x <> dest) l1 /\ l' = l1 ++ l2.
Proof.
  revert l'. induction l as [|e l IH]; intros l'; simpl; [discriminate|].
  destruct (decide (Manifest.dest e = dest)) as [E|E].
  - intros H. injection H as <-. exists [], e, l. now repeat split.
  - destruct (pop_dest dest l) as [l0|]; [|discriminate].
    simpl. intros H. injection H as <-.
    destruct (IH l0 eq_refl) as (l1 & e' & l2 & -> & Hd & Hf & ->).
    exists (e :: l1), e', l2. repeat split; auto.
Qed.

Lemma added_entries source dest type platform m w :
  entries (added source dest type platform m w) =
  match update source dest type platform (entries m) with
  | Some l => l
  | None => entries m ++ [mkEntry source dest type platform]
  end.
Proof.
  unfold added, add.
  destruct (update source dest type platform (entries m));
    destruct (save _ w); reflexivity.
Qed.

(** ** C8: [add] is an upsert by [dest] *)

(** C8.  When some entry already has the given [dest], [add] replaces the
    fields of the first such entry where it stands and the number of
    entries stays the same; and whenever the [dest]s were pairwise
    different before an [add], they are so after it. *)
Theorem add_is_upsert (source dest : Path) (type platform : value)
    (m : Manifest) (w : World) :
  let m' := added source dest type platform m w in
  (forall e0, e0 ∈ entries m -> Manifest.dest e0 = dest ->
     length (entries m') = length (entries m) /\
     exists l1 e l2,
       entries m = l1 ++ e :: l2 /\ Manifest.dest e = dest /\
       Forall (fun x => Manifest.dest x <> dest) l1 /\
       entries m' = l1 ++ mkEntry source dest type platform :: l2) /\
  (NoDup (map Manifest.dest (entries m)) ->
   NoDup (map Manifest.dest (entries m'))).
Proof.
  cbv zeta. rewrite added_entries.
  destruct (update source dest type platform (entries m)) as [l|] eqn:U.
  - destruct (update_Some _ _ _ _ _ _ U) as (l1 & e & l2 & Hm & Hd & Hf & ->).
    split.
    + intros _ _ _. split.
      * rewrite Hm, !length_app. reflexivity.
      * exists l1, e, l2. auto.
    + rewrite Hm, !map_app. simpl. now rewrite Hd.
  - apply update_None in U. split.
    + intros e0 Hin Hd. exfalso.
      rewrite Forall_forall in U. now apply (U e0 Hin).
    + intros Hnd. rewrite map_app. simpl.
      apply NoDup_app. split; [exact Hnd|]. split.
      * intros d Hd Hin.
        apply elem_of_cons in Hin as [->|Hin]; [|now apply elem_of_nil in Hin].
        apply list_elem_of_fmap in Hd as (e & He & Hin).
        rewrite Forall_forall in U. now apply (U e Hin).
      * apply NoDup_singleton.
Qed.

(** ** C10: [remove] of an untracked [dest] *)

Lemma pop_dest_app dest l1 e l2 :
  Manifest.dest e = dest ->
  Forall (fun x => Manifest.dest x <> dest) l1 ->
  pop_dest dest (l1 ++ e :: l2) = Some (l1 ++ l2).
Proof.
  intros He Hf. induction Hf as [|x l1 Hx _ IH]; simpl.
  - now rewrite decide_True.
  - rewrite decide_False by exact Hx. now rewrite IH.
Qed.

(** [save] builds its document for every list of entries whose platform
    is [None] or can be a key. *)
Lemma save_entries_total l :
  Forall (fun x => truthy (platform x) = true -> hashable (platform x) = true) l ->
  forall data, exists data', save_entries data l = Ret data'.
Proof.
  intros Hl. induction Hl as [|x l Hx _ IH]; intros data; simpl.
  - now exists data.
  - unfold save_entry. destruct (truthy (platform x)); [rewrite Hx|]; auto;
      simpl; apply IH.
Qed.

(** C10.  When no entry has the given [dest], [remove] answers [False]
    and leaves the entry list, the manifest document and the tree as they
    are.  When an entry has it, the first such entry is taken out and the
    document of the others is written: [remove] answers [True] once the
    directory of the document is there or was made, and otherwise ends
    with the exception of making it, the document as it was.  It answers
    [True] only after it took out that entry and wrote the document
    anew. *)
Theorem remove_untracked (dest : Path) (m : Manifest) (w : World) :
  ((forall e, e ∈ entries m -> Manifest.dest e <> dest) ->
   remove dest m w = (Ret false, m, w)) /\
  (forall l1 e l2,
     entries m = l1 ++ e :: l2 -> Manifest.dest e = dest ->
     Forall (fun x => Manifest.dest x <> dest) l1 ->
     Forall (fun x => truthy (platform x) = true ->
                      hashable (platform x) = true) (l1 ++ l2) ->
     exists data,
       save_data (l1 ++ l2) = Ret data /\
       remove dest m w
       = (let '(r, fs) := mkdir_parents (parent (path m)) (tree w) in
          match r with
          | Ret _ =>
              (Ret true, mkManifest (l1 ++ l2) (path m),
               mkWorld fs (Some (Parsed (VDict data))) (console w))
          | Raise x =>
              (Raise x, mkManifest (l1 ++ l2) (path m),
               mkWorld fs (disk w) (console w))
          end) /\
       (is_dir (tree w) (parent (path m)) = true ->
        remove dest m w
        = (Ret true, mkManifest (l1 ++ l2) (path m),
           mkWorld (tree w) (Some (Parsed (VDict data))) (console w)))) /\
  (forall m' w',
     remove dest m w = (Ret true, m', w') ->
     exists l1 e l2 data,
       entries m = l1 ++ e :: l2 /\ Manifest.dest e = dest /\
       Forall (fun x => Manifest.dest x <> dest) l1 /\
       entries m' = l1 ++ l2 /\
       save_data (l1 ++ l2) = Ret data /\
       disk w' = Some (Parsed (VDict data))).
Proof.
  unfold remove. split; [|split].
  - intros H. rewrite <- Forall_forall in H. apply pop_dest_None in H.
    now rewrite H.
  - intros l1 e l2 Hm He Hf Hh.
    rewrite Hm, (pop_dest_app _ _ _ _ He Hf).
    destruct (save_entries_total _ Hh [(VStr "symlinks", VDict [])])
      as [data0 D0].
    exists (clean data0).
    assert (save_data (l1 ++ l2) = Ret (clean data0)) as D
        by (unfold save_data; now rewrite D0).
    split; [exact D|].
    assert (forall fs r,
               mkdir_parents (parent (path m)) (tree w) = (r, fs) ->
               save (mkManifest (l1 ++ l2) (path m)) w
               = match r with
                 | Ret _ => (Ret tt, mkWorld fs (Some (Parsed (VDict (clean data0))))
                                             (console w))
                 | Raise x => (Raise x, mkWorld fs (disk w) (console w))
                 end) as Hs.
    { intros fs r Mk. unfold save. cbn [entries path]. rewrite D.
      unfold wbind, on_tree, write_document. rewrite Mk.
      now destruct r as [[]|x]. }
    split.
    + destruct (mkdir_parents _ (tree w)) as [r fs] eqn:Mk.
      rewrite (Hs _ _ eq_refl). now destruct r.
    + intros Dp. now rewrite (Hs _ _ (FsFacts.mkdir_parents_noop _ _ Dp)).
  - intros m' w'.
    destruct (pop_dest dest (entries m)) as [l|] eqn:P; [|discriminate].
    destruct (pop_dest_Some _ _ _ P) as (l1 & e & l2 & Hm & Hd & Hf & ->).
    destruct (save _ w) as [[[]|e'] w1] eqn:S; [|discriminate].
    intros H. injection H as <- <-.
    unfold save in S. simpl in S.
    destruct (save_data (l1 ++ l2)) as [data|e'] eqn:D; [|discriminate].
    unfold wbind, on_tree, write_document in S.
    destruct (mkdir_parents _ (tree w)) as [[[]|e'] fs]; [|discriminate].
    injection S as <-.
    exists l1, e, l2, data. now repeat split.
Qed.

(** ** C3: the shape [save] writes *)

Lemma key_eqb_str k s : key_eqb k (VStr s) = true -> k = VStr s.
Proof.
  destruct k; simpl; try discriminate. intros H.
  apply String.eqb_eq in H. now subst.
Qed.

Lemma dict_get_Some k d v :
  dict_get k d = Some v -> exists k', In (k', v) d /\ key_eqb k' k = true.
Proof.
  induction d as [|[k0 v0] d IH]; simpl; [discriminate|].
  destruct (key_eqb k0 k) eqn:E.
  - intros H. injection H as ->. exists k0. auto.
  - intros H. destruct (IH H) as (k' & Hin & Hk). exists k'. auto.
Qed.

Lemma forallb_dict_set (P : value * value -> bool) k v d :
  forallb P d = true ->
  (forall k', key_eqb k' k = true -> P (k', v) = true) ->
  P (k, v) = true ->
  forallb P (dict_set k v d) = true.
Proof.
  intros Hd Hk Hn. induction d as [|[k0 v0] d IH]; simpl in *.
  - now rewrite Hn.
  - apply andb_true_iff in Hd as [H0 Hd].
    destruct (key_eqb k0 k) eqn:E; simpl.
    + now rewrite (Hk k0 E), Hd.
    + now rewrite H0, IH.
Qed.

Lemma forallb_dict_del (P : value * value -> bool) k d :
  forallb P d = true -> forallb P (dict_del k d) = true.
Proof.
  induction d as [|[k0 v0] d IH]; simpl; [auto|].
  intros [H0 Hd]%andb_true_iff.
  destruct (key_eqb k0 k); [exact Hd|]. simpl. now rewrite H0, IH.
Qed.

Lemma dict_set_truthy k v d : truthy (VDict (dict_set k v d)) = true.
Proof. destruct d as [|[k0 v0] d]; simpl; [reflexivity|]. now destruct (key_eqb k0 k). Qed.

Lemma forallb_filter_both {A} (P f : A -> bool) l :
  forallb P l = true -> forallb (fun x => P x && f x) (List.filter f l) = true.
Proof.
  induction l as [|x l IH]; simpl; [auto|].
  intros [Hx Hl]%andb_true_iff. destruct (f x) eqn:F; simpl; auto.
  now rewrite Hx, F, IH.
Qed.

Lemma forallb_impl {A} (P Q : A -> bool) l :
  (forall x, P x = true -> Q x = true) ->
  forallb P l = true -> forallb Q l = true.
Proof.
  intros H. induction l as [|x l IH]; simpl; [auto|].
  intros [Hx Hl]%andb_true_iff. now rewrite (H x Hx), IH.
Qed.

Lemma forallb_In {A} (P : A -> bool) l x :
  forallb P l = true -> In x l -> P x = true.
Proof. intros H. rewrite forallb_forall in H. apply H. Qed.

Lemma section_name_not_platform k :
  section_name k = true -> named "platform" k = false.
Proof.
  destruct k; simpl; try discriminate. unfold section_name. simpl.
  intros [H|H]%orb_true_iff; apply String.eqb_eq in H; now subst.
Qed.

(** The grouping found under a section name, with one more item. *)
Lemma section_grown (P : value * value -> bool) section d a b :
  section_name section = true ->
  forallb P d = true ->
  (forall kv, section_name (fst kv) = true -> P kv = true -> str_map (snd kv) = true) ->
  str_map (VDict (dict_set (VStr a) (VStr b)
                           (as_dict (dict_get section d)))) = true.
Proof.
  intros Hs Hd HP. simpl. apply forallb_dict_set; try reflexivity;
    [|intros k' Hk; apply key_eqb_str in Hk as ->; reflexivity].
  destruct (dict_get section d) as [v|] eqn:G; [|reflexivity].
  destruct (dict_get_Some _ _ _ G) as (k' & Hin & Hk).
  assert (k' = section) as ->.
  { destruct section; simpl in Hs; try discriminate. now apply key_eqb_str. }
  pose proof (HP (section, v) Hs (forallb_In _ _ _ Hd Hin)) as Hv. simpl in Hv.
  destruct v; simpl in *; try discriminate. exact Hv.
Qed.

Lemma save_entry_shape data entry data' :
  forallb loop_item data = true ->
  save_entry data entry = Ret data' ->
  forallb loop_item data' = true.
Proof.
  intros Hd. unfold save_entry.
  set (section := VStr (if key_eqb (type entry) (VStr "symlink")
                        then "symlinks" else "copies")).
  assert (section_name section = true) as Hs
      by (unfold section; now destruct (key_eqb (type entry) _)).
  set (a := str (source entry)). set (b := str (Manifest.dest entry)).
  destruct (truthy (platform entry)).
  - destruct (hashable (platform entry)); [|discriminate].
    intros H. injection H as <-.
    set (plats := as_dict (dict_get (VStr "platform") data)).
    set (plat := as_dict (dict_get (platform entry) plats)).
    assert (forallb (fun kv => full_platform (snd kv)) plats = true) as Hplats.
    { unfold plats.
      destruct (dict_get (VStr "platform") data) as [v|] eqn:G; [|reflexivity].
      destruct (dict_get_Some _ _ _ G) as (k' & Hin & Hk).
      apply key_eqb_str in Hk as ->.
      pose proof (forallb_In _ _ _ Hd Hin) as Hv.
      unfold loop_item in Hv. simpl in Hv.
      destruct v; simpl in *; try discriminate.
      now apply andb_true_iff in Hv as [_ Hv]. }
    assert (forallb full_section plat = true) as Hplat.
    { unfold plat.
      destruct (dict_get (platform entry) plats) as [v|] eqn:G; [|reflexivity].
      destruct (dict_get_Some _ _ _ G) as (k' & Hin & Hk).
      pose proof (forallb_In _ _ _ Hplats Hin) as Hv. simpl in Hv.
      destruct v; simpl in *; try discriminate.
      now apply andb_true_iff in Hv as [_ Hv]. }
    assert (str_map (VDict (dict_set (VStr a) (VStr b)
                                     (as_dict (dict_get section plat)))) = true)
      as Hsec.
    { apply (section_grown full_section); auto.
      intros kv _ Hkv. unfold full_section in Hkv.
      now apply andb_true_iff in Hkv as [[_ Hkv]%andb_true_iff _]. }
    assert (forall k', key_eqb k' section = true ->
              full_section (k', VDict (dict_set (VStr a) (VStr b)
                                         (as_dict (dict_get section plat)))) = true)
      as Hfull.
    { intros k' Hk. unfold section in Hk. apply key_eqb_str in Hk as ->.
      fold section. unfold full_section.
      cbn [fst snd]. now rewrite Hs, Hsec, dict_set_truthy. }
    assert (full_platform
              (VDict (dict_set section
                        (VDict (dict_set (VStr a) (VStr b)
                                         (as_dict (dict_get section plat))))
                        plat)) = true) as Hplat'.
    { unfold full_platform. rewrite dict_set_truthy. simpl.
      apply forallb_dict_set; auto. apply Hfull. unfold section.
      now destruct (key_eqb (type entry) _). }
    apply forallb_dict_set; auto.
    + intros k' Hk. apply key_eqb_str in Hk as ->. unfold loop_item.
      cbn [fst snd]. apply orb_true_iff. right.
      unfold full_platforms. rewrite dict_set_truthy. simpl.
      apply forallb_dict_set; auto.
    + unfold loop_item. cbn [fst snd]. apply orb_true_iff. right.
      unfold full_platforms. rewrite dict_set_truthy. simpl.
      apply forallb_dict_set; auto.
  - intros H. injection H as <-.
    assert (str_map (VDict (dict_set (VStr a) (VStr b)
                                     (as_dict (dict_get section data)))) = true)
      as Hsec.
    { apply (section_grown loop_item); auto.
      intros kv Hn Hkv. unfold loop_item in Hkv.
      rewrite (section_name_not_platform _ Hn), Hn in Hkv. simpl in Hkv.
      now rewrite orb_false_r in Hkv. }
    assert (forall k', key_eqb k' section = true ->
              loop_item (k', VDict (dict_set (VStr a) (VStr b)
                                       (as_dict (dict_get section data)))) = true)
      as Hitem.
    { intros k' Hk. unfold section in Hk. apply key_eqb_str in Hk as ->.
      fold section. unfold loop_item. cbn [fst snd]. now rewrite Hs, Hsec. }
    apply forallb_dict_set; auto. apply Hitem. unfold section.
    now destruct (key_eqb (type entry) _).
Qed.

Lemma save_entries_shape l :
  forall data data',
    forallb loop_item data = true ->
    save_entries data l = Ret data' ->
    forallb loop_item data' = true.
Proof.
  induction l as [|entry l IH]; intros data data' Hd; simpl.
  - intros H. now injection H as <-.
  - destruct (save_entry data entry) as [d1|e] eqn:E; simpl; [|discriminate].
    apply IH. eapply save_entry_shape; eauto.
Qed.

Lemma filter_all {A} (f : A -> bool) l :
  forallb f l = true -> List.filter f l = l.
Proof.
  induction l as [|x l IH]; simpl; [auto|].
  intros [Hx Hl]%andb_true_iff. now rewrite Hx, IH.
Qed.

Lemma forallb_filter {A} (P f : A -> bool) l :
  forallb P l = true -> forallb P (List.filter f l) = true.
Proof.
  intros H. apply (forallb_impl (fun x => P x && f x) P);
    [|now apply forallb_filter_both].
  intros x Hx. now apply andb_true_iff in Hx as [Hx _].
Qed.

Lemma full_platform_cleaned (kv : value * value) :
  full_platform (snd kv) = true ->
  VDict (List.filter nonempty (as_dict (Some (snd kv)))) = snd kv.
Proof.
  destruct kv as [k v]. simpl. destruct v as [| | | | |secs]; try discriminate.
  simpl. intros [_ H]%andb_true_iff. f_equal. apply filter_all.
  eapply forallb_impl; [|exact H].
  intros x Hx. unfold full_section in Hx.
  now apply andb_true_iff in Hx as [_ Hx].
Qed.

Lemma clean_shape data :
  forallb loop_item data = true -> nested_shape (clean data) = true.
Proof.
  intros Hd. unfold clean, nested_shape.
  assert (forallb nested_item (List.filter nonempty data) = true) as H1.
  { apply (forallb_impl (fun x => loop_item x && nonempty x) nested_item);
      [|now apply forallb_filter_both].
    intros [k v] [Hl Hn]%andb_true_iff.
    unfold loop_item in Hl. unfold nested_item, full_section, nonempty in *.
    simpl in *. rewrite Hn, andb_true_r. exact Hl. }
  destruct (dict_get (VStr "platform") (List.filter nonempty data))
    as [p|] eqn:G; [|exact H1].
  destruct (dict_get_Some _ _ _ G) as (k' & Hin & Hk).
  apply key_eqb_str in Hk as ->.
  pose proof (forallb_In _ _ _ H1 Hin) as Hp.
  unfold nested_item, full_section in Hp. simpl in Hp.
  destruct p as [| | | | |ps]; simpl in Hp; try discriminate.
  apply andb_true_iff in Hp as [_ Hps].
  set (plats := map (fun kv => (fst kv,
                                VDict (List.filter nonempty
                                         (as_dict (Some (snd kv)))))) ps).
  assert (forallb (fun kv => full_platform (snd kv))
                  (List.filter nonempty plats) = true) as H2.
  { apply forallb_filter. unfold plats. clear -Hps.
    induction ps as [|kv ps IH]; cbn [map forallb fst snd] in *; [reflexivity|].
    apply andb_true_iff in Hps as [Hx Hps].
    rewrite (full_platform_cleaned kv Hx), Hx. now apply IH. }
  change (forallb nested_item
            match List.filter nonempty plats with
            | [] => dict_del (VStr "platform") (List.filter nonempty data)
            | _ :: _ =>
                dict_set (VStr "platform") (VDict (List.filter nonempty plats))
                         (List.filter nonempty data)
            end = true).
  destruct (List.filter nonempty plats) as [|kv0 rest] eqn:F.
  - now apply forallb_dict_del.
  - apply forallb_dict_set; [exact H1| |].
    + intros k' Hk. apply key_eqb_str in Hk as ->.
      unfold nested_item. simpl. exact H2.
    + unfold nested_item. simpl. exact H2.
Qed.

Lemma save_data_shape l data :
  save_data l = Ret data ->
  nested_shape data = true /\ dict_get (VStr "entries") data = None.
Proof.
  unfold save_data.
  destruct (save_entries _ l) as [d|e] eqn:E; simpl; [|discriminate].
  intros H. injection H as <-.
  assert (nested_shape (clean d) = true) as Hs.
  { apply clean_shape. eapply save_entries_shape; [|exact E]. reflexivity. }
  split; [exact Hs|].
  destruct (dict_get (VStr "entries") (clean d)) as [v|] eqn:G; [|reflexivity].
  destruct (dict_get_Some _ _ _ G) as (k' & Hin & Hk).
  apply key_eqb_str in Hk as ->.
  pose proof (forallb_In _ _ _ Hs Hin) as Hv. discriminate.
Qed.

(** What [save] writes is always the nested shape: top-level
    [symlinks] and [copies] mappings of source to destination, and a
    [platform] mapping of such groupings for each platform; it never has a
    top-level [entries] list, and no grouping in it is empty. *)
Theorem save_writes_nested_shape (m : Manifest) (w w' : World) :
  save m w = (Ret tt, w') ->
  exists data,
    disk w' = Some (Parsed (VDict data)) /\
    nested_shape data = true /\
    dict_get (VStr "entries") data = None.
Proof.
  unfold save. destruct (save_data (entries m)) as [data|e] eqn:D; [|discriminate].
  unfold wbind, on_tree, write_document.
  destruct (mkdir_parents _ (tree w)) as [[[]|e] fs]; [|discriminate].
  intros H. injection H as <-. exists data.
  destruct (save_data_shape _ _ D). auto.
Qed.

(** ** C5: a manifest that does not load *)

Lemma safe_bind {A B} (m : res A) (k : A -> res B) :
  safe m -> (forall a, safe (k a)) -> safe (res_bind m k).
Proof. destruct m; simpl; auto. Qed.

Lemma safe_map {A B} (f : A -> res B) l :
  (forall x, safe (f x)) -> safe (res_map f l).
Proof.
  intros H. induction l as [|x l IH]; simpl; [exact I|].
  apply safe_bind; [apply H|]. intros y.
  apply safe_bind; [exact IH|]. intros ys. exact I.
Qed.

Local Ltac safe_step :=
  repeat first
    [ apply safe_bind; [|intros ?]
    | apply safe_map; intros ?
    | exact I
    | reflexivity ].

Lemma safe_subscript v k : safe (subscript v k).
Proof. destruct v; simpl; auto. destruct (dict_get _ _); simpl; auto. Qed.

Lemma safe_py_get v k d : safe (py_get v k d).
Proof. destruct v; simpl; auto. Qed.

Lemma safe_to_Path v : safe (to_Path v).
Proof. destruct v; simpl; auto. Qed.

Lemma safe_items v : safe (items v).
Proof. destruct v; simpl; auto. Qed.

Lemma safe_iterate v : safe (iterate v).
Proof. destruct v; simpl; auto. Qed.

Lemma safe_py_in k v : safe (py_in k v).
Proof. destruct v; simpl; auto. Qed.

Lemma safe_section_entries data section type platform :
  safe (section_entries data section type platform).
Proof.
  unfold section_entries, entry_of_pair.
  apply safe_bind; [apply safe_py_get|]. intros m.
  apply safe_bind; [apply safe_items|]. intros kvs.
  apply safe_map. intros kv.
  apply safe_bind; [apply safe_to_Path|]. intros x.
  apply safe_bind; [apply safe_to_Path|]. intros y. exact I.
Qed.

(** [load] raises nothing but the parser's and the lookups' own
    exceptions. *)
Lemma load_safe path disk : safe (load path disk).
Proof.
  unfold load. destruct disk as [[loaded|]|]; simpl; auto.
  apply safe_bind; [apply safe_py_in|]. intros [|].
  - apply safe_bind; [apply safe_subscript|]. intros listed.
    apply safe_bind; [apply safe_iterate|]. intros its.
    apply safe_bind; [|intros; exact I].
    apply safe_map. intros item. unfold entry_of_item.
    apply safe_bind; [apply safe_subscript|]. intros ?.
    apply safe_bind; [apply safe_to_Path|]. intros ?.
    apply safe_bind; [apply safe_subscript|]. intros ?.
    apply safe_bind; [apply safe_to_Path|]. intros ?.
    apply safe_bind; [apply safe_py_get|]. intros ?.
    apply safe_bind; [apply safe_py_get|]. intros ?. exact I.
  - apply safe_bind; [apply safe_section_entries|]. intros ?.
    apply safe_bind; [apply safe_section_entries|]. intros ?.
    apply safe_bind; [apply safe_py_get|]. intros ?.
    apply safe_bind; [apply safe_items|]. intros ?.
    apply safe_bind; [|intros; exact I].
    apply safe_map. intros kv. unfold platform_entries.
    apply safe_bind; [apply safe_section_entries|]. intros ?.
    apply safe_bind; [apply safe_section_entries|]. intros ?. exact I.
Qed.

End ManifestFacts.

(** * Exceptions in a command *)

Module CommandFacts.
Import Shape ManifestFacts SyncFacts.
Section CommandFacts.

Context {T : TreeOps} (cfg : Sync.Config).

Lemma collect_load_raise (dry_run : bool) (w : World) e :
  Manifest.load (Sync.files_yaml cfg) (disk w) = Raise e ->
  Sync.collect cfg dry_run w = (Raise e, w).
Proof. intros L. now rewrite collect_eq, L. Qed.

(** A document that holds something other than a mapping, and is not
    empty, does not load: the membership test or the first lookup
    raises. *)
Lemma load_not_mapping path (v : value) :
  truthy v = true -> (forall d, v <> VDict d) ->
  Manifest.load path (Some (Parsed v)) = Raise TypeError \/
  Manifest.load path (Some (Parsed v)) = Raise AttributeError.
Proof.
  intros Tv Nd. unfold Manifest.load. rewrite Tv.
  destruct v as [|b|z|s|l|d]; simpl; auto.
  - destruct (contains "entries" s); simpl; auto.
  - destruct (existsb _ l); simpl; auto.
  - now destruct (Nd d).
Qed.

(** An empty document is loaded as the empty mapping. *)
Lemma load_falsy path (v : value) :
  truthy v = false ->
  Manifest.load path (Some (Parsed v)) = Ret (Manifest.mkManifest [] path).
Proof. intros Tv. unfold Manifest.load. now rewrite Tv. Qed.

(** A mapping with none of the keys [load] reads has no entries. *)
Lemma load_no_sections path (d : dict) :
  dict_get (VStr "entries") d = None ->
  dict_get (VStr "symlinks") d = None ->
  dict_get (VStr "copies") d = None ->
  dict_get (VStr "platform") d = None ->
  Manifest.load path (Some (Parsed (VDict d))) = Ret (Manifest.mkManifest [] path).
Proof.
  intros E S C P. unfold Manifest.load.
  destruct (truthy (VDict d)); [|reflexivity].
  unfold Manifest.section_entries. simpl. now rewrite E, S, C, P.
Qed.

(** C5, amended.  A manifest document that the parser rejects makes
    [load] raise the parser's [YAMLError], and one that holds a non-empty
    value other than a mapping makes it raise [TypeError] or
    [AttributeError].  Nothing catches what [load] raises: [apply] and
    [collect] end with it before any entry is looked at: tree, document
    and console are as before.  A document that holds an empty value, or a
    mapping with none of the keys [entries], [symlinks], [copies] and
    [platform], loads as the empty manifest, as an absent one does, and
    [apply] and [collect] then print only that there are no files. *)
Theorem load_failure_ends_command (force dry_run : bool) (w : World) :
  let path := Sync.files_yaml cfg in
  (disk w = Some Unparsable ->
   Manifest.load path (disk w) = Raise YAMLError) /\
  (forall v,
      disk w = Some (Parsed v) ->
      truthy v = true -> (forall d, v <> VDict d) ->
      Manifest.load path (disk w) = Raise TypeError \/
      Manifest.load path (disk w) = Raise AttributeError) /\
  (forall e,
      Manifest.load path (disk w) = Raise e ->
      Sync.apply cfg force dry_run w = (Raise e, w) /\
      Sync.collect cfg dry_run w = (Raise e, w)) /\
  ((disk w = None \/
    (exists v, disk w = Some (Parsed v) /\ truthy v = false) \/
    (exists d, disk w = Some (Parsed (VDict d)) /\
               dict_get (VStr "entries") d = None /\
               dict_get (VStr "symlinks") d = None /\
               dict_get (VStr "copies") d = None /\
               dict_get (VStr "platform") d = None)) ->
   Manifest.load path (disk w) = Ret (Manifest.mkManifest [] path) /\
   Sync.apply cfg force dry_run w = say warn_no_files w /\
   Sync.collect cfg dry_run w = say warn_no_files w).
Proof.
  cbv zeta. split; [|split; [|split]].
  - now intros ->.
  - intros v -> Tv Nd. now apply load_not_mapping.
  - intros e L. split.
    + now apply apply_load_raise.
    + now apply collect_load_raise.
  - intros H.
    assert (Manifest.load (Sync.files_yaml cfg) (disk w)
            = Ret (Manifest.mkManifest [] (Sync.files_yaml cfg))) as L.
    { destruct H as [->|[(v & -> & Tv)|(d & -> & E & S & C & P)]].
      - reflexivity.
      - now apply load_falsy.
      - now apply load_no_sections. }
    split; [exact L|]. split.
    + now apply (apply_no_entries _ _ _ _ _ L).
    + now rewrite collect_eq, L.
Qed.

(** An absent document is the empty manifest. *)
Lemma load_absent path : Manifest.load path None = Ret (Manifest.mkManifest [] path).
Proof. reflexivity. Qed.

(** An exception raised while one entry is applied ends the loop: the
    entries after it are not looked at. *)
Lemma apply_loop_raise (force dry_run : bool) (backup_dir : option apath)
    (entry : Manifest.FileEntry) (l : list Manifest.FileEntry)
    (c : Sync.Counts) (w w' : World) (e : exn) :
  Sync.apply_entry cfg force dry_run backup_dir entry c w = (Raise e, w') ->
  Sync.apply_loop cfg force dry_run backup_dir (entry :: l) c w = (Raise e, w').
Proof. intros H. simpl. unfold wbind. now rewrite H. Qed.

(** [check_symlink] in one equation. *)
Lemma check_symlink_eq (source : apath) (dest : Path) (fs : FS) :
  let d := under (Sync.home cfg) dest in
  Linker.check_symlink (Sync.home cfg) source dest fs =
  (Ret (if negb (exists_ fs d || is_symlink fs d) then "missing"
        else if negb (is_symlink fs d) then "conflict"
        else if bool_decide (fst (canon fs d) = fst (canon fs source))
             then "ok" else "wrong"), fs).
Proof.
  cbv zeta.
  unfold Linker.check_symlink, bind, ask, except_OSError, lift, resolve, ret.
  destruct (exists_ fs _ || is_symlink fs _);
    cbv beta iota delta [negb]; [|reflexivity].
  destruct (is_symlink fs _); cbv beta iota delta [negb]; [|reflexivity].
  now destruct (bool_decide _).
Qed.

(** [resolve] raises nothing, so the answer is never ["broken"]. *)
Lemma check_symlink_never_broken (source : apath) (dest : Path) (fs : FS) :
  fst (Linker.check_symlink (Sync.home cfg) source dest fs) <> Ret "broken".
Proof.
  pose proof (check_symlink_eq source dest fs) as E. cbv zeta in E.
  rewrite E. cbv beta iota. unfold fst at 1. repeat case_match; discriminate.
Qed.

End CommandFacts.
End CommandFacts.

(** * Worked cases *)

Module Cases.
Import Manifest Conditions Shape Fixtures.
Import ManifestFacts ReconcileFacts SyncFacts CommandFacts.

Lemma with_snd {A B} (p : A * B) (a : A) : fst p = a -> p = (a, snd p).
Proof. destruct p. simpl. now intros ->. Qed.

(** ** C1 *)

(** C1 fails for a copy entry whose source is a directory: the first
    [copy_file] copies the tree, the second finds a directory at the
    destination and answers [(False, "conflict")]. *)
Lemma create_twice_directory_conflict :
  let first :=
    Reconcile.create (T := plain) home0 false src_nvim dest_nvim false None tree0 in
  is_dir tree0 src_nvim = true /\
  fst first = Ret (true, "copied") /\
  fst (Reconcile.create (T := plain) home0 false src_nvim dest_nvim false None
                        (snd first))
  = Ret (false, "conflict").
Proof. vm_compute. repeat split; reflexivity. Qed.

Lemma create_twice_is_noop_witness :
  let first :=
    Reconcile.create (T := plain) home0 true src_git dest_git false None tree0 in
  exists_ tree0 src_git = true /\
  fst first = Ret (true, "created") /\
  Reconcile.create (T := plain) home0 true src_git dest_git false None (snd first)
  = (Ret (true, "ok"), snd first).
Proof.
  cbv zeta.
  assert (exists_ tree0 src_git = true) as H1 by (vm_compute; reflexivity).
  assert (fst (Reconcile.create (T := plain) home0 true src_git dest_git false
                                None tree0)
          = Ret (true, "created")) as H2 by (vm_compute; reflexivity).
  split; [exact H1|]. split; [exact H2|].
  exact (create_twice_is_noop (T := plain) home0 true src_git dest_git None
                              tree0 _ "created" H1 (with_snd _ _ H2)).
Defined.

(** ** C2 *)

Lemma no_silent_clobber_witness :
  Reconcile.create (T := plain) home0 true src_git dest_git false None tree_own
  = (Ret (false, "conflict"), tree_own) /\
  Reconcile.create (T := plain) home0 false src_git dest_git false None tree_own
  = (Ret (false, "conflict"), tree_own).
Proof.
  split.
  - apply (no_silent_clobber (T := plain) home0 true).
    + vm_compute. reflexivity.
    + intros [H _]. vm_compute in H. discriminate.
  - apply (no_silent_clobber (T := plain) home0 false).
    + vm_compute. reflexivity.
    + intros (m1 & m2 & b & H1 & H2). vm_compute in H1, H2. congruence.
Defined.

(** ** C4 *)

(** C4 fails on a dangling link: [resolve] is not strict and raises
    nothing, so the link is compared with the source and reported as
    ["wrong"], not ["broken"]. *)
Lemma check_symlink_dangling_is_wrong :
  is_symlink tree_dangling (under home0 dest_git) = true /\
  exists_ tree_dangling (under home0 dest_git) = false /\
  fst (Linker.check_symlink home0 src_git dest_git tree_dangling) = Ret "wrong".
Proof. vm_compute. repeat split; reflexivity. Qed.

(** The other four answers are as C4 says. *)
Lemma check_symlink_other_statuses :
  fst (Linker.check_symlink home0 src_git dest_git tree0) = Ret "missing" /\
  fst (Linker.check_symlink home0 src_git dest_git tree_own) = Ret "conflict" /\
  fst (Linker.check_symlink home0 src_git dest_git tree_linked) = Ret "ok" /\
  fst (Linker.check_symlink home0 src_git dest_git tree_elsewhere) = Ret "wrong".
Proof. vm_compute. repeat split; reflexivity. Qed.

(** ** C6 *)

(** C6 fails: the [FileExistsError] raised by [mkdir] inside [copy_file]
    for the first entry leaves [apply]; the second entry, which applies
    without trouble in [world_free], is never reached, and no summary is
    printed. *)
Lemma apply_aborts_on_exception :
  let r := Sync.apply (T := plain) cfg0 false false world_blocked in
  fst r = Raise FileExistsError /\
  console (snd r) = [header "Applying files"] /\
  lstat (tree (snd r)) (home0 ++ [".gitconfig"]) = None /\
  let r' := Sync.apply (T := plain) cfg0 false false world_free in
  fst r' = Ret tt /\
  console (snd r')
  = [header "Applying files"; success_dest dest_nvim; success_dest dest_git;
     blank; success_applied 2] /\
  is_symlink (tree (snd r')) (home0 ++ [".gitconfig"]) = true.
Proof. vm_compute. repeat split; reflexivity. Qed.

(** ** C7 *)

(** C7 fails for a directory: equal to the source or not, it is
    collected, never skipped. *)
Lemma collect_directory_not_skipped :
  let r := Sync.collect_entry (T := plain) cfg0 false e_nvim (0, 0) world_same_dir in
  let dry := Sync.collect_entry (T := plain) cfg0 true e_nvim (0, 0) world_same_dir in
  is_dir tree_same_dir (under home0 dest_nvim) = true /\
  map_to_list (PlainTrees.below tree_same_dir (under home0 dest_nvim))
  = map_to_list (PlainTrees.below tree_same_dir src_nvim) /\
  fst r = Ret (1, 0) /\ console (snd r) = [success_dest dest_nvim] /\
  fst dry = Ret (1, 0) /\ console (snd dry) = [info_would_collect dest_nvim].
Proof. vm_compute. repeat split; reflexivity. Qed.

Lemma collect_skips_exactly_witness :
  fst (Sync.collect_entry (T := plain) cfg0 false e_git (0, 0)
                          (mkWorld tree_linked None []))
  = Ret (0, 1).
Proof.
  apply (collect_skips_exactly (T := plain) cfg0 false e_git 0 0
                               (mkWorld tree_linked None [])).
  right. left. vm_compute. reflexivity.
Defined.

(** ** C9 *)

Lemma dry_run_is_read_only_witness :
  tree (snd (Sync.apply (T := plain) cfg0 true true world_free)) = tree0 /\
  tree (snd (Sync.collect (T := plain) cfg0 true world_free)) = tree0.
Proof.
  destruct (dry_run_is_read_only (T := plain) cfg0 true world_free)
    as ((Ha & _) & (Hc & _) & _).
  split; assumption.
Defined.

(** ** C3 *)

(** What [save] writes for three entries has no [entries] list; it is the
    nested document of [symlinks], [copies] and [platform] mappings. *)
Lemma save_writes_no_entries_list :
  fst (save manifest3 world_empty) = Ret tt /\
  disk (snd (save manifest3 world_empty)) = Some (Parsed (VDict written3)) /\
  py_in "entries" (VDict written3) = Ret false /\
  py_in "symlinks" (VDict written3) = Ret true.
Proof. vm_compute. repeat split; reflexivity. Qed.

Lemma save_writes_nested_shape_witness :
  exists data,
    disk (snd (save manifest3 world_empty)) = Some (Parsed (VDict data)) /\
    nested_shape data = true /\
    dict_get (VStr "entries") data = None.
Proof.
  apply (save_writes_nested_shape manifest3 world_empty).
  apply with_snd. vm_compute. reflexivity.
Defined.

(** ** C5 *)

(** C5 fails: on a malformed document [load] raises [AttributeError] or
    [YAMLError] (there is no [ConfigError]), and [apply] and [collect] end
    with that exception instead of going on with an empty manifest. *)
Lemma load_malformed_raises :
  load (Sync.files_yaml cfg0) (disk world_list) = Raise AttributeError /\
  load (Sync.files_yaml cfg0) (disk world_unparsable) = Raise YAMLError /\
  fst (Sync.apply (T := plain) cfg0 false false world_list) = Raise AttributeError /\
  console (snd (Sync.apply (T := plain) cfg0 false false world_list)) = [] /\
  fst (Sync.collect (T := plain) cfg0 false world_unparsable) = Raise YAMLError /\
  console (snd (Sync.collect (T := plain) cfg0 false world_unparsable)) = [].
Proof. vm_compute. repeat split; reflexivity. Qed.

Lemma load_failure_ends_command_witness :
  load (Sync.files_yaml cfg0) (disk world_unparsable) = Raise YAMLError /\
  (load (Sync.files_yaml cfg0) (disk world_list) = Raise TypeError \/
   load (Sync.files_yaml cfg0) (disk world_list) = Raise AttributeError) /\
  Sync.apply (T := plain) cfg0 true false world_unparsable
  = (Raise YAMLError, world_unparsable) /\
  Sync.collect (T := plain) cfg0 false world_unparsable
  = (Raise YAMLError, world_unparsable) /\
  Sync.apply (T := plain) cfg0 true false world_empty
  = say warn_no_files world_empty.
Proof.
  pose proof (load_failure_ends_command (T := plain) cfg0 true false
                                        world_unparsable) as Hu.
  pose proof (load_failure_ends_command (T := plain) cfg0 true false
                                        world_list) as Hl.
  pose proof (load_failure_ends_command (T := plain) cfg0 true false
                                        world_empty) as He.
  cbv zeta in Hu, Hl, He.
  destruct Hu as (Hu & _ & Hr & _). destruct Hl as (_ & Hl & _).
  destruct He as (_ & _ & _ & He).
  split; [now apply Hu|]. split.
  - apply (Hl _ eq_refl); [reflexivity|discriminate].
  - destruct (Hr YAMLError (Hu eq_refl)) as [Ha Hc].
    split; [exact Ha|]. split; [exact Hc|].
    now apply He; left.
Defined.

(** ** C8 *)

Lemma add_is_upsert_witness :
  let m' :=
    added (Path_of_string "files/nvim2") dest_nvim (VStr "symlink")
          (VStr "linux") manifest2 world_empty in
  length (entries m') = 2 /\ NoDup (map Manifest.dest (entries m')).
Proof.
  cbv zeta.
  destruct (add_is_upsert (Path_of_string "files/nvim2") dest_nvim
                          (VStr "symlink") (VStr "linux") manifest2 world_empty)
    as [Hin Hnd].
  split.
  - apply (Hin e_nvim); [|reflexivity].
    apply elem_of_cons. right. apply elem_of_cons. now left.
  - apply Hnd. apply (bool_decide_unpack _). vm_compute. exact I.
Defined.

(** ** C10 *)

Lemma remove_untracked_witness :
  remove (Path_of_string ".zshrc") manifest2 world_empty
  = (Ret false, manifest2, world_empty) /\
  fst (remove dest_nvim manifest2 world_empty)
  = (Ret true, mkManifest [e_git] (Sync.files_yaml cfg0)) /\
  disk (snd (remove dest_nvim manifest2 world_empty))
  = Some (Parsed (VDict [(VStr "symlinks",
                          VDict [(VStr "files/gitconfig", VStr ".gitconfig")])])).
Proof.
  destruct (remove_untracked (Path_of_string ".zshrc") manifest2 world_empty)
    as [Hu _].
  destruct (remove_untracked dest_nvim manifest2 world_empty) as (_ & Ht & _).
  split.
  - apply Hu. intros e He. apply elem_of_cons in He as [->|He]; [discriminate|].
    apply elem_of_cons in He as [->|He]; [discriminate|].
    now apply elem_of_nil in He.
  - destruct (Ht [e_git] e_nvim [] eq_refl eq_refl) as (data & D & E & _).
    + repeat constructor. discriminate.
    + repeat constructor.
    + injection D as <-. rewrite E.
      assert (fst (mkdir_parents (parent (path manifest2)) (tree world_empty))
              = Ret tt) as Mk by (vm_compute; reflexivity).
      destruct (mkdir_parents _ _) as [r fs]. cbn [fst] in Mk. subst r.
      split; reflexivity.
Defined.

End Cases.

(** * Further facts *)

(** ** Looking an entry up after [add] and [remove] *)

Module LookupFacts.
Import Manifest Shape ManifestFacts.

Lemma find_app_cases {A} (f : A -> bool) l1 l2 :
  List.find f (l1 ++ l2) =
  match List.find f l1 with Some x => Some x | None => List.find f l2 end.
Proof.
  induction l1 as [|x l1 IH]; simpl; [reflexivity|].
  now destruct (f x).
Qed.

Lemma find_none_dest d l :
  Forall (fun x => Manifest.dest x <> d) l ->
  List.find (fun entry => bool_decide (Manifest.dest entry = d)) l = None.
Proof.
  induction 1 as [|x l Hx _ IH]; simpl; [reflexivity|].
  now rewrite bool_decide_eq_false_2.
Qed.

(** X1.  [find_by_dest] right after [add]: the entry just given is found under
    its [dest], and what is found under any other [dest] is as before. *)
Theorem find_by_dest_after_add (source dest : Path) (type platform : value)
    (m : Manifest) (w : World) :
  let m' := added source dest type platform m w in
  find_by_dest dest m' = Some (mkEntry source dest type platform) /\
  forall d, d <> dest -> find_by_dest d m' = find_by_dest d m.
Proof.
  cbv zeta. unfold find_by_dest. rewrite added_entries.
  destruct (update source dest type platform (entries m)) as [l|] eqn:U.
  - destruct (update_Some _ _ _ _ _ _ U) as (l1 & e & l2 & Hm & Hd & Hf & ->).
    split.
    + rewrite find_app_cases, (find_none_dest _ _ Hf). simpl.
      now rewrite bool_decide_eq_true_2.
    + intros d Hne. rewrite Hm, !find_app_cases. simpl.
      rewrite Hd, !(bool_decide_eq_false_2 (dest = d)) by congruence.
      reflexivity.
  - apply update_None in U. split.
    + rewrite find_app_cases, (find_none_dest _ _ U). simpl.
      now rewrite bool_decide_eq_true_2.
    + intros d Hne. rewrite find_app_cases. simpl.
      rewrite (bool_decide_eq_false_2 (dest = d)) by congruence.
      now destruct (List.find _ (entries m)).
Qed.

(** X2.  [remove] of a tracked [dest] takes one entry out, whether or not the
    document could then be written; what is found under any other [dest]
    is as before, and when the [dest]s were pairwise different nothing is
    found under the removed one. *)
Theorem find_by_dest_after_remove (dest : Path) (m m' : Manifest)
    (w w' : World) (r : res bool) :
  (exists e, e ∈ entries m /\ Manifest.dest e = dest) ->
  remove dest m w = (r, m', w') ->
  length (entries m) = S (length (entries m')) /\
  (forall d, d <> dest -> find_by_dest d m' = find_by_dest d m) /\
  (NoDup (map Manifest.dest (entries m)) -> find_by_dest dest m' = None).
Proof.
  intros (e0 & Hin & Hd0). unfold remove.
  destruct (pop_dest dest (entries m)) as [l|] eqn:P.
  - destruct (pop_dest_Some _ _ _ P) as (l1 & e & l2 & Hm & Hd & Hf & ->).
    intros H.
    assert (entries m' = l1 ++ l2) as Hm'.
    { destruct (save _ w) as [[[]|?] ?]; injection H as _ <- _; reflexivity. }
    unfold find_by_dest. rewrite Hm', Hm. split; [|split].
    + rewrite !length_app. simpl. lia.
    + intros d Hne. rewrite !find_app_cases. simpl.
      rewrite Hd, (bool_decide_eq_false_2 (dest = d)) by congruence.
      reflexivity.
    + rewrite map_app. simpl. intros Hnd.
      apply NoDup_app in Hnd as (_ & _ & Hnd). apply NoDup_cons in Hnd as [Hn _].
      rewrite find_app_cases, (find_none_dest _ _ Hf).
      apply find_none_dest. apply Forall_forall. intros x Hx Hxd.
      apply Hn. rewrite Hd, <- Hxd. apply list_elem_of_fmap. now exists x.
  - apply pop_dest_None in P. rewrite Forall_forall in P.
    now destruct (P e0 Hin).
Qed.

End LookupFacts.

(** ** What [check] says and what [create] does *)

Module StatusFacts.
Import Resolution Conditions FsFacts ReconcileFacts.
Section StatusFacts.

Context {T : TreeOps} {D : Status.DirCmp} (home : apath).

Lemma check_symlink_unfold (source : apath) (dest : Path) (fs : FS) :
  Linker.check_symlink home source dest fs =
  (Ret (if negb (exists_ fs (under home dest) || is_symlink fs (under home dest))
        then "missing"
        else if negb (is_symlink fs (under home dest)) then "conflict"
        else if bool_decide (fst (canon fs (under home dest)) = fst (canon fs source))
             then "ok" else "wrong"), fs).
Proof.
  unfold Linker.check_symlink, bind, ask, except_OSError, lift, resolve, ret.
  destruct (exists_ fs _ || is_symlink fs _);
    cbv beta iota delta [negb]; [|reflexivity].
  destruct (is_symlink fs _); cbv beta iota delta [negb]; [|reflexivity].
  now destruct (bool_decide _).
Qed.

(** [check] only reads the tree. *)
Lemma check_reads (link : bool) (source : apath) (dest : Path) (fs : FS) :
  snd (Status.check home link source dest fs) = fs.
Proof.
  destruct link; simpl.
  - now rewrite check_symlink_unfold.
  - unfold Status.check_copy, bind, ask, lift, ret.
    destruct (exists_ fs _); cbv beta iota delta [negb]; [|reflexivity].
    destruct (is_file fs source && is_file fs _); cbv beta iota.
    + destruct (filecmp_cmp fs source _) as [[]|]; reflexivity.
    + destruct (is_dir fs source && is_dir fs _); cbv beta iota; [|reflexivity].
      destruct (Status.dircmp fs source _) as [[[df lo] ro]|]; [|reflexivity].
      now destruct (Status.is_empty df && Status.is_empty lo && Status.is_empty ro).
Qed.

(** What a successful [create_symlink] leaves at the destination. *)
Lemma create_symlink_links (source : apath) (dest : Path)
    (backup_dir : option apath) (fs fs1 : FS) (st : string) :
  exists_ fs source = true ->
  Linker.create_symlink home source dest false backup_dir fs
  = (Ret (true, st), fs1) ->
  is_symlink fs1 (under home dest) = true /\
  fst (canon fs1 (under home dest)) = fst (canon fs1 source).
Proof.
  intros Hsrc H. unfold Linker.create_symlink, bind, ask in H.
  destruct (mkdir_parents _ fs) as [[[]|e] fs'] eqn:Mk; [|discriminate].
  apply mkdir_parents_Ret in Mk as [Hsub Dp]. cbv beta iota in H.
  destruct (exists_ fs' (under home dest) || is_symlink fs' (under home dest))
    eqn:P; cbv beta iota in H.
  - destruct (is_symlink fs' (under home dest)) eqn:L; [|discriminate].
    rewrite points_to_spec in H. case_bool_decide as Heq; [|discriminate].
    injection H as _ <-. now split.
  - unfold ret in H.
    destruct (symlink_to _ source fs') as [[[]|e] fs2] eqn:Sy; [|discriminate].
    injection H as _ <-.
    destruct (symlink_to_points _ _ _ _ _ Hsub Hsrc Sy) as (_ & _ & L2 & E2).
    now split.
Qed.

(** What a successful [copy_file] of a regular file leaves at the
    destination. *)
Lemma copy_file_copies (source : apath) (dest : Path)
    (backup_dir : option apath) (fs fs1 : FS) (st : string) :
  is_file fs source = true ->
  Copier.copy_file home source dest false backup_dir fs = (Ret (true, st), fs1) ->
  exists m1 m2 b,
    stat fs1 (under home dest) = Some (File m1 b) /\
    stat fs1 source = Some (File m2 b).
Proof.
  intros Hsrc H. unfold Copier.copy_file, bind, ask, lift in H.
  destruct (mkdir_parents _ fs) as [[[]|e] fs'] eqn:Mk; [|discriminate].
  apply mkdir_parents_Ret in Mk as [Hsub Dp]. cbv beta iota in H.
  assert (exists m b, stat fs source = Some (File m b)) as (m & b & Ss).
  { unfold is_file in Hsrc. destruct (stat fs source) as [[m b| |]|];
      try discriminate. now exists m, b. }
  pose proof (stat_weaken _ _ _ _ Hsub Ss) as Ss'.
  destruct (exists_ fs' (under home dest)) eqn:P; cbv beta iota in H.
  - destruct (is_file fs' (under home dest) && is_file fs' source) eqn:F;
      [|discriminate].
    destruct (filecmp_files _ _ _ F) as (m1 & m2 & x & y & Sa & Sb & C).
    rewrite C in H. case_bool_decide as Heq; [|discriminate].
    injection H as _ <-. subst y. now exists m2, m1, x.
  - simpl in H.
    assert (is_dir fs' source = false) as Ds
        by (unfold is_dir; now rewrite Ss').
    rewrite Ds in H.
    destruct (copy2 source _ fs') as [[[]|e] fs2] eqn:C2; [|discriminate].
    apply (copy2_fresh _ _ _ _ _ _ Ss' P) in C2 as (c & Ow & ->).
    assert (exists m', fs1 = <[c := File m' b]> fs') as [m' ->].
    { destruct (Copier._is_sensitive dest).
      - rewrite (chmod_created _ _ _ _ _ _ Ow) in H.
        injection H as _ <-. now exists 384%N.
      - injection H as _ <-. now exists m. }
    destruct (stat_created fs' _ c (File m' b) I Ow) as [Hsub3 Sd3].
    exists m', m, b. split; [exact Sd3|].
    eapply stat_weaken; [|exact Ss']. exact Hsub3.
Qed.

(** [check_copy] on two regular files with the same bytes. *)
Lemma check_copy_same (source : apath) (dest : Path) (fs : FS) m1 m2 b :
  stat fs (under home dest) = Some (File m1 b) ->
  stat fs source = Some (File m2 b) ->
  Status.check_copy home source dest fs = (Ret "ok", fs).
Proof.
  intros Sd Ss. unfold Status.check_copy, bind, ask, lift, ret.
  unfold exists_, is_file, filecmp_cmp.
  repeat (first [rewrite Sd | rewrite Ss]; simpl).
  now rewrite bool_decide_eq_true_2.
Qed.

(** X3.  Right after a [create] without [force] that succeeded, [check] answers
    ["ok"]: for a symlink entry whose source exists, and for a copy entry
    whose source is a regular file. *)
Theorem check_after_create (link : bool) (source : apath) (dest : Path)
    (backup_dir : option apath) (fs fs1 : FS) (st : string) :
  (if link then exists_ fs source else is_file fs source) = true ->
  Reconcile.create home link source dest false backup_dir fs
  = (Ret (true, st), fs1) ->
  Status.check home link source dest fs1 = (Ret "ok", fs1).
Proof.
  destruct link; simpl; intros Hsrc H.
  - destruct (create_symlink_links _ _ _ _ _ _ Hsrc H) as [L E].
    rewrite check_symlink_unfold, L, orb_true_r. simpl.
    now rewrite bool_decide_eq_true_2.
  - destruct (copy_file_copies _ _ _ _ _ _ Hsrc H) as (m1 & m2 & b & Sd & Ss).
    now apply (check_copy_same _ _ _ m1 m2 b).
Qed.

Lemma create_symlink_conflict (source : apath) (dest : Path)
    (backup_dir : option apath) (fs : FS) :
  exists_ fs (under home dest) || is_symlink fs (under home dest) = true ->
  is_symlink fs (under home dest)
  && bool_decide (fst (canon fs (under home dest)) = fst (canon fs source))
  = false ->
  Linker.create_symlink home source dest false backup_dir fs
  = (Ret (false, "conflict"), fs).
Proof.
  intros P N. unfold Linker.create_symlink, bind, ask.
  rewrite (mkdir_parents_noop _ _ (present_parent_dir _ _ P)), P.
  cbv beta iota.
  destruct (is_symlink fs (under home dest)); [|reflexivity].
  rewrite points_to_spec. simpl in N. now rewrite N.
Qed.

Lemma copy_file_conflict (source : apath) (dest : Path)
    (backup_dir : option apath) (fs : FS) :
  exists_ fs (under home dest) = true ->
  (is_file fs (under home dest) && is_file fs source = true ->
   filecmp_cmp fs source (under home dest) = Ret false) ->
  Copier.copy_file home source dest false backup_dir fs
  = (Ret (false, "conflict"), fs).
Proof.
  intros P N. unfold Copier.copy_file, bind, ask, lift.
  assert (is_dir fs (parent (under home dest)) = true) as Dp.
  { unfold exists_ in P. destruct (stat fs (under home dest)) eqn:S;
      [|discriminate]. now destruct (stat_parent_dir _ _ _ S). }
  rewrite (mkdir_parents_noop _ _ Dp), P. cbv beta iota.
  destruct (is_file fs (under home dest) && is_file fs source); [|reflexivity].
  now rewrite N.
Qed.

(** X4.  What [check] says tells what [create] without [force] does on the
    same tree.  On ["ok"] it changes nothing and answers [(True, "ok")]
    (for a copy entry when the source is a regular file); on any answer
    but ["ok"] and ["missing"] it changes nothing and answers
    [(False, "conflict")], and so it does for a copy entry whose source is
    no regular file whenever the destination is there, also when
    [check_copy] found the two directories equal. *)
Theorem check_predicts_create (link : bool) (source : apath) (dest : Path)
    (backup_dir : option apath) (fs : FS) (st : string) :
  fst (Status.check home link source dest fs) = Ret st ->
  (st = "ok" -> (if link then true else is_file fs source) = true ->
   Reconcile.create home link source dest false backup_dir fs
   = (Ret (true, "ok"), fs)) /\
  (st <> "ok" -> st <> "missing" ->
   Reconcile.create home link source dest false backup_dir fs
   = (Ret (false, "conflict"), fs)) /\
  (link = false -> is_file fs source = false -> st <> "missing" ->
   Reconcile.create home link source dest false backup_dir fs
   = (Ret (false, "conflict"), fs)).
Proof.
  destruct link; simpl.
  - rewrite check_symlink_unfold. simpl.
    destruct (exists_ fs (under home dest) || is_symlink fs (under home dest))
      eqn:P; simpl.
    + destruct (is_symlink fs (under home dest)) eqn:L; simpl.
      * case_bool_decide as E; intros [= <-]; (split; [|split]);
          intros; try congruence; try discriminate.
        -- apply create_symlink_settled; auto.
           apply present_parent_dir. now rewrite L, orb_true_r.
        -- apply create_symlink_conflict; [now rewrite L, orb_true_r|].
           rewrite L. now rewrite bool_decide_eq_false_2.
      * intros [= <-]. (split; [|split]); intros; try discriminate.
        apply create_symlink_conflict; [now rewrite L|]. now rewrite L.
    + intros [= <-]. (split; [|split]); intros; try discriminate; congruence.
  - unfold Status.check_copy, bind, ask, lift, ret.
    destruct (exists_ fs (under home dest)) eqn:P; cbv beta iota delta [negb].
    2:{ simpl. intros [= <-]. (split; [|split]); intros; congruence. }
    destruct (is_file fs source && is_file fs (under home dest)) eqn:F;
      cbv beta iota.
    + apply andb_true_iff in F as [Fs Fd].
      assert (is_file fs (under home dest) && is_file fs source = true) as F'
          by now rewrite Fs, Fd.
      destruct (filecmp_files _ _ _ F') as (m1 & m2 & x & y & Sa & Sb & C).
      rewrite C. case_bool_decide as E; simpl; intros [= <-];
        (split; [|split]); intros; try congruence.
      * subst y. now apply (copy_file_settled _ _ _ _ _ m2 m1 x).
      * apply copy_file_conflict; [exact P|]. intros _. exact C.
    + intros Hst. (split; [|split]).
      * intros -> Fs. rewrite Fs in F. simpl in F.
        exfalso. revert Hst.
        destruct (is_dir fs source && is_dir fs (under home dest)) eqn:Dd.
        -- apply andb_true_iff in Dd as [Ds _]. unfold is_dir in Ds.
           unfold is_file in Fs. destruct (stat fs source) as [[]|]; discriminate.
        -- simpl. discriminate.
      * intros _ _. apply copy_file_conflict; [exact P|]. intros F'.
        rewrite andb_comm in F'. congruence.
      * intros _ _ _. apply copy_file_conflict; [exact P|]. intros F'.
        rewrite andb_comm in F'. congruence.
Qed.

End StatusFacts.
End StatusFacts.

(** ** Resolution in a well-formed tree *)

Module WfFacts.
Import Resolution WellFormed FsFacts.

Lemma good_nil (fs : FS) : good fs [].
Proof. exists Dir. now split. Qed.

Lemma good_dir (fs : FS) p : is_dir_at fs p = true -> good fs p.
Proof.
  unfold is_dir_at. intros H. exists Dir.
  destruct (node_at fs p) as [[]|]; try discriminate. now split.
Qed.

Lemma wf_parent (fs : FS) k n :
  wf fs -> fs !! k = Some n -> is_dir_at fs (removelast k) = true.
Proof. intros W H. now destruct (W k n H). Qed.

Lemma wf_up (fs : FS) cur :
  wf fs -> is_dir_at fs cur = true -> is_dir_at fs (removelast cur) = true.
Proof.
  intros W H. destruct cur as [|c cur]; [exact H|].
  unfold is_dir_at, node_at in H.
  destruct (fs !! (c :: cur)) as [n|] eqn:E; [|discriminate].
  exact (wf_parent _ _ _ W E).
Qed.

Section Walk.

Variable follow : list apath -> apath -> Path -> apath * wstatus.
Variable fs : FS.
Hypothesis Hwf : wf fs.
Hypothesis Hfollow :
  forall seen base t r,
    good fs base -> follow seen base t = (r, Found) -> good fs r.

Lemma walkc_good todo :
  forall seen cur r,
    good fs cur ->
    walkc follow fs seen cur Found todo = (r, Found) -> good fs r.
Proof.
  induction todo as [|c rest IH]; intros seen cur r G; simpl.
  - now intros [= <-].
  - destruct (decide (c = "..")) as [->|Hc].
    + intros H. pose proof (walkc_Found _ _ _ _ _ _ _ H) as St.
      destruct (is_dir_at fs cur) eqn:Dc; [|discriminate].
      simpl in H. eapply IH; [|exact H]. apply good_dir. now apply wf_up.
    + destruct (child fs cur c) as [[m b| |t]|] eqn:Ch.
      * intros H. eapply IH; [|exact H].
        apply child_Some in Ch as [_ Ch]. exists (File m b).
        now rewrite node_at_snoc.
      * intros H. eapply IH; [|exact H].
        apply child_Some in Ch as [_ Ch]. exists Dir.
        now rewrite node_at_snoc.
      * destruct (decide (cur ++ [c] ∈ seen)).
        -- intros H. apply walkc_Found in H. discriminate.
        -- destruct (follow _ _ t) as [p s] eqn:F. intros H.
           pose proof (walkc_Found _ _ _ _ _ _ _ H) as St.
           destruct s; try discriminate.
           eapply IH; [|exact H]. eapply Hfollow; [|exact F].
           destruct (is_absolute t); [apply good_nil|].
           apply good_dir. now apply child_Some in Ch as [Ch _].
      * intros H. apply walkc_Found in H.
        destruct (is_dir_at fs cur); discriminate.
Qed.

End Walk.

Lemma realpath_good (fs : FS) :
  wf fs ->
  forall d seen cur todo r,
    good fs cur -> realpath d fs seen cur todo = (r, Found) -> good fs r.
Proof.
  intros W. induction d as [|d IH]; intros seen cur todo r G;
    rewrite realpath_eq; apply walkc_good; auto.
  - intros ? ? ? ? _ F. discriminate.
  - intros seen' base t r' G' F. simpl in F. revert F. now apply IH.
Qed.

(** In a well-formed tree a path never leads to a link: what [stat] finds
    is a file or a directory. *)
Lemma wf_canon_good (fs : FS) p r :
  wf fs -> canon fs p = (r, Found) -> good fs r.
Proof. intros W. apply realpath_good; [exact W | apply good_nil]. Qed.



End WfFacts.

(** ** When [collect] raises *)

Module CollectFacts.
Import Resolution WellFormed FsFacts WfFacts SyncFacts.
Section CollectFacts.

Context {T : TreeOps} (cfg : Sync.Config).

Lemma read_bytes_dir (fs : FS) p :
  is_dir fs p = true -> read_bytes fs p = Raise IsADirectoryError.
Proof.
  unfold is_dir, stat, read_bytes, open_read.
  destruct (canon fs p) as [c []]; try discriminate.
  now destruct (node_at fs c) as [[]|].
Qed.


Local Arguments Sync.collect_copy : simpl never.


End CollectFacts.
End CollectFacts.

(** ** Removing a link *)

Module LinkerFacts.
Import Resolution Conditions FsFacts ReconcileFacts.
Section LinkerFacts.

Context {T : TreeOps} (home : apath).

(** Where [locate] found a link. *)
Lemma is_symlink_locate (fs : FS) p :
  is_symlink fs p = true ->
  exists k t, locate fs p = (k, Found) /\ fs !! k = Some (Link t) /\ k <> [].
Proof.
  unfold is_symlink, lstat. destruct (locate fs p) as [k []]; try discriminate.
  destruct k as [|c k]; [discriminate|]. simpl.
  destruct (fs !! (c :: k)) as [[]|] eqn:E; try discriminate.
  intros _. now exists (c :: k), target.
Qed.

Lemma canon_deleted (fs : FS) k q cq st :
  canon fs q = (cq, st) ->
  snd (canon (delete k fs) q) = Found -> canon (delete k fs) q = (cq, Found).
Proof.
  intros Eq. destruct (canon (delete k fs) q) as [cq' st'] eqn:Eq'. simpl.
  intros ->. pose proof (canon_weaken _ fs _ _ (delete_subseteq _ _) Eq') as E.
  rewrite Eq in E. now injection E as -> _.
Qed.

(** Once what [locate] found is taken out of the tree, the path leads
    nowhere. *)
Lemma lstat_deleted (fs : FS) p k :
  k <> [] -> locate fs p = (k, Found) -> lstat (delete k fs) p = None.
Proof.
  intros Hk. unfold lstat, locate.
  destruct (unsnoc p) as [[q c]|] eqn:U; [|now intros [= <-]].
  destruct (canon fs q) as [cq st] eqn:Eq.
  destruct (canon (delete k fs) q) as [cq' st'] eqn:Eq'.
  destruct (decide (st' = Found)) as [->|Hst].
  - pose proof (canon_deleted fs k q cq st Eq) as E. rewrite Eq' in E.
    specialize (E eq_refl). injection E as ->.
    destruct (decide (c = "..")).
    + intros [= <- _]. simpl.
      destruct (is_dir_at _ cq); [|reflexivity].
      destruct (removelast cq) eqn:R; [contradiction|].
      simpl. apply lookup_delete_eq.
    + intros [= <- _]. unfold child.
      rewrite lookup_delete_eq. simpl.
      now destruct (is_dir_at _ cq).
  - intros _.
    assert (forall s, after st' s <> Found) as Ha
        by (intros s Hs; now apply after_Found in Hs as [? _]).
    destruct (decide (c = "..")).
    + destruct (after st' _) eqn:A; try reflexivity. now apply Ha in A.
    + destruct (after st' _) eqn:A; try reflexivity. now apply Ha in A.
Qed.

Lemma stat_deleted (fs : FS) p k :
  k <> [] -> locate fs p = (k, Found) -> stat (delete k fs) p = None.
Proof.
  intros Hk. unfold locate.
  destruct (unsnoc p) as [[q c]|] eqn:U; [|now intros [= <-]].
  apply unsnoc_Some in U as ->.
  destruct (canon fs q) as [cq st] eqn:Eq. unfold stat.
  rewrite canon_snoc.
  destruct (canon (delete k fs) q) as [cq' st'] eqn:Eq'.
  destruct (decide (st' = Found)) as [->|Hst].
  - pose proof (canon_deleted fs k q cq st Eq) as E. rewrite Eq' in E.
    specialize (E eq_refl). injection E as ->. simpl.
    destruct (decide (c = "..")).
    + intros [= <- _].
      destruct (is_dir_at _ cq); [|reflexivity]. simpl.
      destruct (removelast cq) eqn:R; [contradiction|].
      simpl. apply lookup_delete_eq.
    + intros [= <- _]. unfold child. rewrite lookup_delete_eq.
      now destruct (is_dir_at _ cq).
  - intros _.
    destruct (walkc _ _ _ _ _ _) as [r s] eqn:Wk.
    destruct s; try reflexivity.
    apply walkc_Found in Wk. contradiction.
Qed.

(** X6.  [remove_symlink] takes out a symbolic link and nothing else: where
    the destination is no link (a regular file, a directory, nothing) it
    answers [False] and changes nothing; where it is a link it answers
    [True], the link is the one entry taken out of the tree, and the
    destination then leads nowhere. *)
Theorem remove_symlink_only_links (dest : Path) (fs : FS) :
  (is_symlink fs (under home dest) = false ->
   Linker.remove_symlink home dest fs = (Ret false, fs)) /\
  (is_symlink fs (under home dest) = true ->
   exists k t,
     fs !! k = Some (Link t) /\
     Linker.remove_symlink home dest fs = (Ret true, delete k fs) /\
     lstat (delete k fs) (under home dest) = None /\
     exists_ (delete k fs) (under home dest) = false).
Proof.
  unfold Linker.remove_symlink, bind, ask, ret. split; intros L; rewrite L.
  - reflexivity.
  - destruct (is_symlink_locate _ _ L) as (k & t & Lo & Hk & Hne).
    exists k, t. split; [exact Hk|]. split; [|split].
    + unfold unlink. rewrite Lo.
      destruct k as [|c k]; [contradiction|]. simpl. now rewrite Hk.
    + now apply lstat_deleted.
    + unfold exists_. now rewrite (stat_deleted _ _ _ Hne Lo).
Qed.

(** X7.  A link that [create_symlink] made is taken back by [remove_symlink]:
    the tree is again as it was once the parent directories of the
    destination were made, and as it was before when they were there
    already. *)
Theorem create_then_remove_symlink (source : apath) (dest : Path)
    (backup_dir : option apath) (fs fs1 : FS) :
  Linker.create_symlink home source dest false backup_dir fs
  = (Ret (true, "created"), fs1) ->
  exists fs',
    mkdir_parents (parent (under home dest)) fs = (Ret tt, fs') /\
    (is_dir fs (parent (under home dest)) = true -> fs' = fs) /\
    Linker.remove_symlink home dest fs1 = (Ret true, fs').
Proof.
  intros H. unfold Linker.create_symlink, bind, ask in H.
  destruct (mkdir_parents _ fs) as [[[]|e] fs'] eqn:Mk; [|discriminate].
  exists fs'. split; [reflexivity|]. split.
  { intros Dp. rewrite (mkdir_parents_noop _ _ Dp) in Mk. now injection Mk. }
  cbv beta iota in H.
  destruct (exists_ fs' (under home dest) || is_symlink fs' (under home dest))
    eqn:P; cbv beta iota in H.
  { destruct (is_symlink fs' (under home dest)); [|discriminate].
    rewrite points_to_spec in H. now destruct (bool_decide _). }
  unfold ret, symlink_to in H.
  destruct (locate fs' (under home dest)) as [k st] eqn:Lo.
  destruct st; try discriminate. injection H as <-.
  apply locate_Creatable_inv in Lo as (q & c & cq & Hp & Hc & Eq & D & -> & Hk).
  set (fs1 := <[cq ++ [c] := Link (absolute source)]> fs').
  assert (fs' ⊆ fs1) as Hsub by (now apply insert_subseteq).
  pose proof (canon_weaken _ _ _ _ Hsub Eq) as Eq1.
  pose proof (is_dir_at_weaken _ _ _ Hsub D) as D1.
  assert (locate fs1 (under home dest) = (cq ++ [c], Found)) as Lo1.
  { rewrite Hp. unfold locate. rewrite unsnoc_snoc, Eq1.
    destruct (decide (c = "..")); [contradiction|].
    unfold child. rewrite D1. unfold fs1 at 1. now rewrite lookup_insert_eq. }
  unfold Linker.remove_symlink, bind, ask, ret.
  assert (is_symlink fs1 (under home dest) = true) as ->.
  { unfold is_symlink, lstat. rewrite Lo1, node_at_snoc. unfold fs1.
    now rewrite lookup_insert_eq. }
  unfold unlink. rewrite Lo1, node_at_snoc. unfold fs1 at 1.
  rewrite lookup_insert_eq. unfold fs1.
  now rewrite delete_insert_eq, delete_id by exact Hk.
Qed.

End LinkerFacts.
End LinkerFacts.

(** ** What [create] without [force] leaves alone *)

Module FrameFacts.
Import Resolution Conditions WellFormed FsFacts WfFacts ReconcileFacts.
Section FrameFacts.

Context {T : TreeOps} (home : apath).

(** A path with nothing at it, in a directory that is there, is one where
    the last name can be created. *)
Lemma free_Creatable (fs : FS) p :
  wf fs -> is_dir fs (parent p) = true ->
  exists_ fs p = false -> is_symlink fs p = false ->
  exists k, locate fs p = (k, Creatable).
Proof.
  intros W Dp Ex Ls. unfold locate.
  destruct (unsnoc p) as [[q c]|] eqn:U.
  2:{ apply unsnoc_None in U as ->. unfold exists_, stat in Ex.
      rewrite canon_nil in Ex. discriminate. }
  apply unsnoc_Some in U as ->. rewrite parent_snoc in Dp.
  assert (exists cq, canon fs q = (cq, Found) /\ is_dir_at fs cq = true)
    as (cq & Eq & Dq).
  { unfold is_dir, stat in Dp. destruct (canon fs q) as [cq []]; try discriminate.
    exists cq. split; [reflexivity|]. unfold is_dir_at.
    now destruct (node_at fs cq) as [[]|]. }
  rewrite Eq. unfold exists_, stat in Ex. rewrite canon_snoc, Eq in Ex.
  simpl in Ex.
  unfold is_symlink, lstat, locate in Ls. rewrite unsnoc_snoc, Eq in Ls.
  destruct (decide (c = "..")) as [->|Hc].
  - rewrite Dq in Ex. simpl in Ex.
    pose proof (wf_up _ _ W Dq) as Du. unfold is_dir_at in Du.
    destruct (node_at fs (removelast cq)); discriminate.
  - destruct (child fs cq c) as [n|] eqn:Ch.
    + exfalso. pose proof Ch as Ch'. apply child_Some in Ch' as [_ Hn].
      simpl in Ls. rewrite node_at_snoc, Hn in Ls.
      destruct n as [m b| |t]; try discriminate;
        simpl in Ex; rewrite node_at_snoc, Hn in Ex; discriminate.
    + rewrite Dq. now exists (cq ++ [c]).
Qed.

Lemma copy2_extends (fs fs' : FS) src d r :
  exists_ fs d = false -> copy2 src d fs = (r, fs') -> fs ⊆ fs'.
Proof.
  intros P. unfold copy2.
  assert (is_dir fs d = false) as ->.
  { unfold is_dir. unfold exists_ in P. now destruct (stat fs d). }
  destruct (samefile fs src d); [now intros [= _ <-]|].
  destruct (open_read fs src) as [[m b]|e]; [|now intros [= _ <-]].
  destruct (open_write fs d) as [c|e] eqn:Ow; [|now intros [= _ <-]].
  apply (open_write_fresh _ _ _ P) in Ow.
  destruct (canon_create _ _ _ (File m b) I Ow) as (Hc & _ & _).
  intros [= _ <-]. now apply insert_subseteq.
Qed.

(** X8.  [copy_file] to a free destination in a directory that is there: the
    destination becomes a regular file with the bytes of the source, with
    the mode of the source or, for a destination whose text holds one of
    the sensitive words, with mode [0o600]; no other entry of the tree
    changes. *)
Theorem copy_file_fresh (source : apath) (dest : Path) (force : bool)
    (backup_dir : option apath) (fs : FS) (m : N) (b : string) :
  wf fs ->
  stat fs source = Some (File m b) ->
  is_dir fs (parent (under home dest)) = true ->
  exists_ fs (under home dest) = false ->
  is_symlink fs (under home dest) = false ->
  let mode := if Copier._is_sensitive dest then 384%N else m in
  exists k,
    fs !! k = None /\
    Copier.copy_file home source dest force backup_dir fs
    = (Ret (true, "copied"), <[k := File mode b]> fs) /\
    stat (<[k := File mode b]> fs) (under home dest) = Some (File mode b).
Proof.
  intros W Ss Dp Ex Ls mode.
  destruct (free_Creatable _ _ W Dp Ex Ls) as [k Lo].
  apply locate_Creatable in Lo as [Ec _].
  destruct (canon_create _ _ _ (File mode b) I Ec) as (Hk & _ & _).
  exists k. split; [exact Hk|]. split.
  - unfold Copier.copy_file, bind, ask, lift.
    rewrite (mkdir_parents_noop _ _ Dp), Ex. unfold ret. cbv beta iota.
    assert (is_dir fs source = false) as ->
        by (unfold is_dir; now rewrite Ss).
    assert (copy2 source (under home dest) fs = (Ret tt, <[k := File m b]> fs))
      as ->.
    { unfold copy2.
      assert (is_dir fs (under home dest) = false) as ->.
      { unfold is_dir. unfold exists_ in Ex.
        now destruct (stat fs (under home dest)). }
      unfold samefile. rewrite Ec.
      assert (open_read fs source = Ret (m, b)) as ->.
      { unfold open_read. unfold stat in Ss.
        destruct (canon fs source) as [c st]. destruct st; try discriminate.
        now rewrite Ss. }
      unfold open_write. rewrite Ec.
      now destruct (canon fs source) as [? []]. }
    unfold mode. destruct (Copier._is_sensitive dest).
    + now rewrite (chmod_created _ _ _ _ _ _ Ec).
    + reflexivity.
  - now destruct (stat_created fs _ k (File mode b) I Ec).
Qed.

Lemma create_symlink_extends (source : apath) (dest : Path)
    (backup_dir : option apath) (fs fs' : FS) r :
  Linker.create_symlink home source dest false backup_dir fs = (r, fs') ->
  fs ⊆ fs'.
Proof.
  unfold Linker.create_symlink, bind, ask.
  destruct (mkdir_parents _ fs) as [[[]|e] fs1] eqn:Mk.
  2:{ intros [= _ <-]. now apply mkdir_parents_extends in Mk. }
  apply mkdir_parents_extends in Mk. cbv beta iota.
  destruct (exists_ fs1 (under home dest) || is_symlink fs1 (under home dest));
    cbv beta iota.
  - destruct (is_symlink fs1 (under home dest)).
    + rewrite points_to_spec.
      destruct (bool_decide _); now intros [= _ <-].
    + now intros [= _ <-].
  - unfold ret, symlink_to.
    destruct (locate fs1 (under home dest)) as [k st] eqn:Lo.
    destruct st; try now intros [= _ <-].
    apply locate_Creatable_inv in Lo as (_ & _ & _ & _ & _ & _ & _ & _ & Hk).
    intros [= _ <-]. etransitivity; [exact Mk|]. now apply insert_subseteq.
Qed.

Lemma copy_file_extends (source : apath) (dest : Path)
    (backup_dir : option apath) (fs fs' : FS) r :
  is_file fs source = true ->
  Copier.copy_file home source dest false backup_dir fs = (r, fs') ->
  fs ⊆ fs'.
Proof.
  intros Fs. unfold Copier.copy_file, bind, ask, lift.
  destruct (mkdir_parents _ fs) as [[[]|e] fs1] eqn:Mk.
  2:{ intros [= _ <-]. now apply mkdir_parents_extends in Mk. }
  apply mkdir_parents_extends in Mk. cbv beta iota.
  assert (exists m b, stat fs1 source = Some (File m b)) as (m & b & Ss).
  { unfold is_file in Fs. destruct (stat fs source) as [[m b| |]|] eqn:S;
      try discriminate. exists m, b. eapply stat_weaken; eauto. }
  destruct (exists_ fs1 (under home dest)) eqn:P; cbv beta iota.
  - destruct (is_file fs1 (under home dest) && is_file fs1 source).
    + destruct (filecmp_cmp fs1 source _) as [[]|]; now intros [= _ <-].
    + now intros [= _ <-].
  - simpl.
    assert (is_dir fs1 source = false) as ->
        by (unfold is_dir; now rewrite Ss).
    destruct (copy2 source _ fs1) as [[[]|e] fs2] eqn:C2.
    + apply (copy2_fresh _ _ _ _ _ _ Ss P) in C2 as (c & Ec & ->).
      destruct (canon_create _ _ _ (File m b) I Ec) as (Hc & _ & _).
      destruct (Copier._is_sensitive dest).
      * rewrite (chmod_created _ _ _ _ _ _ Ec). intros [= _ <-].
        etransitivity; [exact Mk|]. now apply insert_subseteq.
      * intros [= _ <-].
        etransitivity; [exact Mk|]. now apply insert_subseteq.
    + apply (copy2_extends _ _ _ _ _ P) in C2. intros [= _ <-].
      etransitivity; [exact Mk | exact C2].
Qed.

Lemma create_extends (link : bool) (source : apath)
    (dest : Path) (backup_dir : option apath) (fs fs' : FS)
    (r : res (bool * string)) :
  (link = false -> is_file fs source = true) ->
  Reconcile.create home link source dest false backup_dir fs = (r, fs') ->
  fs ⊆ fs'.
Proof.
  destruct link; simpl; intros Hs.
  - apply create_symlink_extends.
  - apply copy_file_extends. now apply Hs.
Qed.

(** X9.  Without [force], [create] takes nothing away and writes over nothing:
    whatever it answers or raises, every entry of the tree is afterwards
    what it was (for a copy entry when the source is a regular file). *)
Theorem create_without_force_extends (link : bool) (source : apath)
    (dest : Path) (backup_dir : option apath) (fs fs' : FS)
    (r : res (bool * string)) :
  (link = false -> is_file fs source = true) ->
  Reconcile.create home link source dest false backup_dir fs = (r, fs') ->
  forall k n, fs !! k = Some n -> fs' !! k = Some n.
Proof.
  intros Hs H k n Hk. eapply lookup_weaken; [exact Hk|].
  eapply create_extends; eauto.
Qed.

End FrameFacts.
End FrameFacts.

(** ** [apply], entry by entry *)

Module ApplyFacts.
Import Resolution Conditions Reports FsFacts ReconcileFacts FrameFacts SyncFacts.
Section ApplyFacts.

Context {T : TreeOps} (cfg : Sync.Config).

Lemma bind_Ret {A B} (m : M A) (k : A -> M B) (fs fs' : FS) b :
  bind m k fs = (Ret b, fs') ->
  exists a fs1, m fs = (Ret a, fs1) /\ k a fs1 = (Ret b, fs').
Proof.
  unfold bind. destruct (m fs) as [[a|e] fs1]; [|discriminate].
  intros H. now exists a, fs1.
Qed.

(** What the reconcilers answer: success, or a conflict when not forced. *)
Lemma create_outcome (link : bool) (source : apath) (dest : Path)
    (force : bool) (backup_dir : option apath) (fs fs' : FS) ok st :
  Reconcile.create (Sync.home cfg) link source dest force backup_dir fs
  = (Ret (ok, st), fs') ->
  ok = true \/ (ok = false /\ st = "conflict" /\ force = false).
Proof.
  destruct link; simpl; intros H.
  - unfold Linker.create_symlink in H.
    apply bind_Ret in H as (u & fs1 & _ & H).
    apply bind_Ret in H as (present & fs2 & _ & H).
    apply bind_Ret in H as (early & fs3 & He & H).
    destruct early as [r|].
    + injection H as -> _. destruct present; [|discriminate].
      apply bind_Ret in He as (link & ? & _ & He).
      apply bind_Ret in He as (already & ? & _ & He).
      destruct already; [injection He as <- _ _; now left|].
      destruct force; simpl in He.
      * apply bind_Ret in He as (? & ? & _ & He).
        apply bind_Ret in He as (? & ? & _ & He).
        apply bind_Ret in He as (? & ? & _ & He). discriminate.
      * injection He as <- <- _. now right.
    + apply bind_Ret in H as (? & ? & _ & H). injection H as <- _ _. now left.
  - unfold Copier.copy_file in H.
    apply bind_Ret in H as (u & fs1 & _ & H).
    apply bind_Ret in H as (present & fs2 & _ & H).
    apply bind_Ret in H as (early & fs3 & He & H).
    destruct early as [r|].
    + injection H as -> _. destruct present; [|discriminate].
      apply bind_Ret in He as (files & ? & _ & He).
      apply bind_Ret in He as (same & ? & _ & He).
      destruct same; [injection He as <- _ _; now left|].
      destruct force; simpl in He.
      * apply bind_Ret in He as (? & ? & _ & He). discriminate.
      * injection He as <- <- _. now right.
    + apply bind_Ret in H as (? & ? & _ & H).
      apply bind_Ret in H as (? & ? & _ & H).
      apply bind_Ret in H as (? & ? & _ & H).
      injection H as <- _ _. now left.
Qed.

Lemma apply_entry_line (force : bool) (backup_dir : option apath)
    (entry : Manifest.FileEntry) (c c' : Sync.Counts) (w w' : World) :
  Sync.apply_entry cfg force false backup_dir entry c w = (Ret c', w') ->
  exists l,
    applied_line entry l /\ total c' = S (total c) /\
    console w' = console w ++ [l] /\
    Sync.error_count c'
    = Sync.error_count c
      + (if exists_ (tree w) (Conditions.source_abs cfg entry) then 0 else 1).
Proof.
  unfold Sync.apply_entry, wbind, look, say, wret, on_tree, total,
    Conditions.source_abs.
  destruct (exists_ (tree w) _); cbn.
  - destruct (Reconcile.create _ _ _ _ _ _ _) as [[[ok st]|e] fs1] eqn:C;
      [|discriminate].
    destruct (create_outcome _ _ _ _ _ _ _ _ _ C) as [->|(-> & -> & ->)]; cbn.
    + intros [= <- <-]. cbn.
      exists (if String.eqb st "ok" then dim_already_ok (Manifest.dest entry)
              else success_dest (Manifest.dest entry)).
      repeat split; try lia. now destruct (String.eqb st "ok").
    + intros [= <- <-]. cbn. exists (warn_exists (Manifest.dest entry)).
      repeat split; lia.
  - intros [= <- <-]. cbn.
    exists (err_source_not_found (Manifest.dest entry) (Manifest.source entry)).
    repeat split; lia.
Qed.

Lemma apply_loop_lines (force : bool) (backup_dir : option apath)
    (l : list Manifest.FileEntry) :
  forall (c c' : Sync.Counts) (w w' : World),
    Sync.apply_loop cfg force false backup_dir l c w = (Ret c', w') ->
    exists lines,
      Forall2 applied_line l lines /\ total c' = total c + length l /\
      console w' = console w ++ lines.
Proof.
  induction l as [|entry l IH]; intros c c' w w'; simpl.
  - intros [= <- <-]. exists []. repeat split; [constructor | lia |].
    now rewrite app_nil_r.
  - unfold wbind at 1.
    destruct (Sync.apply_entry _ _ _ _ _ _ _) as [[c1|e] w1] eqn:E;
      [|discriminate].
    intros H. apply IH in H as (lines & Hl & Ht & Hc).
    apply apply_entry_line in E as (l1 & Hl1 & Ht1 & Hc1 & _).
    exists (l1 :: lines). repeat split; [now constructor | lia |].
    now rewrite Hc, Hc1, <- app_assoc.
Qed.

Lemma summary_then {A} (k : W A) (c : Sync.Counts) (w : World) :
  (do! say blank in
   do! when (Sync.positive (Sync.ok_count c))
            (say (success_applied (Sync.ok_count c))) in
   do! when (Sync.positive (Sync.skip_count c))
            (say (warn_skipped (Sync.skip_count c))) in
   do! when (Sync.positive (Sync.error_count c))
            (say (err_errors (Sync.error_count c))) in
   k) w
  = k (mkWorld (tree w) (disk w) (console w ++ summary c)).
Proof.
  unfold summary, wbind, when, say, wret.
  destruct (Sync.positive (Sync.ok_count c));
    destruct (Sync.positive (Sync.skip_count c));
    destruct (Sync.positive (Sync.error_count c)); cbn;
    rewrite <- ?app_assoc, ?app_nil_r; try reflexivity.
Qed.

(** X10.  When [apply] (not a dry run) returns, it has printed, after the
    header, one line for each entry of the platform, in their order: the
    entry was applied, was skipped for a conflict, or lacks its source (no
    line says ["failed"]); then the summary of three counters that add up
    to the number of those entries, and with [force] at most the line
    about the backups. *)
Theorem apply_reports_every_entry (force : bool) (w w' : World)
    (m : Manifest.Manifest) :
  Manifest.load (Sync.files_yaml cfg) (disk w) = Ret m ->
  Manifest.entries m <> [] ->
  Sync.apply cfg force false w = (Ret tt, w') ->
  let es := Manifest.for_platform (Sync.platform cfg) m in
  exists lines c tail,
    Forall2 applied_line es lines /\
    total c = length es /\
    console w'
    = console w ++ header "Applying files" :: lines ++ summary c ++ tail /\
    (force = false -> tail = []) /\
    (tail = [] \/ exists b, tail = [info_backups b]).
Proof.
  intros L En. unfold Sync.apply, Sync.load_manifest.
  unfold wbind at 1. rewrite L.
  destruct (Manifest.entries m) as [|e0 l0] eqn:E0; [contradiction|].
  unfold wbind at 1. unfold say at 1.
  set (w0 := mkWorld (tree w) (disk w) (console w ++ [header "Applying files"])).
  unfold wbind at 1.
  match goal with |- context [(if force && negb false then ?a else ?b) w0] =>
    destruct ((if force && negb false then a else b) w0) as [[b'|e] w1] eqn:B
  end; [|discriminate].
  rename b' into b.
  assert (console w1 = console w0 /\ (force = false -> b = None)) as [Hc1 Hb].
  { revert B. destruct force; simpl.
    - unfold wbind, on_tree, wret.
      destruct (mkdir_parents _ (tree w0)) as [[[]|?] ?]; [|discriminate].
      intros [= <- <-]. now split.
    - intros [= <- <-]. now split. }
  unfold wbind at 1.
  destruct (Sync.apply_loop _ _ _ _ _ _ _) as [[c|e] w2] eqn:Lp; [|discriminate].
  apply apply_loop_lines in Lp as (lines & Hl & Ht & Hc2).
  rewrite summary_then. intros H. cbv zeta.
  assert (exists tail,
             console w' = console w2 ++ summary c ++ tail /\
             (force = false -> tail = []) /\
             (tail = [] \/ exists b', tail = [info_backups b'])) as
      (tail & Hc3 & Hf & Ht').
  { destruct b as [bd|].
    - unfold wbind, on_tree, lift in H. cbn [tree disk console] in H.
      destruct (any_iterdir (tree w2) bd) as [[]|]; [| |discriminate].
      + injection H as <-. cbn. exists [info_backups bd].
        rewrite <- app_assoc. repeat split; [|right; now exists bd].
        intros ->. now specialize (Hb eq_refl).
      + cbn [tree disk console] in H.
        destruct (rmdir bd (tree w2)) as [[[]|?] ?]; [|discriminate].
        injection H as <-. cbn. exists []. rewrite app_nil_r.
        repeat split; auto.
    - injection H as <-. cbn. exists []. rewrite app_nil_r. repeat split; auto. }
  exists lines, c, tail. repeat split; auto.
  rewrite Hc3, Hc2, Hc1. unfold w0. cbn. now rewrite <- !app_assoc.
Qed.

Lemma is_file_weaken (fs fs' : FS) p :
  fs ⊆ fs' -> is_file fs p = true -> is_file fs' p = true.
Proof.
  intros Hsub. unfold is_file.
  destruct (stat fs p) as [[m b| |]|] eqn:S; try discriminate.
  now rewrite (stat_weaken _ _ _ _ Hsub S).
Qed.

Lemma apply_entry_extends (dry_run : bool) (backup_dir : option apath)
    (entry : Manifest.FileEntry) (c : Sync.Counts) (w w' : World) r :
  (Sync.is_symlink_type entry = false ->
   is_file (tree w) (Conditions.source_abs cfg entry) = true) ->
  Sync.apply_entry cfg false dry_run backup_dir entry c w = (r, w') ->
  tree w ⊆ tree w' /\ disk w' = disk w.
Proof.
  intros Hs.
  unfold Sync.apply_entry, wbind, look, say, wret, on_tree.
  destruct (exists_ (tree w) _); cbn.
  2:{ now intros [= _ <-]. }
  destruct dry_run; cbn; [now intros [= _ <-]|].
  destruct (Reconcile.create _ _ _ _ _ _ _) as [[[ok st]|e] fs1] eqn:C.
  - apply create_extends in C; [|exact Hs].
    destruct ok; cbn; [now intros [= _ <-]|].
    destruct (String.eqb st "conflict" && _); cbn; now intros [= _ <-].
  - apply create_extends in C; [|exact Hs].
    now intros [= _ <-].
Qed.

Lemma apply_loop_extends (dry_run : bool) (backup_dir : option apath)
    (l : list Manifest.FileEntry) :
  forall (c : Sync.Counts) (w w' : World) r,
    (forall e, e ∈ l -> Sync.is_symlink_type e = false ->
               is_file (tree w) (Conditions.source_abs cfg e) = true) ->
    Sync.apply_loop cfg false dry_run backup_dir l c w = (r, w') ->
    tree w ⊆ tree w' /\ disk w' = disk w.
Proof.
  induction l as [|entry l IH]; intros c w w' r Hs; simpl.
  - now intros [= _ <-].
  - unfold wbind at 1.
    destruct (Sync.apply_entry _ _ _ _ _ _ _) as [[c1|e] w1] eqn:E.
    + apply apply_entry_extends in E as [Hsub Hd].
      2:{ apply Hs. now left. }
      intros H. apply IH in H as [Hsub' Hd'].
      * split; [etransitivity; [exact Hsub | exact Hsub'] | congruence].
      * intros e He Hl. eapply is_file_weaken; [exact Hsub|].
        apply Hs; [now right | exact Hl].
    + apply apply_entry_extends in E as [Hsub Hd].
      2:{ apply Hs. now left. }
      now intros [= _ <-].
Qed.

(** X11.  [apply] without [force] takes nothing away and writes over nothing.
    When the source of every copy entry of the platform is a regular file,
    then whatever [apply] does, and also when an exception ends it half
    way, every entry of the tree is afterwards what it was before, and the
    manifest document is untouched. *)
Theorem apply_without_force_extends (dry_run : bool) (w : World) :
  (forall m e,
      Manifest.load (Sync.files_yaml cfg) (disk w) = Ret m ->
      e ∈ Manifest.for_platform (Sync.platform cfg) m ->
      Sync.is_symlink_type e = false ->
      is_file (tree w) (Conditions.source_abs cfg e) = true) ->
  tree w ⊆ tree (snd (Sync.apply cfg false dry_run w)) /\
  disk (snd (Sync.apply cfg false dry_run w)) = disk w.
Proof.
  intros Hs.
  destruct (Sync.apply cfg false dry_run w) as [r w'] eqn:A. cbn [snd].
  revert A. unfold Sync.apply, Sync.load_manifest.
  unfold wbind at 1.
  destruct (Manifest.load _ _) as [m|e] eqn:L; [|now intros [= _ <-]].
  destruct (Manifest.entries m) as [|e0 l0] eqn:E0; [now intros [= _ <-]|].
  unfold wbind at 1. unfold say at 1.
  set (w0 := mkWorld (tree w) (disk w) (console w ++ [header "Applying files"])).
  simpl (false && _). unfold wbind at 1. unfold wret at 1.
  unfold wbind at 1.
  destruct (Sync.apply_loop _ _ _ _ _ _ _) as [[c|e] w2] eqn:Lp.
  - apply apply_loop_extends in Lp as [Hsub Hd].
    2:{ intros e He. now apply (Hs m). }
    destruct dry_run; [now intros [= _ <-]|].
    rewrite summary_then. now intros [= _ <-].
  - apply apply_loop_extends in Lp as [Hsub Hd].
    2:{ intros e' He. now apply (Hs m). }
    now intros [= _ <-].
Qed.

End ApplyFacts.
End ApplyFacts.

(** ** The commands [add] and [remove] *)

Module TrackingFacts.
Import Resolution Conditions WellFormed FsFacts WfFacts ManifestFacts LinkerFacts.
Section TrackingFacts.

Context {T : TreeOps} (cfg : Sync.Config) (expanded : string -> apath).

Lemma save_extends (m : Manifest.Manifest) (w w' : World) r :
  Manifest.save m w = (r, w') -> tree w ⊆ tree w'.
Proof.
  unfold Manifest.save.
  destruct (Manifest.save_data _) as [data|e]; [|now intros [= _ <-]].
  unfold wbind, on_tree, Manifest.write_document.
  destruct (mkdir_parents _ (tree w)) as [[[]|e] fs] eqn:Mk;
    apply mkdir_parents_extends in Mk; now intros [= _ <-].
Qed.

Lemma manifest_remove_extends (dest : Path) (m : Manifest.Manifest)
    (w w' : World) r :
  Tracking.manifest_remove dest m w = (r, w') -> tree w ⊆ tree w'.
Proof.
  unfold Tracking.manifest_remove, Manifest.remove.
  destruct (Manifest.pop_dest dest _); [|now intros [= _ <-]].
  destruct (Manifest.save _ w) as [[[]|e] w1] eqn:S;
    apply save_extends in S; now intros [= _ <-].
Qed.

Lemma remove_eq (file : string) (w : World) :
  Tracking.remove cfg file w =
  match Manifest.load (Sync.files_yaml cfg) (disk w) with
  | Raise e => (Raise e, w)
  | Ret m =>
      match Manifest.find_by_dest (Path_of_string file) m with
      | None => (Ret (false, [Tracking.err_not_tracked file]), w)
      | Some _ =>
          match Tracking.manifest_remove (Path_of_string file) m w with
          | (Raise e, w1) => (Raise e, w1)
          | (Ret _, w1) =>
              let dest_abs := under (Sync.home cfg) (Path_of_string file) in
              if is_symlink (tree w1) dest_abs then
                match unlink dest_abs (tree w1) with
                | (Ret _, fs) =>
                    (Ret (true,
                          [Tracking.info_removed_symlink (Path_of_string file);
                           Tracking.success_removed file]),
                     mkWorld fs (disk w1) (console w1))
                | (Raise e, fs) => (Raise e, mkWorld fs (disk w1) (console w1))
                end
              else (Ret (true, [Tracking.success_removed file]), w1)
          end
      end
  end.
Proof.
  unfold Tracking.remove, Sync.load_manifest. unfold wbind at 1.
  destruct (Manifest.load _ _) as [m|e]; [|reflexivity].
  destruct (Manifest.find_by_dest _ m); [|reflexivity].
  unfold wbind at 1.
  destruct (Tracking.manifest_remove _ m w) as [[b|e] w1]; [|reflexivity].
  unfold wbind at 1. unfold look. cbv zeta.
  destruct (is_symlink (tree w1) _); [|reflexivity].
  unfold wbind, on_tree, wret.
  now destruct (unlink _ (tree w1)) as [[[]|e] fs].
Qed.

Lemma remove_written (dest : Path) (m : Manifest.Manifest) (w w1 : World) b e0 :
  Manifest.find_by_dest dest m = Some e0 ->
  Tracking.manifest_remove dest m w = (Ret b, w1) ->
  exists l1 e l2 data,
    Manifest.entries m = l1 ++ e :: l2 /\ Manifest.dest e = dest /\
    Forall (fun x => Manifest.dest x <> dest) l1 /\
    Manifest.save_data (l1 ++ l2) = Ret data /\
    disk w1 = Some (Parsed (VDict data)).
Proof.
  intros F. unfold Tracking.manifest_remove, Manifest.remove.
  destruct (Manifest.pop_dest dest _) as [l|] eqn:P.
  - destruct (pop_dest_Some _ _ _ P) as (l1 & e & l2 & Hm & Hd & Hf & ->).
    unfold Manifest.save. cbn [Manifest.entries Manifest.path].
    destruct (Manifest.save_data (l1 ++ l2)) as [data|?] eqn:D;
      [|discriminate].
    unfold wbind, on_tree, Manifest.write_document.
    destruct (mkdir_parents _ (tree w)) as [[[]|?] ?]; [|discriminate].
    intros [= _ <-]. cbn. now exists l1, e, l2, data.
  - apply pop_dest_None in P. exfalso.
    unfold Manifest.find_by_dest in F. apply find_some in F as [Hin Hd].
    apply bool_decide_eq_true in Hd. rewrite Forall_forall in P.
    apply (P e0); [|exact Hd]. now apply list_elem_of_In.
Qed.

(** X12.  The command [remove]: for a destination that is not tracked it says
    so, answers [False] and changes nothing.  Whatever it does, it takes
    no regular file and no directory out of the tree and changes none: the
    file in the repository and a destination that is not a link stay.
    When it answers [True], the first entry with the destination is gone
    from the written manifest and the destination is not a link. *)
Theorem remove_command (file : string) (w : World) :
  let dest := Path_of_string file in
  (forall m, Manifest.load (Sync.files_yaml cfg) (disk w) = Ret m ->
             Manifest.find_by_dest dest m = None ->
             Tracking.remove cfg file w
             = (Ret (false, [Tracking.err_not_tracked file]), w)) /\
  (forall k n, tree w !! k = Some n -> not_link n ->
               tree (snd (Tracking.remove cfg file w)) !! k = Some n) /\
  (forall notes w',
      Tracking.remove cfg file w = (Ret (true, notes), w') ->
      is_symlink (tree w') (under (Sync.home cfg) dest) = false /\
      exists m l1 e l2 data,
        Manifest.load (Sync.files_yaml cfg) (disk w) = Ret m /\
        Manifest.entries m = l1 ++ e :: l2 /\ Manifest.dest e = dest /\
        Forall (fun x => Manifest.dest x <> dest) l1 /\
        Manifest.save_data (l1 ++ l2) = Ret data /\
        disk w' = Some (Parsed (VDict data))).
Proof.
  cbv zeta. rewrite remove_eq. set (dest := Path_of_string file).
  destruct (Manifest.load _ _) as [m|e] eqn:L.
  2:{ split; [discriminate|]. split; [now intros|discriminate]. }
  destruct (Manifest.find_by_dest dest m) as [e0|] eqn:F.
  2:{ split; [now intros ? [= <-] _|]. split; [now intros|discriminate]. }
  split; [intros ? [= <-]; congruence|].
  destruct (Tracking.manifest_remove dest m w) as [[b|e] w1] eqn:R.
  2:{ split; [|discriminate]. intros k n Hk _. cbn.
      apply manifest_remove_extends in R. eapply lookup_weaken; eauto. }
  pose proof (manifest_remove_extends _ _ _ _ _ R) as Hsub.
  destruct (remove_written _ _ _ _ _ _ F R) as (l1 & e & l2 & data & Hw).
  cbv zeta.
  destruct (is_symlink (tree w1) (under (Sync.home cfg) dest)) eqn:Ls.
  - destruct (is_symlink_locate _ _ Ls) as (k & t & Lo & Hk & Hne).
    assert (unlink (under (Sync.home cfg) dest) (tree w1)
            = (Ret tt, delete k (tree w1))) as ->.
    { unfold unlink. rewrite Lo. destruct k; [contradiction|]. simpl.
      now rewrite Hk. }
    cbn. split.
    + intros k' n Hk' Hn. rewrite lookup_delete_ne.
      * eapply lookup_weaken; eauto.
      * intros <-. pose proof (lookup_weaken _ _ _ _ Hk' Hsub) as Hk2.
        rewrite Hk in Hk2. injection Hk2 as <-. contradiction.
    + intros notes w' [= _ <-]. cbn. split.
      * unfold is_symlink. now rewrite (lstat_deleted _ _ _ Hne Lo).
      * now exists m, l1, e, l2, data.
  - cbn. split.
    + intros k' n Hk' _. eapply lookup_weaken; eauto.
    + intros notes w' [= _ <-]. split; [exact Ls|].
      now exists m, l1, e, l2, data.
Qed.

End TrackingFacts.
End TrackingFacts.

(** ** Loading what [save] wrote *)

Module SavedFacts.
Import Manifest Shape Saved ManifestFacts.

Lemma append_cons a (s t : string) :
  String.append (String a s) t = String a (String.append s t).
Proof. reflexivity. Qed.

Lemma append_nil_l (t : string) : String.append "" t = t.
Proof. reflexivity. Qed.

Lemma append_assoc (a b c : string) :
  String.append (String.append a b) c = String.append a (String.append b c).
Proof.
  induction a as [|x a IH]; [reflexivity|].
  now rewrite !append_cons, IH.
Qed.

Lemma append_nil_r (a : string) : String.append a "" = a.
Proof.
  induction a as [|x a IH]; [reflexivity|]. now rewrite append_cons, IH.
Qed.

Lemma rev_app_append s : forall t,
  String.rev_app s t = String.append (String.rev s) t.
Proof.
  unfold String.rev. induction s as [|a s IH]; intros t; simpl; [reflexivity|].
  rewrite (IH (String a "")), IH, append_assoc. reflexivity.
Qed.

Lemma rev_cons a acc :
  String.rev (String a acc)
  = String.append (String.rev acc) (String a EmptyString).
Proof. unfold String.rev at 1. simpl. apply rev_app_append. Qed.

Lemma split_slash_word c : forall acc,
  no_slash c = true ->
  split_slash acc c = [String.append (String.rev acc) c].
Proof.
  induction c as [|a c IH]; intros acc; simpl.
  - now rewrite append_nil_r.
  - intros [Ha Hc]%andb_true_iff. apply negb_true_iff in Ha. rewrite Ha.
    rewrite IH by exact Hc. now rewrite rev_cons, append_assoc.
Qed.

Lemma split_slash_sep c r : forall acc,
  no_slash c = true ->
  split_slash acc (String.append c (String "/" r))
  = String.append (String.rev acc) c :: split_slash "" r.
Proof.
  induction c as [|a c IH]; intros acc.
  - intros _. rewrite append_nil_l, append_nil_r. reflexivity.
  - simpl no_slash. intros [Ha Hc]%andb_true_iff. apply negb_true_iff in Ha.
    rewrite append_cons. simpl split_slash. rewrite Ha.
    rewrite IH by exact Hc. now rewrite rev_cons, append_assoc.
Qed.

Lemma concat_cons2 sep c c' (l : list string) :
  String.concat sep (c :: c' :: l)
  = String.append c (String.append sep (String.concat sep (c' :: l))).
Proof. reflexivity. Qed.

Lemma split_slash_concat l :
  l <> [] -> forallb no_slash l = true ->
  split_slash "" (String.concat "/" l) = l.
Proof.
  induction l as [|c l IH]; [contradiction|]. intros _.
  simpl forallb. intros [Hc Hl]%andb_true_iff. destruct l as [|c' l].
  - simpl String.concat. now rewrite split_slash_word.
  - rewrite concat_cons2.
    change (String.append "/" ?x) with (String "/" x).
    rewrite split_slash_sep by exact Hc.
    f_equal. apply IH; [discriminate | exact Hl].
Qed.

Lemma plain_name_no_slash c : plain_name c = true -> no_slash c = true.
Proof. unfold plain_name. now intros [_ ?]%andb_true_iff. Qed.

Lemma filter_plain l :
  forallb plain_name l = true ->
  filter (fun c : string => c <> "" /\ c <> ".") l = l.
Proof.
  induction l as [|c l IH]; [reflexivity|]. simpl.
  intros [Hc Hl]%andb_true_iff. rewrite filter_cons.
  unfold plain_name in Hc. apply andb_true_iff in Hc as [Hc _].
  apply andb_true_iff in Hc as [H1 H2].
  apply negb_true_iff, String.eqb_neq in H1.
  apply negb_true_iff, String.eqb_neq in H2.
  destruct (decide (c <> "" /\ c <> ".")) as [_|N]; [|now destruct N].
  now rewrite IH.
Qed.

Lemma Path_of_string_str (p : Path) :
  plain p = true -> Path_of_string (str p) = p.
Proof.
  destruct p as [a l]. unfold plain, Path_of_string, str.
  cbn [is_absolute names]. intros Hp.
  assert (forallb no_slash l = true) as Hs.
  { apply forallb_forall. intros c Hc. apply plain_name_no_slash.
    rewrite forallb_forall in Hp. now apply Hp. }
  destruct a.
  - change (String.append "/" ?x) with (String "/" x).
    f_equal.
    destruct l as [|c l]; [reflexivity|].
    change (String "/" ?x) with (String.append "" (String "/" x)).
    rewrite split_slash_sep by reflexivity.
    rewrite split_slash_concat by (auto; discriminate).
    rewrite filter_cons. destruct (decide _) as [[N _]|_]; [now contradiction N|].
    now apply filter_plain.
  - destruct l as [|c l]; [reflexivity|].
    rewrite split_slash_concat by (auto; discriminate).
    rewrite filter_plain by exact Hp. f_equal.
    simpl in Hp. apply andb_true_iff in Hp as [Hc _].
    unfold plain_name in Hc. apply andb_true_iff in Hc as [Hc Hn].
    apply andb_true_iff in Hc as [Hc _]. apply negb_true_iff in Hc.
    destruct c as [|a c]; [discriminate|]. simpl in Hn.
    apply andb_true_iff in Hn as [Hn _]. apply negb_true_iff in Hn.
    destruct l; [exact Hn|]. rewrite concat_cons2, append_cons. exact Hn.
Qed.

Lemma dict_get_set_eq a v d :
  dict_get (VStr a) (dict_set (VStr a) v d) = Some v.
Proof.
  induction d as [|[k1 v1] d IH]; simpl.
  - now rewrite String.eqb_refl.
  - destruct (key_eqb k1 (VStr a)) eqn:E; simpl; now rewrite E.
Qed.

Lemma dict_get_set_ne a b v d :
  a <> b -> dict_get (VStr b) (dict_set (VStr a) v d) = dict_get (VStr b) d.
Proof.
  intros Hne. induction d as [|[k1 v1] d IH]; simpl.
  - apply String.eqb_neq in Hne. now rewrite Hne.
  - destruct (key_eqb k1 (VStr a)) eqn:E; simpl.
    + apply key_eqb_str in E as ->. simpl.
      apply String.eqb_neq in Hne. now rewrite Hne.
    + now rewrite IH.
Qed.

Lemma dict_set_absent a v d :
  dict_get (VStr a) d = None -> dict_set (VStr a) v d = d ++ [(VStr a, v)].
Proof.
  induction d as [|[k1 v1] d IH]; simpl; [reflexivity|].
  destruct (key_eqb k1 (VStr a)); [discriminate|].
  intros H. now rewrite IH.
Qed.

Lemma dict_set_keys a v d x :
  dict_get (VStr a) d = Some x -> map fst (dict_set (VStr a) v d) = map fst d.
Proof.
  induction d as [|[k1 v1] d IH]; simpl; [discriminate|].
  destruct (key_eqb k1 (VStr a)); [reflexivity|].
  intros H. simpl. now rewrite IH.
Qed.

Lemma dict_get_notin a d :
  VStr a ∉ map fst d -> dict_get (VStr a) d = None.
Proof.
  induction d as [|[k1 v1] d IH]; simpl; [reflexivity|].
  intros Hn. apply not_elem_of_cons in Hn as [H1 H2].
  destruct (key_eqb k1 (VStr a)) eqn:E.
  - apply key_eqb_str in E. congruence.
  - now apply IH.
Qed.

Lemma dict_get_in a d v :
  dict_get (VStr a) d = Some v -> (VStr a, v) ∈ d.
Proof.
  induction d as [|[k1 v1] d IH]; simpl; [discriminate|].
  destruct (key_eqb k1 (VStr a)) eqn:E.
  - apply key_eqb_str in E as ->. intros [= ->]. now left.
  - intros H. right. now apply IH.
Qed.

Lemma dict_set_NoDup a v d :
  NoDup (map fst d) -> NoDup (map fst (dict_set (VStr a) v d)).
Proof.
  intros Hnd. destruct (dict_get (VStr a) d) as [x|] eqn:G.
  - now rewrite (dict_set_keys _ _ _ _ G).
  - rewrite (dict_set_absent _ _ _ G), map_app. simpl.
    apply NoDup_app. split; [exact Hnd|]. split; [|apply NoDup_singleton].
    intros k Hk Hin. apply list_elem_of_singleton in Hin as ->.
    apply list_elem_of_fmap in Hk as ([k1 v1] & Hk & Hin). simpl in Hk. subst k1.
    assert (dict_get (VStr a) d <> None) as N; [|contradiction].
    clear -Hin. induction d as [|[k2 v2] d IH]; [now apply elem_of_nil in Hin|].
    simpl. destruct (key_eqb k2 (VStr a)) eqn:E; [discriminate|].
    apply elem_of_cons in Hin as [[= <- <-]|Hin]; [|now apply IH].
    simpl in E. now rewrite String.eqb_refl in E.
Qed.

Lemma dict_get_filter a (f : value * value -> bool) d :
  NoDup (map fst d) ->
  dict_get (VStr a) (List.filter f d) =
  match dict_get (VStr a) d with
  | Some v => if f (VStr a, v) then Some v else None
  | None => None
  end.
Proof.
  induction d as [|[k1 v1] d IH]; simpl; [reflexivity|].
  intros Hnd. apply NoDup_cons in Hnd as [Hn Hnd].
  destruct (key_eqb k1 (VStr a)) eqn:E.
  - apply key_eqb_str in E as ->. destruct (f (VStr a, v1)); simpl.
    + now rewrite String.eqb_refl.
    + apply dict_get_notin. intros Hin. apply Hn.
      apply list_elem_of_fmap in Hin as (kv & -> & Hin).
      apply list_elem_of_In, filter_In in Hin as [Hin _].
      apply list_elem_of_fmap. exists kv. split; [reflexivity|].
      now apply list_elem_of_In.
  - destruct (f (k1, v1)); simpl; [rewrite E|]; now apply IH.
Qed.

Lemma as_dict_sec d name s :
  sec_items d name = Some s -> as_dict (dict_get (VStr name) d) = s.
Proof.
  unfold sec_items. destruct (dict_get (VStr name) d) as [[]|]; simpl; congruence.
Qed.

Lemma section_put d sec a v s :
  sec_items d sec = Some s ->
  dict_get (VStr a) s = None ->
  let d' := dict_set (VStr sec)
              (VDict (dict_set (VStr a) v (as_dict (dict_get (VStr sec) d)))) d in
  sec_items d' sec = Some (s ++ [(VStr a, v)]) /\
  (forall other, other <> sec -> dict_get (VStr other) d' = dict_get (VStr other) d) /\
  (NoDup (map fst d) -> NoDup (map fst d')).
Proof.
  intros Hs Ha d'. split; [|split].
  - unfold sec_items, d'. rewrite dict_get_set_eq, (as_dict_sec _ _ _ Hs).
    now rewrite (dict_set_absent _ _ _ Ha).
  - intros other Hne. unfold d'. now apply dict_get_set_ne.
  - apply dict_set_NoDup.
Qed.

Lemma group_app p k l e :
  group p k (l ++ [e]) = group p k l ++ (if in_group p k e then [e] else []).
Proof. unfold group. rewrite List.filter_app. simpl. now destruct (in_group p k e). Qed.

Lemma in_group_self e : in_group (platform_name e) (is_link e) e = true.
Proof. unfold in_group. rewrite String.eqb_refl. now destruct (is_link e). Qed.

Lemma in_group_inv p k e :
  in_group p k e = true -> platform_name e = p /\ is_link e = k.
Proof.
  unfold in_group. intros [H1 H2]%andb_true_iff.
  apply String.eqb_eq in H1. apply Bool.eqb_prop in H2. now split.
Qed.

Lemma key_absent l e :
  slot e ∉ map slot l ->
  dict_get (VStr (str (source e)))
           (map item_of (group (platform_name e) (is_link e) l)) = None.
Proof.
  intros Hn. apply dict_get_notin. intros Hin.
  apply list_elem_of_fmap in Hin as (kv & Hk & Hin).
  apply list_elem_of_fmap in Hin as (e' & -> & Hin).
  apply list_elem_of_In, filter_In in Hin as [Hin Hg].
  apply in_group_inv in Hg as [Hp Hl]. simpl in Hk. injection Hk as Hk.
  apply Hn. apply list_elem_of_fmap. exists e'. split; [|now apply list_elem_of_In].
  unfold slot. now rewrite Hp, Hl, Hk.
Qed.

Lemma add_new_NoDup acc p : NoDup acc -> NoDup (add_new acc p).
Proof.
  unfold add_new. case_bool_decide; [auto|]. intros Hnd.
  apply NoDup_app. split; [exact Hnd|]. split; [|apply NoDup_singleton].
  intros x Hx Hin. apply list_elem_of_singleton in Hin as ->. contradiction.
Qed.

Lemma add_new_elem acc p x : x ∈ add_new acc p <-> x ∈ acc \/ x = p.
Proof.
  unfold add_new. case_bool_decide.
  - split; [now left|]. intros [?| ->]; auto.
  - rewrite elem_of_app, list_elem_of_singleton. tauto.
Qed.

Lemma fold_add_new_NoDup ps : forall acc, NoDup acc -> NoDup (fold_left add_new ps acc).
Proof.
  induction ps as [|p ps IH]; intros acc Hnd; simpl; [exact Hnd|].
  apply IH. now apply add_new_NoDup.
Qed.

Lemma fold_add_new_elem ps : forall acc x,
  x ∈ fold_left add_new ps acc <-> x ∈ acc \/ x ∈ ps.
Proof.
  induction ps as [|p ps IH]; intros acc x; simpl.
  - split; [now left|]. intros [?|H]; [auto|now apply elem_of_nil in H].
  - rewrite IH, add_new_elem, elem_of_cons. tauto.
Qed.

Lemma platforms_NoDup l : NoDup (platforms l).
Proof. apply fold_add_new_NoDup. constructor. Qed.

Lemma platforms_elem l p :
  p ∈ platforms l <-> p <> "" /\ exists e, e ∈ l /\ platform_name e = p.
Proof.
  unfold platforms, named_platforms. rewrite fold_add_new_elem.
  split.
  - intros [H|H]; [now apply elem_of_nil in H|].
    apply list_elem_of_In, filter_In in H as [H Hp].
    apply negb_true_iff, String.eqb_neq in Hp. split; [exact Hp|].
    apply in_map_iff in H as (e & <- & H). exists e. split; [|reflexivity].
    now apply list_elem_of_In.
  - intros (Hp & e & He & <-). right.
    apply list_elem_of_In, filter_In. split.
    + apply in_map. now apply list_elem_of_In.
    + now apply negb_true_iff, String.eqb_neq.
Qed.

Lemma platforms_app l e :
  platforms (l ++ [e]) =
  if String.eqb (platform_name e) "" then platforms l
  else add_new (platforms l) (platform_name e).
Proof.
  unfold platforms, named_platforms. rewrite map_app, List.filter_app, fold_left_app.
  simpl. now destruct (String.eqb (platform_name e) "").
Qed.

Lemma group_none l p k :
  p <> "" -> p ∉ platforms l -> group p k l = [].
Proof.
  intros Hp Hn. unfold group.
  destruct (List.filter (in_group p k) l) as [|e g] eqn:F; [reflexivity|].
  exfalso. apply Hn. apply platforms_elem. split; [exact Hp|].
  assert (In e (List.filter (in_group p k) l)) as Hin by (rewrite F; now left).
  apply filter_In in Hin as [Hin Hg]. apply in_group_inv in Hg as [Hg _].
  exists e. split; [now apply list_elem_of_In | exact Hg].
Qed.

Lemma Forall2_impl_elem {A B} (R R' : A -> B -> Prop) xs ys :
  Forall2 R xs ys ->
  (forall x y, x ∈ xs -> R x y -> R' x y) ->
  Forall2 R' xs ys.
Proof.
  induction 1 as [|x y xs ys Hr _ IH]; intros Himp; constructor.
  - apply Himp; [now left | exact Hr].
  - apply IH. intros x' y' Hx. apply Himp. now right.
Qed.

Lemma Forall2_dict_set (R R' : string -> value * value -> Prop) ps P p v :
  NoDup ps ->
  Forall2 R ps P ->
  (forall q kv, R q kv -> fst kv = VStr q) ->
  (forall q kv, q <> p -> R q kv -> R' q kv) ->
  R' p (VStr p, v) ->
  Forall2 R' (add_new ps p) (dict_set (VStr p) v P).
Proof.
  intros Hnd HF Hkey Hother Hp. induction HF as [|q kv ps P Hr HF IH].
  - unfold add_new. simpl. repeat constructor. exact Hp.
  - apply NoDup_cons in Hnd as [Hq Hnd]. destruct kv as [k1 v1].
    pose proof (Hkey _ _ Hr) as Hk. simpl in Hk. subst k1. simpl.
    destruct (String.eqb q p) eqn:E.
    + apply String.eqb_eq in E as ->.
      unfold add_new. rewrite bool_decide_eq_true_2 by now left.
      constructor; [exact Hp|].
      eapply Forall2_impl_elem; [exact HF|].
      intros x y Hx Hxy. apply Hother; [|exact Hxy]. intros ->. contradiction.
    + apply String.eqb_neq in E.
      assert (add_new (q :: ps) p = q :: add_new ps p) as ->.
      { unfold add_new. destruct (decide (p ∈ ps)) as [Hin|Hin].
        - rewrite !bool_decide_eq_true_2; auto. now right.
        - rewrite !bool_decide_eq_false_2; auto.
          intros [?|?]%elem_of_cons; congruence. }
      constructor; [now apply Hother|]. now apply IH.
Qed.

Lemma sn_inj k k' : sn k = sn k' -> k = k'.
Proof. now destruct k, k'. Qed.

Lemma secs_put p l d e :
  secs_ok p l d -> platform_name e = p -> slot e ∉ map slot l ->
  let d' := dict_set (VStr (sn (is_link e)))
              (VDict (dict_set (VStr (str (source e))) (VStr (str (dest e)))
                               (as_dict (dict_get (VStr (sn (is_link e))) d)))) d in
  secs_ok p (l ++ [e]) d' /\
  (forall other, other <> sn (is_link e) ->
                 dict_get (VStr other) d' = dict_get (VStr other) d).
Proof.
  intros [Hnd Hs] Hp Hn d'.
  pose proof (key_absent l e Hn) as Ha. rewrite Hp in Ha.
  destruct (section_put d (sn (is_link e)) (str (source e)) (VStr (str (dest e)))
              _ (Hs (is_link e)) Ha) as (H1 & H2 & H3).
  fold d' in H1, H2, H3. split; [split|]; [now apply H3| |exact H2].
  intros k. rewrite group_app.
  destruct (Bool.eqb (is_link e) k) eqn:E.
  - apply Bool.eqb_prop in E as <-. unfold in_group.
    rewrite Hp, String.eqb_refl, Bool.eqb_reflx. simpl.
    rewrite map_app. exact H1.
  - unfold in_group. rewrite E, andb_false_r, app_nil_r.
    unfold sec_items. rewrite H2; [apply Hs|].
    intros Hk. apply sn_inj in Hk. subst k. now rewrite Bool.eqb_reflx in E.
Qed.

Lemma secs_other p l d e :
  secs_ok p l d -> platform_name e <> p -> secs_ok p (l ++ [e]) d.
Proof.
  intros [Hnd Hs] Hp. split; [exact Hnd|]. intros k.
  rewrite group_app. unfold in_group.
  apply String.eqb_neq in Hp. rewrite Hp. simpl. rewrite app_nil_r. apply Hs.
Qed.

Lemma sec_items_other d d' name :
  dict_get (VStr name) d' = dict_get (VStr name) d ->
  sec_items d' name = sec_items d name.
Proof. unfold sec_items. now intros ->. Qed.

Lemma plat_lookup l ps P p :
  NoDup ps -> Forall2 (plat_ok l) ps P ->
  secs_ok p l (as_dict (dict_get (VStr p) P)) \/
  ((p ∉ ps) /\ dict_get (VStr p) P = None).
Proof.
  intros Hnd HF. induction HF as [|q [k1 v1] ps P Hr HF IH].
  - right. split; [apply not_elem_of_nil | reflexivity].
  - apply NoDup_cons in Hnd as [Hq Hnd].
    destruct Hr as (Hk & secs & Hv & Hok). simpl in Hk, Hv. subst k1 v1.
    simpl. destruct (String.eqb q p) eqn:E.
    + apply String.eqb_eq in E as ->. now left.
    + apply String.eqb_neq in E. destruct (IH Hnd) as [H|[H1 H2]]; [now left|].
      right. split; [|exact H2]. intros [?|?]%elem_of_cons; congruence.
Qed.

Lemma secs_ok_nil l p : p <> "" -> p ∉ platforms l -> secs_ok p l [].
Proof.
  intros Hp Hn. split; [constructor|]. intros k.
  now rewrite (group_none _ _ _ Hp Hn).
Qed.

Lemma sn_not_platform k : "platform" <> sn k.
Proof. now destruct k. Qed.

Lemma savable_platform e :
  savable e = true ->
  (truthy (platform e) = true /\ platform e = VStr (platform_name e)
   /\ platform_name e <> "") \/
  (truthy (platform e) = false /\ platform_name e = "").
Proof.
  unfold savable, platform_name. intros [_ H]%andb_true_iff.
  destruct (platform e) as [| | |p| |]; try discriminate.
  - now right.
  - simpl. destruct (String.eqb p "") eqn:E.
    + right. apply String.eqb_eq in E. now split.
    + left. apply String.eqb_neq in E. now repeat split.
Qed.

Lemma save_entry_inv l data e :
  Inv l data -> savable e = true -> slot e ∉ map slot l ->
  exists data', save_entry data e = Ret data' /\ Inv (l ++ [e]) data'.
Proof.
  intros [Hg (P & HP & HF)] Hs Hn.
  unfold save_entry. fold (is_link e).
  change (if is_link e then "symlinks" else "copies") with (sn (is_link e)).
  destruct (savable_platform e Hs) as [(Tr & Pe & Hp)|[Tr Hp]]; rewrite Tr.
  - rewrite Pe. simpl hashable. cbv iota.
    rewrite (as_dict_sec _ _ _ HP).
    set (p := platform_name e) in *.
    set (secs := as_dict (dict_get (VStr p) P)).
    assert (secs_ok p l secs) as Hsecs.
    { destruct (plat_lookup l _ P p (platforms_NoDup l) HF) as [H|[H1 H2]];
        [exact H|].
      unfold secs. rewrite H2. simpl. now apply secs_ok_nil. }
    destruct (secs_put p l secs e Hsecs eq_refl Hn) as [Hnew Hoth].
    eexists. split; [reflexivity|]. split.
    + destruct (secs_other "" l data e Hg) as [Hnd Hk]; [now apply not_eq_sym|].
      split; [now apply dict_set_NoDup|]. intros k.
      rewrite <- Hk. apply sec_items_other. apply dict_get_set_ne.
      apply sn_not_platform.
    + eexists. split.
      * unfold sec_items. rewrite dict_get_set_eq. reflexivity.
      * rewrite platforms_app. fold p.
        apply String.eqb_neq in Hp. rewrite Hp.
        apply (Forall2_dict_set (plat_ok l)); auto using platforms_NoDup.
        -- now intros q kv [? _].
        -- intros q kv Hq (Hk & s & Hv & Hok). split; [exact Hk|].
           exists s. split; [exact Hv|]. apply secs_other; [exact Hok|].
           fold p. now apply not_eq_sym.
        -- split; [reflexivity|]. eexists. split; [reflexivity|]. exact Hnew.
  - destruct (secs_put "" l data e Hg Hp Hn) as [Hnew Hoth].
    eexists. split; [reflexivity|]. split; [exact Hnew|].
    exists P. split.
    + rewrite <- HP. apply sec_items_other. apply Hoth. apply sn_not_platform.
    + rewrite platforms_app, Hp. simpl.
      eapply Forall2_impl_elem; [exact HF|].
      intros q kv Hq (Hk & s & Hv & Hok). split; [exact Hk|].
      exists s. split; [exact Hv|]. apply secs_other; [exact Hok|].
      rewrite Hp. apply platforms_elem in Hq as [Hq _]. now apply not_eq_sym.
Qed.

Lemma Inv_start : Inv [] [(VStr "symlinks", VDict [])].
Proof.
  split.
  - split; [repeat constructor; apply not_elem_of_nil|]. now intros [].
  - exists []. split; [reflexivity|]. constructor.
Qed.

Lemma save_entries_inv l : forall done data,
  Inv done data -> forallb savable l = true ->
  NoDup (map slot (done ++ l)) ->
  exists data', save_entries data l = Ret data' /\ Inv (done ++ l) data'.
Proof.
  induction l as [|e l IH]; intros done data HI Hs Hnd; simpl.
  - exists data. now rewrite app_nil_r.
  - simpl in Hs. apply andb_true_iff in Hs as [He Hl].
    assert (slot e ∉ map slot done) as Hn.
    { rewrite map_app in Hnd. apply NoDup_app in Hnd as (_ & Hnd & _).
      intros Hin. apply (Hnd _ Hin). simpl. now left. }
    destruct (save_entry_inv done data e HI He Hn) as (data1 & -> & HI1).
    simpl. replace (done ++ e :: l) with ((done ++ [e]) ++ l)
      by now rewrite <- app_assoc.
    apply IH; auto. now rewrite <- app_assoc.
Qed.

Lemma filter_keys_NoDup (f : value * value -> bool) d :
  NoDup (map fst d) -> NoDup (map fst (List.filter f d)).
Proof.
  induction d as [|kv d IH]; simpl; [auto|].
  intros [Hn Hnd]%NoDup_cons. destruct (f kv); simpl; [|now apply IH].
  apply NoDup_cons. split; [|now apply IH].
  intros Hin. apply Hn. apply list_elem_of_fmap in Hin as (kv' & -> & Hin).
  apply list_elem_of_In, filter_In in Hin as [Hin _].
  apply list_elem_of_fmap. exists kv'. split; [reflexivity|].
  now apply list_elem_of_In.
Qed.

Lemma sec_items_filter d name s :
  NoDup (map fst d) -> sec_items d name = Some s ->
  sec_items (List.filter nonempty d) name = Some s.
Proof.
  intros Hnd. unfold sec_items. rewrite dict_get_filter by exact Hnd.
  destruct (dict_get (VStr name) d) as [[| | | | |s0]|]; try discriminate; auto.
  intros [= <-]. unfold nonempty. simpl. now destruct s0.
Qed.

Lemma secs_ok_filter p l d :
  secs_ok p l d -> secs_ok p l (List.filter nonempty d).
Proof.
  intros [Hnd Hs]. split; [now apply filter_keys_NoDup|].
  intros k. now apply sec_items_filter.
Qed.

Lemma secs_ok_truthy p l d e :
  secs_ok p l d -> e ∈ l -> platform_name e = p -> d <> [].
Proof.
  intros [_ Hs] He Hp ->. specialize (Hs (is_link e)). simpl in Hs.
  injection Hs as Hs. symmetry in Hs. apply map_eq_nil in Hs.
  assert (In e (group p (is_link e) l)) as Hin.
  { apply filter_In. split; [now apply list_elem_of_In|].
    rewrite <- Hp. apply in_group_self. }
  now rewrite Hs in Hin.
Qed.

(** The platform groupings after cleaning. *)
Lemma plats_clean l ps P :
  (forall p, p ∈ ps -> exists e, e ∈ l /\ platform_name e = p) ->
  Forall2 (plat_ok l) ps P ->
  let plats :=
    List.filter nonempty
      (map (fun kv => (fst kv,
                       VDict (List.filter nonempty (as_dict (Some (snd kv)))))) P) in
  Forall2 (plat_ok l) ps plats.
Proof.
  intros Hps HF. induction HF as [|p [k1 v1] ps P Hr HF IH]; simpl.
  - constructor.
  - destruct Hr as (Hk & secs & Hv & Hok). simpl in Hk, Hv. subst k1 v1.
    simpl. destruct (Hps p) as (e & He & Hp); [now left|].
    pose proof (secs_ok_filter _ _ _ Hok) as Hok'.
    pose proof (secs_ok_truthy _ _ _ _ Hok' He Hp) as Hne.
    unfold nonempty at 1. simpl.
    destruct (List.filter nonempty secs) as [|x xs] eqn:F; [contradiction|].
    constructor.
    + split; [reflexivity|]. exists (x :: xs). split; [reflexivity|].
      exact Hok'.
    + apply IH. intros q Hq. apply Hps. now right.
Qed.

Lemma Inv_clean l data : Inv l data -> Inv l (clean data).
Proof.
  intros [Hg (P & HP & HF)].
  pose proof (secs_ok_filter _ _ _ Hg) as Hg1.
  assert (forall p, p ∈ platforms l -> exists e, e ∈ l /\ platform_name e = p)
    as Hps by (intros p Hp; now apply platforms_elem in Hp as [_ ?]).
  pose proof (plats_clean l _ P Hps HF) as HF'. cbv zeta in HF'.
  unfold clean.
  set (data1 := List.filter nonempty data) in *.
  assert (sec_items data1 "platform" = Some P) as HP1
      by (apply sec_items_filter; [apply Hg | exact HP]).
  unfold sec_items in HP1.
  destruct (dict_get (VStr "platform") data1) as [v|] eqn:G.
  - destruct v as [| | | | |P']; try discriminate.
    injection HP1 as HP1. subst P'. simpl as_dict.
    destruct (List.filter nonempty (map _ P)) as [|x xs] eqn:Epl.
    + apply Forall2_nil_inv_r in HF'. rewrite HF' in HF.
      apply Forall2_nil_inv_l in HF. subst P.
      exfalso. apply dict_get_in in G.
      apply list_elem_of_In, filter_In in G as [_ G]. discriminate.
    + split.
      * destruct Hg1 as [Hnd Hs]. split; [now apply dict_set_NoDup|].
        intros k. rewrite <- Hs. apply sec_items_other.
        apply dict_get_set_ne. apply sn_not_platform.
      * exists (x :: xs). split; [|exact HF'].
        unfold sec_items. now rewrite dict_get_set_eq.
  - injection HP1 as <-. split; [exact Hg1|]. exists []. split; [|exact HF].
    unfold sec_items. now rewrite G.
Qed.

Lemma savable_plain e :
  savable e = true -> plain (source e) = true /\ plain (dest e) = true.
Proof.
  unfold savable. intros [H _]%andb_true_iff.
  now apply andb_true_iff in H.
Qed.

Lemma res_map_items ty plat g :
  Forall (fun e => savable e = true) g ->
  res_map (entry_of_pair (VStr ty) plat) (map item_of g)
  = Ret (map (fun e => mkEntry (source e) (dest e) (VStr ty) plat) g).
Proof.
  induction 1 as [|e g He _ IH]; [reflexivity|].
  destruct (savable_plain e He) as [Hs Hd].
  cbn [map res_map]. rewrite IH.
  unfold entry_of_pair, item_of. cbn [fst snd to_Path res_bind].
  now rewrite (Path_of_string_str _ Hs), (Path_of_string_str _ Hd).
Qed.

Lemma section_read d name ty plat g :
  sec_items d name = Some (map item_of g) ->
  Forall (fun e => savable e = true) g ->
  section_entries (VDict d) name ty plat
  = Ret (map (fun e => mkEntry (source e) (dest e) (VStr ty) plat) g).
Proof.
  intros Hs Hg. unfold section_entries, py_get, sec_items in *.
  simpl res_bind.
  destruct (dict_get (VStr name) d) as [[| | | | |s]|]; try discriminate;
    injection Hs as Hs.
  - subst s. cbn [items res_bind]. now apply res_map_items.
  - symmetry in Hs. apply map_eq_nil in Hs. now subst g.
Qed.

Lemma group_savable p k l :
  forallb savable l = true -> Forall (fun e => savable e = true) (group p k l).
Proof.
  intros H. apply Forall_forall. intros e He.
  apply list_elem_of_In, filter_In in He as [He _].
  rewrite forallb_forall in H. now apply H.
Qed.

Lemma group_normal (p : string) (k : bool) (l : list FileEntry) :
  map (fun e => mkEntry (source e) (dest e)
                        (VStr (if k then "symlink" else "copy"))
                        (if String.eqb p "" then VNone else VStr p))
      (group p k l)
  = map normal (group p k l).
Proof.
  apply map_ext_in. intros e He. unfold group in He.
  apply filter_In in He as [Hin He].
  apply in_group_inv in He as [Hp Hk]. unfold normal. now rewrite Hp, Hk.
Qed.

Lemma res_map_Forall2 {A B C} (f : B -> res C) (g : A -> C) xs ys :
  Forall2 (fun x y => f y = Ret (g x)) xs ys ->
  res_map f ys = Ret (map g xs).
Proof.
  induction 1 as [|x y xs ys H _ IH]; simpl; [reflexivity|].
  now rewrite H, IH.
Qed.

Lemma plat_read cd P :
  sec_items cd "platform" = Some P ->
  items (match dict_get (VStr "platform") cd with
         | Some v => v
         | None => VDict []
         end) = Ret P.
Proof.
  unfold sec_items.
  destruct (dict_get (VStr "platform") cd) as [[| | | | |s]|];
    try discriminate; now intros [= ->].
Qed.

Lemma load_Inv l cd path :
  Inv l cd -> dict_get (VStr "entries") cd = None ->
  forallb savable l = true ->
  load path (Some (Parsed (VDict cd)))
  = Ret (mkManifest (map normal (regroup l)) path).
Proof.
  intros [[Hnd Hs] (P & HP & HF)] He Hsav. unfold load.
  assert ((if truthy (VDict cd) then VDict cd else VDict []) = VDict cd) as ->
      by now destruct cd.
  unfold py_in. rewrite He. simpl res_bind.
  rewrite (section_read cd "symlinks" "symlink" VNone (group "" true l));
    [|apply (Hs true) | now apply group_savable].
  simpl res_bind.
  rewrite (section_read cd "copies" "copy" VNone (group "" false l));
    [|apply (Hs false) | now apply group_savable].
  simpl res_bind.
  rewrite (plat_read cd P HP). simpl res_bind.
  rewrite (res_map_Forall2 platform_entries
             (fun p => map normal (group p true l) ++ map normal (group p false l))
             (platforms l) P).
  - simpl. f_equal. f_equal. unfold regroup.
    rewrite !map_app, <- (group_normal "" true), <- (group_normal "" false).
    simpl. f_equal. f_equal.
    rewrite concat_map, map_map. f_equal. apply map_ext. intros p.
    now rewrite map_app.
  - eapply Forall2_impl_elem; [exact HF|].
    intros p [k v] Hp (Hk & secs & Hv & _ & Hsec). simpl in Hk, Hv. subst k v.
    apply platforms_elem in Hp as [Hp _]. apply String.eqb_neq in Hp.
    unfold platform_entries. cbn [fst snd].
    rewrite (section_read secs "symlinks" "symlink" (VStr p) (group p true l));
      [|apply (Hsec true) | now apply group_savable].
    simpl res_bind.
    rewrite (section_read secs "copies" "copy" (VStr p) (group p false l));
      [|apply (Hsec false) | now apply group_savable].
    simpl. rewrite <- (group_normal p true), <- (group_normal p false).
    now rewrite Hp.
Qed.



Lemma normal_canonical e : canonical e = true -> normal e = e.
Proof.
  destruct e as [s d t p]. unfold canonical, normal, is_link, platform_name.
  simpl. intros [Ht Hp]%andb_true_iff.
  destruct t as [| | |t| |]; try discriminate.
  destruct p as [| | |p| |]; try discriminate; simpl.
  - apply orb_true_iff in Ht as [Ht|Ht]; apply String.eqb_eq in Ht; now subst t.
  - apply negb_true_iff in Hp. rewrite Hp.
    apply orb_true_iff in Ht as [Ht|Ht]; apply String.eqb_eq in Ht; now subst t.
Qed.

Lemma filter_disjoint_perm {A} (f g : A -> bool) l :
  (forall x, f x && g x = false) ->
  List.filter f l ++ List.filter g l ≡ₚ List.filter (fun x => f x || g x) l.
Proof.
  intros Hd. induction l as [|x l IH]; simpl; [reflexivity|].
  specialize (Hd x).
  destruct (f x), (g x); simpl in *; try discriminate.
  - now constructor.
  - rewrite <- Permutation_middle. now constructor.
  - exact IH.
Qed.

Lemma filter_true {A} (f : A -> bool) l :
  (forall x, In x l -> f x = true) -> List.filter f l = l.
Proof.
  induction l as [|x l IH]; simpl; [reflexivity|]. intros H.
  rewrite (H x) by now left. f_equal. apply IH. intros y Hy. apply H. now right.
Qed.

Lemma group_pair p l :
  group p true l ++ group p false l ≡ₚ List.filter (of_platform p) l.
Proof.
  unfold group. rewrite filter_disjoint_perm.
  - erewrite filter_ext; [reflexivity|]. intros e. unfold in_group, of_platform.
    destruct (String.eqb (platform_name e) p), (is_link e); reflexivity.
  - intros e. unfold in_group.
    destruct (String.eqb (platform_name e) p), (is_link e); reflexivity.
Qed.

Lemma platform_groups l ps :
  NoDup ps ->
  concat (map (fun p => group p true l ++ group p false l) ps)
  ≡ₚ List.filter (fun e => bool_decide (platform_name e ∈ ps)) l.
Proof.
  induction 1 as [|p ps Hp Hnd IH]; cbn [map concat].
  - assert (List.filter (fun e => bool_decide (platform_name e ∈ [])) l = [])
      as ->; [|reflexivity].
    induction l as [|e l IHl]; [reflexivity|]. cbn [List.filter].
    rewrite bool_decide_eq_false_2; [exact IHl | apply not_elem_of_nil].
  - rewrite IH, group_pair, filter_disjoint_perm.
    + erewrite filter_ext; [reflexivity|]. intros e. unfold of_platform.
      destruct (String.eqb (platform_name e) p) eqn:E; simpl.
      * apply String.eqb_eq in E. symmetry. apply bool_decide_eq_true_2.
        rewrite E. now left.
      * apply String.eqb_neq in E. apply bool_decide_ext.
        rewrite elem_of_cons. intuition.
    + intros e. unfold of_platform.
      destruct (String.eqb (platform_name e) p) eqn:E; [|reflexivity].
      apply String.eqb_eq in E. simpl. apply bool_decide_eq_false_2. now rewrite E.
Qed.

Lemma regroup_perm l : regroup l ≡ₚ l.
Proof.
  unfold regroup. rewrite app_assoc, group_pair, platform_groups
    by apply platforms_NoDup.
  rewrite filter_disjoint_perm.
  - rewrite filter_true; [reflexivity|]. intros e He. unfold of_platform.
    destruct (String.eqb (platform_name e) "") eqn:E; [reflexivity|]. simpl.
    apply bool_decide_eq_true_2, platforms_elem. apply String.eqb_neq in E.
    split; [exact E|]. exists e. split; [now apply list_elem_of_In | reflexivity].
  - intros e. unfold of_platform.
    destruct (String.eqb (platform_name e) "") eqn:E; [|reflexivity]. simpl.
    apply String.eqb_eq in E. apply bool_decide_eq_false_2.
    rewrite E. intros [H _]%platforms_elem. contradiction.
Qed.

Lemma regroup_normal l :
  forallb canonical l = true -> map normal (regroup l) = regroup l.
Proof.
  intros H. rewrite <- (map_id (regroup l)) at 2. apply map_ext_in.
  intros e He. apply normal_canonical.
  rewrite forallb_forall in H. apply H.
  apply list_elem_of_In. rewrite <- (regroup_perm l). now apply list_elem_of_In.
Qed.

(** X13.  What [save] wrote, [load] reads back.  For entries with paths as
    [pathlib] keeps them and a platform that is [None] or a text, no two
    of them with the same source in the same grouping: loading the
    document that [save] wrote gives the same entries, regrouped (those of
    every platform first, symlinks before copies, then each platform in
    turn), with any type other than ["symlink"] read back as ["copy"] and
    an empty platform as [None]; entries whose type is ["symlink"] or
    ["copy"] come back unchanged. *)
Theorem load_after_save (m : Manifest) (w w' : World) :
  forallb savable (entries m) = true ->
  NoDup (map slot (entries m)) ->
  save m w = (Ret tt, w') ->
  load (path m) (disk w')
  = Ret (mkManifest (map normal (regroup (entries m))) (path m)) /\
  regroup (entries m) ≡ₚ entries m /\
  (forallb canonical (entries m) = true ->
   map normal (regroup (entries m)) = regroup (entries m)).
Proof.
  intros Hs Hnd Hsave.
  split; [|split; [apply regroup_perm | apply regroup_normal]].
  revert Hsave. unfold save.
  destruct (save_data (entries m)) as [data|e] eqn:D; [|discriminate].
  unfold wbind, on_tree, write_document.
  destruct (mkdir_parents _ (tree w)) as [[[]|e] fs]; [|discriminate].
  intros [= <-]. cbn [disk].
  destruct (save_data_shape _ _ D) as [_ He].
  unfold save_data in D.
  destruct (save_entries_inv (entries m) [] _ Inv_start Hs Hnd)
    as (data0 & Hd0 & HI).
  rewrite Hd0 in D. simpl in D. injection D as <-.
  apply load_Inv; auto. now apply Inv_clean.
Qed.

End SavedFacts.

(** * Further worked cases *)

Module MoreCases.
Import Manifest Fixtures MoreFixtures.

Lemma find_by_dest_after_remove_witness :
  let m' := snd (fst (remove dest_git manifest2 world_empty)) in
  length (entries manifest2) = S (length (entries m')) /\
  find_by_dest dest_git m' = None.
Proof.
  cbv zeta.
  destruct (remove dest_git manifest2 world_empty) as [[r m'] w'] eqn:E.
  cbn [fst snd].
  destruct (LookupFacts.find_by_dest_after_remove dest_git manifest2 m'
              world_empty w' r) as (H1 & _ & H3).
  - exists e_git. split; [|reflexivity]. apply elem_of_cons. now left.
  - exact E.
  - split; [exact H1|]. apply H3. apply (bool_decide_unpack _). vm_compute.
    exact I.
Defined.

Lemma wf_tree0 : WellFormed.wf tree0.
Proof. apply (bool_decide_unpack _). vm_compute. exact I. Qed.


Lemma check_after_create_witness :
  let first :=
    Reconcile.create (T := plain) home0 true src_git dest_git false None tree0 in
  Status.check (D := listing_dircmp) home0 true src_git dest_git (snd first)
  = (Ret "ok", snd first).
Proof.
  cbv zeta.
  assert (exists_ tree0 src_git = true) as H1 by (vm_compute; reflexivity).
  assert (fst (Reconcile.create (T := plain) home0 true src_git dest_git false
                                None tree0)
          = Ret (true, "created")) as H2 by (vm_compute; reflexivity).
  exact (StatusFacts.check_after_create (T := plain) (D := listing_dircmp)
           home0 true src_git dest_git None tree0 _ "created" H1
           (Cases.with_snd _ _ H2)).
Defined.

Lemma check_predicts_create_witness :
  Reconcile.create (T := plain) home0 true src_git dest_git false None tree_own
  = (Ret (false, "conflict"), tree_own).
Proof.
  destruct (StatusFacts.check_predicts_create (T := plain) (D := listing_dircmp)
              home0 true src_git dest_git None tree_own "conflict")
    as (_ & H & _).
  - vm_compute. reflexivity.
  - apply H; discriminate.
Defined.


Lemma remove_symlink_only_links_witness :
  Linker.remove_symlink home0 dest_git tree_own = (Ret false, tree_own).
Proof.
  destruct (LinkerFacts.remove_symlink_only_links home0 dest_git tree_own)
    as [H _].
  apply H. vm_compute. reflexivity.
Defined.

Lemma create_then_remove_symlink_witness :
  let first :=
    Linker.create_symlink (T := plain) home0 src_git dest_git false None tree0 in
  Linker.remove_symlink home0 dest_git (snd first) = (Ret true, tree0).
Proof.
  cbv zeta.
  assert (fst (Linker.create_symlink (T := plain) home0 src_git dest_git false
                                     None tree0)
          = Ret (true, "created")) as H by (vm_compute; reflexivity).
  destruct (LinkerFacts.create_then_remove_symlink (T := plain) home0 src_git
              dest_git None tree0 _ (Cases.with_snd _ _ H))
    as (fs' & _ & Hfs & Hr).
  rewrite Hr, Hfs; [reflexivity|]. vm_compute. reflexivity.
Defined.

Lemma copy_file_fresh_witness :
  exists k,
    tree0 !! k = None /\
    Copier.copy_file (T := plain) home0 src_git dest_ssh false None tree0
    = (Ret (true, "copied"), <[k := File 384 "[user]"]> tree0).
Proof.
  assert (stat tree0 src_git = Some (File 420 "[user]")) as H1
      by (vm_compute; reflexivity).
  assert (is_dir tree0 (parent (under home0 dest_ssh)) = true) as H2
      by (vm_compute; reflexivity).
  assert (exists_ tree0 (under home0 dest_ssh) = false) as H3
      by (vm_compute; reflexivity).
  assert (is_symlink tree0 (under home0 dest_ssh) = false) as H4
      by (vm_compute; reflexivity).
  assert (Copier._is_sensitive dest_ssh = true) as H5
      by (vm_compute; reflexivity).
  destruct (FrameFacts.copy_file_fresh (T := plain) home0 src_git dest_ssh
              false None tree0 420 "[user]" wf_tree0 H1 H2 H3 H4)
    as (k & Hk & Hc & _).
  exists k. split; [exact Hk|]. rewrite H5 in Hc. exact Hc.
Defined.

Lemma create_without_force_extends_witness :
  snd (Reconcile.create (T := plain) home0 false src_git dest_git false None
                        tree0) !! src_git
  = Some (File 420 "[user]").
Proof.
  assert (is_file tree0 src_git = true) as H1 by (vm_compute; reflexivity).
  assert (tree0 !! src_git = Some (File 420 "[user]")) as H2
      by (vm_compute; reflexivity).
  destruct (Reconcile.create (T := plain) home0 false src_git dest_git false
                             None tree0) as [r fs'] eqn:E.
  exact (FrameFacts.create_without_force_extends (T := plain) home0 false
           src_git dest_git None tree0 fs' r (fun _ => H1) E _ _ H2).
Defined.

Lemma apply_reports_every_entry_witness :
  exists lines c,
    length lines = 2 /\ Reports.total c = 2 /\
    console (snd (Sync.apply (T := plain) cfg0 false false world_free))
    = header "Applying files" :: lines ++ Reports.summary c.
Proof.
  assert (fst (Sync.apply (T := plain) cfg0 false false world_free) = Ret tt)
    as H by (vm_compute; reflexivity).
  destruct (ApplyFacts.apply_reports_every_entry (T := plain) cfg0 false
              world_free _
              (mkManifest [e_nvim; mkEntry (Path_of_string "files/gitconfig")
                                     dest_git (VStr "symlink") VNone]
                          (Sync.files_yaml cfg0))
              eq_refl ltac:(discriminate) (Cases.with_snd _ _ H))
    as (lines & c & tail & Hl & Ht & Hc & Hf & _).
  exists lines, c. rewrite (Hf eq_refl), app_nil_r in Hc.
  split; [|split; [exact Ht | exact Hc]].
  apply Forall2_length in Hl. now rewrite <- Hl.
Defined.

Lemma apply_without_force_extends_witness :
  tree (snd (Sync.apply (T := plain) cfg0 false false world_copy)) !! src_git
  = Some (File 420 "[user]").
Proof.
  assert (tree0 !! src_git = Some (File 420 "[user]")) as H2
      by (vm_compute; reflexivity).
  destruct (ApplyFacts.apply_without_force_extends (T := plain) cfg0 false
              world_copy) as [Hsub _].
  - intros m e L He Hl. injection L as <-.
    apply elem_of_cons in He as [->|He]; [vm_compute; reflexivity|].
    apply elem_of_cons in He as [->|He]; [discriminate|].
    now apply elem_of_nil in He.
  - eapply lookup_weaken; [exact H2 | exact Hsub].
Defined.

Lemma remove_command_witness :
  Tracking.remove cfg0 ".zshrc" world_tracked
  = (Ret (false, [Tracking.err_not_tracked ".zshrc"]), world_tracked).
Proof.
  destruct (TrackingFacts.remove_command cfg0 ".zshrc" world_tracked)
    as [H _].
  eapply H; [reflexivity|]. vm_compute. reflexivity.
Defined.

Lemma load_after_save_witness :
  load (path manifest3) (disk (snd (save manifest3 world_empty)))
  = Ret (mkManifest [e_git; e_nvim; e_ssh_darwin] (path manifest3)).
Proof.
  assert (fst (save manifest3 world_empty) = Ret tt) as H
      by (vm_compute; reflexivity).
  destruct (SavedFacts.load_after_save manifest3 world_empty
              (snd (save manifest3 world_empty)))
    as (Hl & _ & _); [| |exact (Cases.with_snd _ _ H)|].
  - vm_compute. reflexivity.
  - apply (bool_decide_unpack _). vm_compute. exact I.
  - rewrite Hl. vm_compute. reflexivity.
Defined.

End MoreCases.

(** * Writing over a regular file *)

(** ** Resolution does not look at the bytes *)

Module ContentFacts.
Import Resolution Contents FsFacts.

Lemma same_shape_refl (fs : FS) : same_shape fs fs.
Proof. intros k. unfold same_kind. now destruct (fs !! k) as [[]|]. Qed.

Lemma same_shape_insert (fs : FS) k m b m' b' :
  fs !! k = Some (File m b) -> same_shape fs (<[k := File m' b']> fs).
Proof.
  intros Hk x. destruct (decide (x = k)) as [->|Hx].
  - now rewrite lookup_insert_eq, Hk.
  - rewrite lookup_insert_ne by congruence. apply same_shape_refl.
Qed.

Lemma same_shape_dir (fs fs' : FS) p :
  same_shape fs fs' -> is_dir_at fs' p = is_dir_at fs p.
Proof.
  intros H. unfold is_dir_at, node_at. destruct p as [|c p]; [reflexivity|].
  specialize (H (c :: p)). unfold same_kind in H.
  destruct (fs !! (c :: p)) as [[]|], (fs' !! (c :: p)) as [[]|];
    try reflexivity; try discriminate; try contradiction.
Qed.

Lemma same_shape_size (fs fs' : FS) : same_shape fs fs' -> size fs' = size fs.
Proof.
  intros H. rewrite <- !size_dom. f_equal. apply set_eq. intros k.
  rewrite !elem_of_dom. specialize (H k). unfold same_kind in H.
  destruct (fs !! k) as [[]|], (fs' !! k) as [[]|]; try discriminate;
    try contradiction; split; intros [? ?]; eauto; discriminate.
Qed.

Section Walk.

Variables follow follow' : list apath -> apath -> Path -> apath * wstatus.
Variables fs fs' : FS.
Hypothesis Hshape : same_shape fs fs'.
Hypothesis Hfollow : forall seen base t, follow' seen base t = follow seen base t.

Lemma walkc_same_shape todo :
  forall seen cur st,
    walkc follow' fs' seen cur st todo = walkc follow fs seen cur st todo.
Proof.
  induction todo as [|c rest IH]; intros seen cur st; simpl; [reflexivity|].
  rewrite (same_shape_dir _ _ cur Hshape).
  destruct (decide (c = "..")); [apply IH|].
  unfold child. rewrite (same_shape_dir _ _ cur Hshape).
  destruct (is_dir_at fs cur); [|apply IH].
  pose proof (Hshape (cur ++ [c])) as Hk. unfold same_kind in Hk.
  destruct (fs !! (cur ++ [c])) as [[m b| |t]|],
           (fs' !! (cur ++ [c])) as [[m' b'| |t']|];
    try discriminate; try contradiction; try apply IH.
  injection Hk as ->. destruct (decide _); [apply IH|].
  rewrite Hfollow. destruct (follow _ _ t'). apply IH.
Qed.

End Walk.

Lemma realpath_same_shape (fs fs' : FS) :
  same_shape fs fs' ->
  forall d seen cur todo,
    realpath d fs' seen cur todo = realpath d fs seen cur todo.
Proof.
  intros H. induction d as [|d IH]; intros seen cur todo; simpl;
    apply walkc_same_shape; auto.
Qed.

(** Paths lead where they led when only the bytes of regular files
    changed. *)
Lemma canon_same_shape (fs fs' : FS) p :
  same_shape fs fs' -> canon fs' p = canon fs p.
Proof.
  intros H. unfold canon, depth. rewrite (same_shape_size _ _ H).
  now apply realpath_same_shape.
Qed.

Lemma locate_same_shape (fs fs' : FS) p :
  same_shape fs fs' ->
  fst (locate fs' p) = fst (locate fs p) /\
  snd (locate fs' p) = snd (locate fs p).
Proof.
  intros H. unfold locate. destruct (unsnoc p) as [[q c]|]; [|now split].
  rewrite (canon_same_shape _ _ q H). destruct (canon fs q) as [cq st].
  rewrite (same_shape_dir _ _ cq H).
  destruct (decide (c = "..")); [now split|]. simpl. split; [reflexivity|].
  f_equal. unfold child. rewrite (same_shape_dir _ _ cq H).
  destruct (is_dir_at fs cq); [|reflexivity].
  specialize (H (cq ++ [c])). unfold same_kind in H.
  destruct (fs !! (cq ++ [c])) as [[]|], (fs' !! (cq ++ [c])) as [[]|];
    try discriminate; try contradiction; reflexivity.
Qed.

Lemma is_symlink_same_shape (fs fs' : FS) p :
  same_shape fs fs' -> is_symlink fs' p = is_symlink fs p.
Proof.
  intros H. unfold is_symlink, lstat.
  destruct (locate_same_shape _ _ p H) as [H1 H2].
  destruct (locate fs p) as [k st], (locate fs' p) as [k' st'].
  simpl in H1, H2. subst k' st'. destruct st; try reflexivity.
  unfold node_at. destruct k as [|c k]; [reflexivity|].
  specialize (H (c :: k)). unfold same_kind in H.
  destruct (fs !! (c :: k)) as [[]|], (fs' !! (c :: k)) as [[]|];
    try discriminate; try contradiction; reflexivity.
Qed.

(** After writing new bytes to the regular file at [k], a path that led
    to another regular file finds the same file, and one that led to [k]
    finds the new bytes. *)
Lemma stat_overwritten (fs : FS) k m b m' b' p n :
  node_at fs k = Some (File m b) ->
  stat fs p = Some n ->
  stat (<[k := File m' b']> fs) p
  = Some (if decide (fst (canon fs p) = k) then File m' b' else n).
Proof.
  intros Hn. destruct k as [|y k]; [discriminate|]. simpl in Hn. unfold stat.
  rewrite (canon_same_shape fs _ p (same_shape_insert _ _ _ _ m' b' Hn)).
  destruct (canon fs p) as [c st]. destruct st; try discriminate. simpl.
  destruct c as [|x c]; simpl.
  - intros [= <-]. now destruct (decide ([] = y :: k)).
  - intros Hc. destruct (decide (x :: c = y :: k)) as [E|Hne].
    + rewrite E. now rewrite lookup_insert_eq.
    + rewrite lookup_insert_ne by congruence. exact Hc.
Qed.

End ContentFacts.

(** ** [collect] after [collect] *)

Module CollectTwice.
Import Resolution Conditions Contents WellFormed FsFacts WfFacts ContentFacts.
Import SyncFacts.
Section CollectTwice.

Context {T : TreeOps} (cfg : Sync.Config).

Lemma copy2_Ret (fs fs2 : FS) src dst :
  is_dir fs dst = false ->
  copy2 src dst fs = (Ret tt, fs2) ->
  exists m b c,
    open_read fs src = Ret (m, b) /\ open_write fs dst = Ret c /\
    samefile fs src dst = false /\ fs2 = <[c := File m b]> fs.
Proof.
  intros Dd. unfold copy2. rewrite Dd.
  destruct (samefile fs src dst); [discriminate|].
  destruct (open_read fs src) as [[m b]|]; [|discriminate].
  destruct (open_write fs dst) as [c|]; [|discriminate].
  intros [= <-]. now exists m, b, c.
Qed.

Lemma open_read_stat (fs : FS) p m b :
  open_read fs p = Ret (m, b) <-> stat fs p = Some (File m b).
Proof.
  unfold open_read, stat. destruct (canon fs p) as [c []];
    try (split; discriminate).
  destruct (node_at fs c) as [[m' b'| |]|]; split; try discriminate;
    now intros [= -> ->].
Qed.

(** What a successful [copy2] of a regular file leaves: the bytes are at
    the target, and the file copied is as it was. *)
Lemma copy2_copies (fs fs2 : FS) src dst m b :
  stat fs src = Some (File m b) ->
  is_dir fs dst = false ->
  copy2 src dst fs = (Ret tt, fs2) ->
  stat fs2 dst = Some (File m b) /\ stat fs2 src = Some (File m b) /\
  same_shape fs fs2 \/
  stat fs2 dst = Some (File m b) /\ stat fs2 src = Some (File m b) /\
  fs ⊆ fs2.
Proof.
  intros Ss Dd C. apply (copy2_Ret _ _ _ _ Dd) in C as (m' & b' & c & R & Wr & Sf & ->).
  apply open_read_stat in R. rewrite Ss in R. injection R as <- <-.
  unfold open_write in Wr. unfold samefile in Sf.
  destruct (canon fs dst) as [cd st] eqn:Ed. destruct st; try discriminate.
  - destruct (node_at fs cd) as [[m0 b0| |]|] eqn:Nd; try discriminate.
    injection Wr as <-. left.
    assert (fst (canon fs src) <> cd) as Hne.
    { unfold stat in Ss. destruct (canon fs src) as [cs []]; try discriminate.
      simpl. now apply bool_decide_eq_false in Sf. }
    split; [|split].
    + rewrite (stat_overwritten fs cd m0 b0 m b dst (File m0 b0) Nd).
      * rewrite Ed. simpl. now rewrite decide_True.
      * unfold stat. now rewrite Ed.
    + rewrite (stat_overwritten fs cd m0 b0 m b src _ Nd Ss).
      now rewrite decide_False.
    + destruct cd as [|x cd]; [discriminate|]. simpl in Nd.
      now apply (same_shape_insert _ _ m0 b0).
  - injection Wr as <-. right.
    destruct (stat_created fs dst cd (File m b) I Ed) as [Hsub Sd].
    split; [exact Sd|]. split; [|exact Hsub].
    eapply stat_weaken; eauto.
Qed.

Local Arguments Sync.collect_copy : simpl never.

Lemma collect_copy_file (entry : Manifest.FileEntry) (c s : nat) (w w1 : World)
    m b :
  is_dir (tree w) (parent (Conditions.source_abs cfg entry)) = true ->
  is_dir (tree w) (Conditions.source_abs cfg entry) = false ->
  stat (tree w) (Conditions.dest_abs cfg entry) = Some (File m b) ->
  Sync.collect_copy cfg entry (c, s) w = (Ret (S c, s), w1) ->
  stat (tree w1) (Conditions.dest_abs cfg entry) = Some (File m b) /\
  stat (tree w1) (Conditions.source_abs cfg entry) = Some (File m b).
Proof.
  intros Dp Ds Sd. unfold Conditions.source_abs, Conditions.dest_abs in *.
  unfold Sync.collect_copy, Sync.except_Exception.
  unfold wbind, on_tree, look, say, wret.
  rewrite (mkdir_parents_noop _ _ Dp). cbn [tree disk console].
  assert (is_dir (tree w) (under (Sync.home cfg) (Manifest.dest entry)) = false)
    as Dd by (unfold is_dir; now rewrite Sd).
  rewrite Dd. cbn [tree disk console].
  destruct (copy2 _ _ (tree w)) as [[[]|e] fs2] eqn:C; cbn.
  - intros [= <-]. cbn.
    destruct (copy2_copies _ _ _ _ _ _ Sd Ds C) as [(H1 & H2 & _)|(H1 & H2 & _)];
      now split.
  - intros [= Hc]. exfalso. clear -Hc. induction c; [discriminate|].
    injection Hc as Hc. now apply IHc.
Qed.

(** X14.  [collect] is stable for a regular file.  When the destination is a
    regular file, the directory of the source is there, and [collect] (not
    a dry run) collected the entry, the source and the destination are
    regular files with the same bytes afterwards; on the resulting tree
    [collect] skips the entry, in a dry run or not. *)
Theorem collect_twice_skips (dry_run : bool) (entry : Manifest.FileEntry)
    (collected skipped collected' skipped' : nat) (w w1 : World) :
  is_dir (tree w) (parent (Conditions.source_abs cfg entry)) = true ->
  is_file (tree w) (Conditions.dest_abs cfg entry) = true ->
  Sync.collect_entry cfg false entry (collected, skipped) w
  = (Ret (S collected, skipped), w1) ->
  (exists m1 m2 b,
      stat (tree w1) (Conditions.source_abs cfg entry) = Some (File m1 b) /\
      stat (tree w1) (Conditions.dest_abs cfg entry) = Some (File m2 b)) /\
  fst (Sync.collect_entry cfg dry_run entry (collected', skipped') w1)
  = Ret (collected', S skipped').
Proof.
  intros Dp Fd H.
  assert (exists m b,
             stat (tree w) (Conditions.dest_abs cfg entry) = Some (File m b))
    as (m & b & Sd).
  { unfold is_file in Fd.
    destruct (stat (tree w) _) as [[m b| |]|]; try discriminate.
    now exists m, b. }
  assert (is_dir (tree w) (Conditions.source_abs cfg entry) = false /\
          Sync.collect_copy cfg entry (collected, skipped) w
          = (Ret (S collected, skipped), w1)) as [Ds Hc].
  { revert H. unfold Sync.collect_entry, wbind, look, say, wret, on_tree, lift.
    unfold Conditions.dest_abs in Sd. unfold Conditions.source_abs.
    destruct w as [t d c0]. cbn [tree disk console] in *.
    unfold exists_, is_dir. rewrite Sd. cbn.
    destruct (is_symlink t _); cbn.
    { intros [= H _]. now apply n_Sn in H. }
    destruct (stat t (under (Sync.dotfiles_path cfg) _)) as [n|] eqn:Ss;
      cbn; rewrite ?Sd; cbn [negb tree disk console]; [|auto].
    destruct (read_bytes t
                (under (Sync.dotfiles_path cfg) (Manifest.source entry)))
      as [a|] eqn:Ra; [|discriminate].
    assert (n <> Dir) as Hn.
    { intros ->.
      rewrite CollectFacts.read_bytes_dir in Ra; [discriminate|].
      unfold is_dir. now rewrite Ss. }
    assert (read_bytes t (under (Sync.home cfg) (Manifest.dest entry))
            = Ret b) as -> by (apply read_bytes_Ret; now exists m).
    destruct (String.eqb a b).
    - intros [= H _]. now apply n_Sn in H.
    - intros H. split; [|exact H]. now destruct n. }
  destruct (collect_copy_file _ _ _ _ _ _ _ Dp Ds Sd Hc) as [Sd1 Ss1].
  split; [now exists m, m, b|].
  apply (collect_entry_skip cfg dry_run entry collected' skipped' w1).
  right. right. split.
  - unfold is_dir. now rewrite Sd1.
  - now exists m, m, b.
Qed.

End CollectTwice.
End CollectTwice.

(** ** [copy_file] over a regular file *)

Module BackupFacts.
Import Resolution Conditions Contents WellFormed FsFacts WfFacts ContentFacts.
Import FrameFacts.
Section BackupFacts.

Context {T : TreeOps} {D : Status.DirCmp} (home : apath).

Lemma stat_canon (fs : FS) p n :
  stat fs p = Some n ->
  exists c, canon fs p = (c, Found) /\ node_at fs c = Some n.
Proof.
  unfold stat. destruct (canon fs p) as [c []]; try discriminate.
  intros H. now exists c.
Qed.

Lemma copy2_new (fs : FS) src dst cs k m b :
  canon fs src = (cs, Found) -> node_at fs cs = Some (File m b) ->
  canon fs dst = (k, Creatable) ->
  copy2 src dst fs = (Ret tt, <[k := File m b]> fs).
Proof.
  intros Es Ns Ed. unfold copy2, is_dir, stat, samefile, open_read, open_write.
  rewrite Ed. cbv beta iota zeta. now rewrite Es, Ed, Ns.
Qed.

Lemma copy2_over (fs : FS) src dst cs cd m b m' b' :
  canon fs src = (cs, Found) -> node_at fs cs = Some (File m b) ->
  canon fs dst = (cd, Found) -> node_at fs cd = Some (File m' b') ->
  cs <> cd ->
  copy2 src dst fs = (Ret tt, <[cd := File m b]> fs).
Proof.
  intros Es Ns Ed Nd Hne.
  unfold copy2, is_dir, stat, samefile, open_read, open_write.
  rewrite Ed, Nd. cbv beta iota zeta. rewrite Es, Ed, Ns, Nd.
  now rewrite bool_decide_eq_false_2.
Qed.

Lemma relative_to_app (base l : apath) : relative_to (base ++ l) base = Some l.
Proof.
  induction base as [|a base IH]; simpl; [now destruct l|].
  now rewrite decide_True.
Qed.

Lemma chmod_file (fs : FS) p c m b mode :
  canon fs p = (c, Found) -> node_at fs c = Some (File m b) ->
  chmod p mode fs = (Ret tt, <[c := File mode b]> fs).
Proof. intros E N. unfold chmod. now rewrite E, N. Qed.

(** X15.  [copy_file] with [force] over a regular file with other bytes, with a
    backup directory, for a destination relative to the home: the old
    bytes are kept at the backup path, the destination gets the bytes of
    the source (with mode [0o600] when its text holds a sensitive word),
    the source is as it was, and [check_copy] then answers ["ok"].  The
    backup path is the destination under the backup directory; here
    nothing is at it yet, and its directory is there. *)
Theorem copy_file_force_backup (source : apath) (dest : Path) (bdir : apath)
    (fs : FS) (ms md : N) (bs bd : string) :
  wf fs ->
  is_absolute dest = false ->
  stat fs source = Some (File ms bs) ->
  stat fs (under home dest) = Some (File md bd) ->
  bs <> bd ->
  is_dir fs (parent (bdir ++ names dest)) = true ->
  exists_ fs (bdir ++ names dest) = false ->
  is_symlink fs (bdir ++ names dest) = false ->
  let mode := if Copier._is_sensitive dest then 384%N else ms in
  exists cd k,
    canon fs (under home dest) = (cd, Found) /\ fs !! k = None /\
    let fs' := <[cd := File mode bs]> (<[k := File md bd]> fs) in
    Copier.copy_file home source dest true (Some bdir) fs
    = (Ret (true, "copied"), fs') /\
    stat fs' (under home dest) = Some (File mode bs) /\
    stat fs' (bdir ++ names dest) = Some (File md bd) /\
    stat fs' source = Some (File ms bs) /\
    Status.check_copy home source dest fs' = (Ret "ok", fs').
Proof.
  intros W Rl Ss Sd Hne Dbp Ex Ls mode.
  destruct (stat_parent_dir _ _ _ Sd) as [Dp _].
  assert (relative_to (under home dest) home = Some (names dest)) as Rel.
  { unfold under. rewrite Rl. apply relative_to_app. }
  destruct (stat_canon _ _ _ Ss) as (cs & Es & Ns).
  destruct (stat_canon _ _ _ Sd) as (cd & Ed & Nd).
  destruct (free_Creatable _ _ W Dbp Ex Ls) as [k Lo].
  apply locate_Creatable in Lo as [Ek _].
  destruct (canon_create _ _ _ (File md bd) I Ek) as (Hk & Hk0 & Ek1).
  set (fs1 := <[k := File md bd]> fs) in *.
  assert (fs ⊆ fs1) as Hsub by now apply insert_subseteq.
  assert (cs <> cd) as Hcs by (intros ->; rewrite Ns in Nd; congruence).
  assert (k <> cd) as Hkd.
  { intros ->. destruct cd; [contradiction|]. simpl in Nd. congruence. }
  pose proof (canon_weaken _ _ _ _ Hsub Es) as Es1.
  pose proof (canon_weaken _ _ _ _ Hsub Ed) as Ed1.
  pose proof (node_at_weaken _ _ _ _ Hsub Ns) as Ns1.
  pose proof (node_at_weaken _ _ _ _ Hsub Nd) as Nd1.
  assert (stat fs1 (bdir ++ names dest) = Some (File md bd)) as Sb1.
  { now destruct (stat_created fs _ k (File md bd) I Ek). }
  assert (stat (<[cd := File mode bs]> fs1) (under home dest)
          = Some (File mode bs)) as Sd'.
  { rewrite (stat_overwritten fs1 cd md bd mode bs _ (File md bd) Nd1).
    - rewrite Ed1. simpl. now rewrite decide_True.
    - unfold stat. now rewrite Ed1. }
  assert (stat (<[cd := File mode bs]> fs1) source = Some (File ms bs)) as Ss'.
  { rewrite (stat_overwritten fs1 cd md bd mode bs _ (File ms bs) Nd1).
    - rewrite Es1. simpl. now rewrite decide_False.
    - unfold stat. now rewrite Es1. }
  exists cd, k. split; [exact Ed|]. split; [exact Hk|]. cbv zeta. fold fs1.
  split; [|split; [exact Sd'|split; [|split; [exact Ss'|]]]].
  - unfold Copier.copy_file, bind, ask, lift.
    rewrite (mkdir_parents_noop _ _ Dp).
    assert (exists_ fs (under home dest) = true) as ->
        by (unfold exists_; now rewrite Sd).
    assert (is_file fs (under home dest) && is_file fs source = true) as ->
        by (unfold is_file; now rewrite Sd, Ss).
    assert (filecmp_cmp fs source (under home dest) = Ret false) as ->.
    { unfold filecmp_cmp. rewrite Ss, Sd. now rewrite bool_decide_eq_false_2. }
    cbn [negb]. cbv beta iota.
    unfold Copier._backup_existing, bind, ask.
    assert (exists_ fs (under home dest) = true) as ->
        by (unfold exists_; now rewrite Sd).
    cbn [negb]. cbv beta iota. rewrite Rel.
    rewrite (mkdir_parents_noop _ _ Dbp).
    assert (is_dir fs (under home dest) = false) as ->
        by (unfold is_dir; now rewrite Sd).
    rewrite (copy2_new fs _ _ cd k md bd Ed Nd Ek). fold fs1.
    unfold ret. cbv beta iota.
    assert (is_dir fs1 source = false) as ->.
    { unfold is_dir, stat. now rewrite Es1, Ns1. }
    rewrite (copy2_over fs1 _ _ cs cd ms bs md bd Es1 Ns1 Ed1 Nd1 Hcs).
    unfold mode. destruct (Copier._is_sensitive dest); [|reflexivity].
    assert (same_shape fs1 (<[cd := File ms bs]> fs1)) as Sh.
    { destruct cd; [discriminate|]. now apply (same_shape_insert _ _ md bd). }
    rewrite (chmod_file _ _ cd ms bs).
    + now rewrite insert_insert_eq.
    + now rewrite (canon_same_shape _ _ _ Sh).
    + destruct cd; [discriminate|]. simpl. apply lookup_insert_eq.
  - rewrite (stat_overwritten fs1 cd md bd mode bs _ _ Nd1 Sb1).
    rewrite Ek1. simpl. now rewrite decide_False.
  - exact (StatusFacts.check_copy_same home source dest _ mode ms bs Sd' Ss').
Qed.

End BackupFacts.
End BackupFacts.

(** ** The nesting of link targets *)

Module FuelFacts.
Import Resolution FsFacts Nesting.

Lemma links_within_all (fs : FS) : links_within fs [] (size fs).
Proof.
  exists (map_to_list fs).*1. split; [apply NoDup_fst_map_to_list|]. split.
  - rewrite length_fmap, length_map_to_list. reflexivity.
  - intros x t Hx _. apply list_elem_of_fmap. exists (x, Link t).
    split; [reflexivity|]. now apply elem_of_map_to_list.
Qed.

Lemma links_within_step (fs : FS) seen n x t :
  links_within fs seen n -> fs !! x = Some (Link t) -> x ∉ seen ->
  exists n', n = S n' /\ links_within fs (x :: seen) n'.
Proof.
  intros (L & ND & Len & HL) Hx Hs.
  pose proof (HL x t Hx Hs) as Hin.
  apply list_elem_of_split in Hin as (l1 & l2 & ->).
  rewrite length_app in Len. simpl in Len.
  destruct n as [|n']; [lia|]. exists n'. split; [reflexivity|].
  exists (l1 ++ l2). apply NoDup_app in ND as (N1 & N12 & N2).
  apply NoDup_cons in N2 as [Nx N2]. split; [|split].
  - apply NoDup_app. repeat split; auto.
    intros y Hy Hy'. apply (N12 y Hy). now right.
  - rewrite length_app. lia.
  - intros y t' Hy Hys.
    assert (y <> x) as Hne by (intros ->; apply Hys; now left).
    assert (y ∉ seen) as Hys' by (intros ?; apply Hys; now right).
    specialize (HL y t' Hy Hys'). apply elem_of_app in HL as [?|HL].
    + apply elem_of_app. now left.
    + apply elem_of_cons in HL as [?|?]; [contradiction|].
      apply elem_of_app. now right.
Qed.

Lemma walkc_ext (follow1 follow2 : list apath -> apath -> Path -> apath * wstatus)
    (fs : FS) (seen : list apath) :
  (forall np base t tgt, fs !! np = Some (Link tgt) -> np ∉ seen ->
     follow1 (np :: seen) base t = follow2 (np :: seen) base t) ->
  forall todo cur st,
    walkc follow1 fs seen cur st todo = walkc follow2 fs seen cur st todo.
Proof.
  intros Hf. induction todo as [|c rest IH]; intros cur st; simpl;
    [reflexivity|].
  destruct (decide (c = "..")); [apply IH|].
  destruct (child fs cur c) as [[| |t]|] eqn:Ch; try apply IH.
  destruct (decide (cur ++ [c] ∈ seen)) as [|Hs]; [apply IH|].
  apply child_Some in Ch as [_ Ch].
  rewrite (Hf _ _ _ _ Ch Hs). destruct (follow2 _ _ _). apply IH.
Qed.

(** Fuel beyond the number of links not yet entered changes nothing. *)
Lemma realpath_fuel (fs : FS) :
  forall n d d' seen cur todo,
    links_within fs seen n -> n <= d -> n <= d' ->
    realpath d fs seen cur todo = realpath d' fs seen cur todo.
Proof.
  induction n as [|n IH]; intros d d' seen cur todo Hl Hd Hd';
    rewrite !realpath_eq; apply walkc_ext; intros np base t tgt Hnp Hs;
    destruct (links_within_step _ _ _ _ _ Hl Hnp Hs) as (n' & E & Hl');
    [discriminate|].
  injection E as <-.
  destruct d as [|d]; [lia|]. destruct d' as [|d']; [lia|]. simpl.
  apply IH; [exact Hl' | lia | lia].
Qed.

Lemma canon_fuel (fs : FS) d p :
  size fs <= d -> realpath d fs [] [] p = canon fs p.
Proof.
  intros Hd. unfold canon, depth.
  apply (realpath_fuel fs (size fs)); [apply links_within_all | lia | lia].
Qed.

End FuelFacts.

(** ** Paths that do not end at a given regular file *)

Module OffFile.
Import Resolution FsFacts Nesting FuelFacts.
Section OffFile.

Context (fs fs2 : FS) (k : apath) (m : N) (b : string).
Hypothesis Hk : fs !! k = Some (File m b).
Hypothesis Hk0 : k <> [].
Hypothesis Hoff : forall x, x <> k -> fs2 !! x = fs !! x.

Lemma seen_rel_cons seen seen' x :
  seen_rel k seen seen' -> seen_rel k (x :: seen) (x :: seen').
Proof.
  intros H y Hy. rewrite !elem_of_cons. now rewrite (H y Hy).
Qed.

Lemma is_dir_at_k : is_dir_at fs k = false.
Proof.
  unfold is_dir_at, node_at. destruct k; [contradiction|]. now rewrite Hk.
Qed.

Lemma is_dir_at_off cur : cur <> k -> is_dir_at fs2 cur = is_dir_at fs cur.
Proof.
  intros Hc. unfold is_dir_at, node_at. destruct cur; [reflexivity|].
  now rewrite Hoff.
Qed.

(** A walk that goes on from the file fails. *)
Lemma walkc_from_file follow seen todo st r :
  walkc follow fs seen k st todo = (r, Found) -> todo = [] /\ r = k.
Proof.
  destruct todo as [|c rest]; simpl.
  - intros [= <- _]. now split.
  - unfold child. rewrite is_dir_at_k.
    destruct (decide (c = "..")); intros H; apply walkc_Found in H;
      apply after_Found in H as [_ H]; discriminate.
Qed.

Lemma walkc_not_file follow seen todo cur r :
  walkc follow fs seen cur Found todo = (r, Found) -> r <> k -> cur <> k.
Proof.
  intros H Hr ->. apply walkc_from_file in H as [_ ->]. contradiction.
Qed.

Section Walk.

Context (follow1 follow2 : list apath -> apath -> Path -> apath * wstatus).
Hypothesis Hfollow :
  forall s s' base t r,
    seen_rel k s s' -> base <> k -> follow1 s base t = (r, Found) -> r <> k ->
    follow2 s' base t = (r, Found).

Lemma walkc_off todo :
  forall seen seen' cur r,
    seen_rel k seen seen' -> cur <> k ->
    walkc follow1 fs seen cur Found todo = (r, Found) -> r <> k ->
    walkc follow2 fs2 seen' cur Found todo = (r, Found).
Proof.
  induction todo as [|c rest IH]; intros seen seen' cur r Hs Hc H Hr;
    simpl in *; [assumption|].
  rewrite (is_dir_at_off _ Hc).
  destruct (decide (c = "..")).
  - destruct (is_dir_at fs cur); simpl in *.
    + apply IH with (seen := seen); auto.
      now apply (walkc_not_file _ _ _ _ _ H).
    + apply walkc_Found in H. discriminate.
  - unfold child in *. rewrite (is_dir_at_off _ Hc).
    destruct (is_dir_at fs cur) eqn:D; simpl in *.
    2:{ apply walkc_Found in H. discriminate. }
    destruct (decide (cur ++ [c] = k)) as [E|E].
    { exfalso. rewrite E, Hk in H. simpl in H.
      apply walkc_from_file in H as [_ ->]. contradiction. }
    rewrite (Hoff _ E).
    destruct (fs !! (cur ++ [c])) as [[m' b'| |t]|] eqn:Ch; simpl in *.
    + apply IH with (seen := seen); auto.
    + apply IH with (seen := seen); auto.
    + destruct (decide (cur ++ [c] ∈ seen)) as [Hin|Hin].
      { apply walkc_Found in H. discriminate. }
      rewrite decide_False by (now rewrite (Hs _ E)).
      destruct (follow1 _ _ _) as [p s] eqn:F.
      assert (s = Found) as -> by (apply walkc_Found in H; now destruct s).
      assert (p <> k) as Hp by now apply (walkc_not_file _ _ _ _ _ H).
      assert ((if is_absolute t then [] else cur) <> k) as Hb
          by (destruct (is_absolute t); auto).
      rewrite (Hfollow _ ((cur ++ [c]) :: seen') _ _ _
                 (seen_rel_cons _ _ _ Hs) Hb F Hp).
      apply IH with (seen := seen); auto.
    + apply walkc_Found in H. discriminate.
Qed.

End Walk.

Lemma realpath_off :
  forall d seen seen' cur todo r,
    seen_rel k seen seen' -> cur <> k ->
    realpath d fs seen cur todo = (r, Found) -> r <> k ->
    realpath d fs2 seen' cur todo = (r, Found).
Proof.
  induction d as [|d IH]; intros seen seen' cur todo r Hs Hc H Hr;
    rewrite realpath_eq in *.
  - eapply walkc_off; eauto. intros ? ? ? ? ? _ _ F. simpl in F. discriminate.
  - eapply walkc_off; eauto.
    intros s s' base t r' Hs' Hb F Hr'. simpl in *. eapply IH; eauto.
Qed.

(** A path that led to something other than the file leads there still,
    whatever is put in the place of the file. *)
Lemma canon_off p r :
  size fs <= depth fs2 ->
  canon fs p = (r, Found) -> r <> k -> canon fs2 p = (r, Found).
Proof.
  intros Hd H Hr. unfold canon.
  apply realpath_off with (seen := []); auto.
  - intros x _. reflexivity.
  - now rewrite canon_fuel.
Qed.

End OffFile.
End OffFile.

(** ** A link in the place of a regular file *)

Module ReplaceFacts.
Import Resolution Conditions Contents WellFormed FsFacts WfFacts ContentFacts.
Import FrameFacts Nesting FuelFacts OffFile BackupFacts.
Section ReplaceFacts.

Context {T : TreeOps} (home : apath).

(** Where a regular file that is no link lies. *)
Lemma locate_file (fs : FS) p m b :
  wf fs -> stat fs p = Some (File m b) -> is_symlink fs p = false ->
  exists q c cq,
    p = q ++ [c] /\ c <> ".." /\ canon fs q = (cq, Found) /\
    is_dir_at fs cq = true /\ fs !! (cq ++ [c]) = Some (File m b) /\
    canon fs p = (cq ++ [c], Found) /\ locate fs p = (cq ++ [c], Found).
Proof.
  intros W Sp Ls.
  destruct (unsnoc p) as [[q c]|] eqn:U.
  2:{ apply unsnoc_None in U as ->. unfold stat in Sp.
      rewrite canon_nil in Sp. discriminate. }
  apply unsnoc_Some in U as ->.
  destruct (stat_canon _ _ _ Sp) as (r & Er & Nr).
  destruct (canon_snoc_Found _ _ _ _ Er) as (cq & Eq & D & Hch).
  exists q, c, cq.
  assert (c <> "..") as Hc.
  { intros ->. rewrite canon_snoc, Eq in Er. simpl in Er. rewrite D in Er.
    injection Er as <-. pose proof (wf_up _ _ W D) as Du.
    unfold is_dir_at in Du. now rewrite Nr in Du. }
  destruct (Hch Hc) as [n Ch].
  unfold is_symlink, lstat, locate in Ls. rewrite unsnoc_snoc, Eq in Ls.
  rewrite decide_False in Ls by exact Hc. rewrite Ch in Ls. simpl in Ls.
  pose proof Ch as [_ Hn]%child_Some. rewrite node_at_snoc, Hn in Ls.
  rewrite canon_snoc, Eq in Er. simpl in Er.
  rewrite decide_False in Er by exact Hc. rewrite Ch in Er.
  assert (r = cq ++ [c] /\ n = File m b) as [-> ->].
  { destruct n as [m' b'| |t]; [| |discriminate]; injection Er as <-;
      rewrite node_at_snoc, Hn in Nr; (split; [reflexivity | congruence]). }
  repeat split; auto.
  - rewrite canon_snoc, Eq. simpl. rewrite decide_False by exact Hc.
    now rewrite Ch.
  - unfold locate. rewrite unsnoc_snoc, Eq, decide_False by exact Hc.
    now rewrite Ch.
Qed.

(** A link put where nothing was leads where its target leads. *)
Lemma canon_link (fs : FS) q c cq src r :
  c <> ".." -> canon fs q = (cq, Found) -> is_dir_at fs cq = true ->
  fs !! (cq ++ [c]) = None -> canon fs src = (r, Found) ->
  canon (<[cq ++ [c] := Link (absolute src)]> fs) (q ++ [c]) = (r, Found).
Proof.
  intros Hc Eq D Hk Es.
  set (fs1 := <[cq ++ [c] := Link (absolute src)]> fs).
  assert (fs ⊆ fs1) as Hsub by (now apply insert_subseteq).
  pose proof (canon_weaken _ _ _ _ Hsub Eq) as Eq1.
  pose proof (is_dir_at_weaken _ _ _ Hsub D) as D1.
  assert (child fs1 cq c = Some (Link (absolute src))) as Ch1.
  { unfold child. rewrite D1. apply lookup_insert_eq. }
  rewrite canon_snoc, Eq1. simpl.
  destruct (decide (c = "..")); [contradiction|]. rewrite Ch1.
  destruct (decide (cq ++ [c] ∈ [])) as [Hin|_]; [now apply elem_of_nil in Hin|].
  simpl.
  assert (realpath (size fs1) fs1 [cq ++ [c]] [] src = (r, Found)) as ->.
  { eapply (realpath_mono fs fs1 Hsub (depth fs) (size fs1) []);
      [| |exact Es].
    - unfold depth, fs1. now rewrite map_size_insert_None by exact Hk.
    - intros x [->|Hx]%elem_of_cons; [|now apply elem_of_nil in Hx].
      now right. }
  reflexivity.
Qed.

(** Taking a regular file out and putting a link in its place, as
    [create_symlink] and [add] do: the two steps succeed; paths that led
    elsewhere lead where they led; the path of the file leads where the
    target leads. *)
Lemma unlink_then_symlink (fs : FS) q c cq src m b :
  c <> ".." -> canon fs q = (cq, Found) -> is_dir_at fs cq = true ->
  fs !! (cq ++ [c]) = Some (File m b) ->
  let cd := cq ++ [c] in
  let fs' := <[cd := Link (absolute src)]> fs in
  unlink (q ++ [c]) fs = (Ret tt, delete cd fs) /\
  symlink_to (q ++ [c]) src (delete cd fs) = (Ret tt, fs') /\
  (forall x r, canon fs x = (r, Found) -> r <> cd -> canon fs' x = (r, Found)) /\
  (forall r, canon fs src = (r, Found) -> r <> cd ->
             canon fs' (q ++ [c]) = (r, Found)) /\
  is_symlink fs' (q ++ [c]) = true.
Proof.
  intros Hc Eq D Hk cd fs'.
  assert (cd <> []) as Hk0 by (unfold cd; now destruct cq).
  assert (cq <> cd) as Hq.
  { unfold cd. intros E. apply (f_equal length) in E.
    rewrite length_app in E. simpl in E. lia. }
  set (fsD := delete cd fs).
  assert (forall x, x <> cd -> fsD !! x = fs !! x) as HoffD
      by (intros x Hx; unfold fsD; now rewrite lookup_delete_ne).
  assert (forall x, x <> cd -> fs' !! x = fs !! x) as Hoff'
      by (intros x Hx; unfold fs'; now rewrite lookup_insert_ne).
  assert (size fs <= depth fsD) as HsD.
  { unfold depth, fsD. rewrite map_size_delete_Some by (now exists (File m b)).
    destruct (size fs); simpl; auto. }
  assert (size fs <= depth fs') as Hs'.
  { unfold depth, fs'. rewrite map_size_insert_Some by (now exists (File m b)).
    auto. }
  assert (fs' = <[cd := Link (absolute src)]> fsD) as Efs'
      by (unfold fs', fsD; now rewrite insert_delete_eq).
  pose proof (canon_off fs fsD cd m b Hk Hk0 HoffD q cq HsD Eq Hq) as EqD.
  pose proof (canon_off fs fs' cd m b Hk Hk0 Hoff' q cq Hs' Eq Hq) as Eq'.
  assert (is_dir_at fsD cq = true) as DD
      by (now rewrite (is_dir_at_off fs fsD cd HoffD)).
  assert (is_dir_at fs' cq = true) as D'
      by (now rewrite (is_dir_at_off fs fs' cd Hoff')).
  assert (fs !! cd = Some (File m b)) as Hk' by exact Hk.
  assert (node_at fs cd = Some (File m b)) as Nk
      by (unfold cd; now rewrite node_at_snoc).
  assert (fs' !! cd = Some (Link (absolute src))) as Hk2
      by (unfold fs'; apply lookup_insert_eq).
  assert (node_at fs' cd = Some (Link (absolute src))) as Nk2
      by (unfold cd at 1; rewrite node_at_snoc; exact Hk2).
  assert (fsD !! cd = None) as HkD by (unfold fsD; apply lookup_delete_eq).
  split; [|split; [|split; [|split]]].
  - unfold unlink, locate. rewrite unsnoc_snoc, Eq, decide_False by exact Hc.
    unfold child. rewrite D. fold cd. rewrite Hk'. simpl. now rewrite Nk.
  - unfold symlink_to, locate.
    rewrite unsnoc_snoc, EqD, decide_False by exact Hc.
    unfold child. rewrite DD. fold cd. rewrite HkD. simpl. now rewrite Efs'.
  - intros x r Ex Hr. exact (canon_off fs fs' cd m b Hk Hk0 Hoff' x r Hs' Ex Hr).
  - intros r Es Hr. rewrite Efs'. apply canon_link; auto.
    exact (canon_off fs fsD cd m b Hk Hk0 HoffD src r HsD Es Hr).
  - unfold is_symlink, lstat, locate.
    rewrite unsnoc_snoc, Eq', decide_False by exact Hc.
    unfold child. rewrite D'. fold cd. rewrite Hk2. simpl. now rewrite Nk2.
Qed.

Lemma node_at_insert_ne (fs : FS) k n x :
  x <> k -> node_at (<[k := n]> fs) x = node_at fs x.
Proof.
  intros H. destruct x; [reflexivity|]. simpl. now rewrite lookup_insert_ne.
Qed.

(** X16.  [create_symlink] with [force] over a regular file that is no link,
    with a backup directory, for a destination relative to the home and
    a source that exists and is another file: the old bytes are kept at
    the backup path, the destination becomes a link to the source and
    leads to what the source leads to, and [check_symlink] then answers
    ["ok"].  The backup path is the destination under the backup
    directory; here nothing is at it yet, and its directory is there. *)
Theorem create_symlink_force_backup (source : apath) (dest : Path)
    (bdir : apath) (fs : FS) (md : N) (bd : string) (n : node) :
  wf fs ->
  is_absolute dest = false ->
  stat fs (under home dest) = Some (File md bd) ->
  is_symlink fs (under home dest) = false ->
  stat fs source = Some n ->
  samefile fs source (under home dest) = false ->
  is_dir fs (parent (bdir ++ names dest)) = true ->
  exists_ fs (bdir ++ names dest) = false ->
  is_symlink fs (bdir ++ names dest) = false ->
  exists cd k,
    locate fs (under home dest) = (cd, Found) /\ fs !! k = None /\
    let fs' := <[cd := Link (absolute source)]> (<[k := File md bd]> fs) in
    Linker.create_symlink home source dest true (Some bdir) fs
    = (Ret (true, "created"), fs') /\
    is_symlink fs' (under home dest) = true /\
    stat fs' (under home dest) = Some n /\
    stat fs' (bdir ++ names dest) = Some (File md bd) /\
    Linker.check_symlink home source dest fs' = (Ret "ok", fs').
Proof.
  intros W Rl Sd Ls Ss Sf Dbp Ex Lb.
  destruct (stat_parent_dir _ _ _ Sd) as [Dp _].
  assert (relative_to (under home dest) home = Some (names dest)) as Rel.
  { unfold under. rewrite Rl. apply relative_to_app. }
  destruct (stat_canon _ _ _ Ss) as (cs & Es & Ns).
  destruct (locate_file _ _ _ _ W Sd Ls)
    as (q & c & cq & Hp & Hc & Eq & D & Hcd & Ed & Lo).
  set (cd := cq ++ [c]) in *.
  assert (cs <> cd) as Hcs.
  { unfold samefile in Sf. rewrite Es, Ed in Sf.
    now apply bool_decide_eq_false in Sf. }
  destruct (free_Creatable _ _ W Dbp Ex Lb) as [k Lk].
  apply locate_Creatable in Lk as [Ek _].
  destruct (canon_create _ _ _ (File md bd) I Ek) as (Hk & Hk0 & Ek1).
  set (fs1 := <[k := File md bd]> fs) in *.
  assert (fs ⊆ fs1) as Hsub by now apply insert_subseteq.
  assert (k <> cd) as Hkd by (intros ->; congruence).
  assert (node_at fs cd = Some (File md bd)) as Nd
      by (unfold cd; now rewrite node_at_snoc).
  pose proof (canon_weaken _ _ _ _ Hsub Es) as Es1.
  pose proof (canon_weaken _ _ _ _ Hsub Eq) as Eq1.
  pose proof (is_dir_at_weaken _ _ _ Hsub D) as D1.
  pose proof (lookup_weaken _ _ _ _ Hcd Hsub) as Hcd1.
  pose proof (node_at_weaken _ _ _ _ Hsub Ns) as Ns1.
  destruct (unlink_then_symlink fs1 q c cq source md bd Hc Eq1 D1 Hcd1)
    as (Un & Sy & Fr & Th & L').
  fold cd in Un, Sy, Fr, Th, L'. rewrite <- Hp in Un, Sy, Th, L'.
  set (fs' := <[cd := Link (absolute source)]> fs1) in *.
  pose proof (Fr _ _ Es1 Hcs) as Es'.
  pose proof (Th _ Es1 Hcs) as Ed'.
  pose proof (Fr _ _ Ek1 Hkd) as Ek'.
  exists cd, k. split; [exact Lo|]. split; [exact Hk|]. cbv zeta.
  fold fs1. fold fs'.
  split; [|split; [exact L'|split; [|split]]].
  - unfold Linker.create_symlink, bind, ask.
    rewrite (mkdir_parents_noop _ _ Dp).
    assert (exists_ fs (under home dest) = true) as Exd
        by (unfold exists_; now rewrite Sd).
    assert (is_dir fs (under home dest) = false) as Dd
        by (unfold is_dir; now rewrite Sd).
    cbv beta iota. rewrite Exd. cbn [orb negb]. cbv beta iota. rewrite Ls.
    unfold ret at 1. cbv beta iota. cbn [negb]. cbv beta iota.
    unfold Linker._backup_existing, bind, ask.
    rewrite Exd. cbn [orb negb]. cbv beta iota. rewrite Rel.
    rewrite (mkdir_parents_noop _ _ Dbp). cbv beta iota. rewrite Ls.
    cbv beta iota. rewrite Dd. cbv beta iota.
    rewrite (copy2_new fs _ _ cd k md bd Ed Nd Ek). fold fs1.
    unfold ret at 1. cbv beta iota.
    assert (is_dir fs1 (under home dest) = false) as ->.
    { unfold is_dir. now rewrite (stat_weaken _ _ _ _ Hsub Sd). }
    cbn [andb]. rewrite Un. unfold ret at 1. cbv beta iota. now rewrite Sy.
  - unfold stat. rewrite Ed'. unfold fs'.
    now rewrite node_at_insert_ne by exact Hcs.
  - unfold stat. rewrite Ek'. unfold fs'.
    rewrite node_at_insert_ne by exact Hkd.
    destruct k; [contradiction|]. simpl. unfold fs1. apply lookup_insert_eq.
  - rewrite (StatusFacts.check_symlink_unfold home source dest fs').
    rewrite L', orb_true_r, Ed', Es'. simpl.
    now rewrite bool_decide_eq_true_2.
Qed.

End ReplaceFacts.
End ReplaceFacts.

(** ** Canonical paths *)

Module CanonicalFacts.
Import Resolution Conditions WellFormed FsFacts WfFacts Nesting.

Lemma no_dotdot_removelast (p : apath) : no_dotdot p -> no_dotdot (removelast p).
Proof.
  unfold no_dotdot. intros H. induction H as [|c p Hc Hp IH]; simpl; [constructor|].
  destruct p; [constructor|]. now constructor.
Qed.

Lemma no_dotdot_snoc (p : apath) (c : string) :
  no_dotdot p -> c <> ".." -> no_dotdot (p ++ [c]).
Proof.
  intros Hp Hc. apply Forall_app. split; [exact Hp|]. now constructor.
Qed.

Section Walk.

Variable follow : list apath -> apath -> Path -> apath * wstatus.
Variable fs : FS.
Hypothesis Hfollow :
  forall seen base t r,
    no_dotdot base -> follow seen base t = (r, Found) -> no_dotdot r.

Lemma walkc_no_dotdot todo :
  forall seen cur r,
    no_dotdot cur ->
    walkc follow fs seen cur Found todo = (r, Found) -> no_dotdot r.
Proof.
  induction todo as [|c rest IH]; intros seen cur r G; simpl.
  - now intros [= <-].
  - destruct (decide (c = "..")) as [->|Hc].
    + intros H. pose proof (walkc_Found _ _ _ _ _ _ _ H) as St.
      destruct (is_dir_at fs cur) eqn:Dc; [|discriminate].
      simpl in H. eapply IH; [|exact H]. now apply no_dotdot_removelast.
    + destruct (child fs cur c) as [[m b| |t]|] eqn:Ch.
      * intros H. eapply IH; [|exact H]. now apply no_dotdot_snoc.
      * intros H. eapply IH; [|exact H]. now apply no_dotdot_snoc.
      * destruct (decide (cur ++ [c] ∈ seen)).
        -- intros H. apply walkc_Found in H. discriminate.
        -- destruct (follow _ _ t) as [p s] eqn:F. intros H.
           pose proof (walkc_Found _ _ _ _ _ _ _ H) as St.
           destruct s; try discriminate.
           eapply IH; [|exact H]. eapply Hfollow; [|exact F].
           destruct (is_absolute t); [constructor | exact G].
      * intros H. apply walkc_Found in H.
        destruct (is_dir_at fs cur); discriminate.
Qed.

End Walk.

Lemma realpath_no_dotdot (fs : FS) :
  forall d seen cur todo r,
    no_dotdot cur -> realpath d fs seen cur todo = (r, Found) -> no_dotdot r.
Proof.
  induction d as [|d IH]; intros seen cur todo r G;
    rewrite realpath_eq; apply walkc_no_dotdot; auto.
  - intros ? ? ? ? _ F. discriminate.
  - intros seen' base t r' G' F. simpl in F. revert F. now apply IH.
Qed.

Lemma canon_no_dotdot (fs : FS) p r : canon fs p = (r, Found) -> no_dotdot r.
Proof. apply realpath_no_dotdot. constructor. Qed.

(** In a well-formed tree, a path without [".."] that names a file or a
    directory leads to itself. *)
Lemma canon_self (fs : FS) :
  wf fs -> forall r, no_dotdot r -> good fs r -> canon fs r = (r, Found).
Proof.
  intros W r. induction r as [|c r IH] using rev_ind; intros P G.
  - apply canon_nil.
  - apply Forall_app in P as [Pr Pc]. apply Forall_cons in Pc as [Hc _].
    destruct G as (n & Hn & Nl). rewrite node_at_snoc in Hn.
    pose proof (wf_parent _ _ _ W Hn) as D. rewrite removelast_last in D.
    rewrite canon_snoc, (IH Pr (good_dir _ _ D)). simpl.
    rewrite decide_False by exact Hc. unfold child. rewrite D, Hn.
    now destruct n.
Qed.

(** What [resolve] answers for a path that exists resolves to itself, and
    is no link. *)
Lemma canon_idem (fs : FS) p r :
  wf fs -> canon fs p = (r, Found) -> canon fs r = (r, Found).
Proof.
  intros W E. apply canon_self; [exact W | | ].
  - exact (canon_no_dotdot _ _ _ E).
  - exact (wf_canon_good _ _ _ W E).
Qed.

Lemma canonical_not_link (fs : FS) p r :
  wf fs -> canon fs p = (r, Found) -> is_symlink fs r = false.
Proof.
  intros W E. pose proof (canon_no_dotdot _ _ _ E) as P.
  destruct (wf_canon_good _ _ _ W E) as (n & Hn & Nl).
  unfold is_symlink, lstat, locate.
  destruct (unsnoc r) as [[q c]|] eqn:U; [|reflexivity].
  apply unsnoc_Some in U as ->.
  apply Forall_app in P as [Pq Pc]. apply Forall_cons in Pc as [Hc _].
  rewrite node_at_snoc in Hn.
  pose proof (wf_parent _ _ _ W Hn) as D. rewrite removelast_last in D.
  rewrite (canon_self fs W q Pq (good_dir _ _ D)).
  rewrite decide_False by exact Hc. unfold child. rewrite D, Hn. simpl.
  rewrite node_at_snoc, Hn. now destruct n.
Qed.

End CanonicalFacts.

(** ** [add] *)

Module AddFacts.
Import Resolution Conditions WellFormed FsFacts WfFacts ManifestFacts.
Import Nesting CanonicalFacts FrameFacts BackupFacts ReplaceFacts TrackingFacts.
Section AddFacts.

Context {T : TreeOps} {D : Status.DirCmp} (cfg : Sync.Config)
        (expanded : string -> apath).

Lemma manifest_add_extends (source dest : Path) (type platform : value)
    (m : Manifest.Manifest) (w w' : World) r :
  Tracking.manifest_add source dest type platform m w = (r, w') ->
  tree w ⊆ tree w'.
Proof.
  unfold Tracking.manifest_add, Manifest.add.
  destruct (Manifest.save _ w) as [r1 w1] eqn:S.
  apply save_extends in S. now intros [= _ <-].
Qed.

Lemma relative_to_Some (p base r : apath) :
  relative_to p base = Some r -> p = base ++ r.
Proof.
  revert p. induction base as [|x base IH]; intros p.
  - destruct p; simpl; now intros [= <-].
  - destruct p as [|y p]; simpl; [discriminate|].
    destruct (decide (x = y)) as [->|]; [|discriminate].
    intros H. now rewrite (IH _ H).
Qed.

(** X17.  [add] keeps the content of a regular file.  In a well-formed tree,
    when the file given is a regular file under the home, the place chosen
    for it in the repository is free and the directory of that place is
    there, and [add] answers [True]: the resolved path of the file still
    leads to a regular file with the same mode and bytes, the place in the
    repository holds that file, the path is a link exactly for the type
    ["symlink"], the check that [status] makes for the new entry answers
    ["ok"], and the lines printed are the note on secrets (with [secret]
    only) and the line "Added". *)
Theorem add_keeps_content (file type : string) (secret : bool)
    (platform : option string) (w w' : World) (notes : list Tracking.note)
    (m0 : N) (b : string) (rel : apath) :
  wf (tree w) ->
  stat (tree w) (expanded file) = Some (File m0 b) ->
  let file_path := fst (canon (tree w) (expanded file)) in
  relative_to file_path (Sync.home cfg) = Some rel ->
  let source := Tracking.repo_source secret (mkPath false rel) in
  let source_abs := under (Sync.dotfiles_path cfg) source in
  is_dir (tree w) (parent source_abs) = true ->
  exists_ (tree w) source_abs = false ->
  is_symlink (tree w) source_abs = false ->
  Tracking.add cfg expanded file type secret platform w
  = (Ret (true, notes), w') ->
  stat (tree w') file_path = Some (File m0 b) /\
  stat (tree w') source_abs = Some (File m0 b) /\
  is_symlink (tree w') file_path = String.eqb type "symlink" /\
  Status.check (Sync.home cfg) (String.eqb type "symlink") source_abs
               (mkPath false rel) (tree w')
  = (Ret "ok", tree w') /\
  notes = (if secret then [Tracking.info_secret] else [])
            ++ [Tracking.success_added source (mkPath false rel)].
Proof.
  intros W Sf file_path Rel source source_abs Dp Ex Ls H.
  destruct w as [fs dk co]. cbn [tree disk console] in *.
  destruct (stat_canon _ _ _ Sf) as (cd & Ef & Nf).
  assert (file_path = cd) as Hfp by (unfold file_path; now rewrite Ef).
  clearbody file_path. subst file_path.
  pose proof (canon_idem _ _ _ W Ef) as Ecd.
  pose proof (canonical_not_link _ _ _ W Ef) as Lcd.
  assert (stat fs cd = Some (File m0 b)) as Scd by (unfold stat; now rewrite Ecd).
  destruct (locate_file _ _ _ _ W Scd Lcd)
    as (q & c & cq & Hp & Hc & Eq & Dq & Hcd & Ed & Lo).
  destruct (free_Creatable _ _ W Dp Ex Ls) as [k Lk].
  apply locate_Creatable in Lk as [Ek _].
  destruct (canon_create _ _ _ (File m0 b) I Ek) as (Hk & Hk0 & Ek1).
  set (fs1 := <[k := File m0 b]> fs) in *.
  revert H. unfold Tracking.add, Sync.load_manifest.
  unfold wbind at 1. cbn [tree disk console].
  destruct (Manifest.load _ dk) as [man|e]; [|discriminate].
  unfold wbind at 1, on_tree at 1, lift, resolve. cbn [tree disk console].
  rewrite Ef. cbn [fst].
  unfold wbind at 1, look at 1. cbn [tree disk console].
  assert (exists_ fs cd = true) as -> by (unfold exists_; now rewrite Scd).
  cbn [negb]. rewrite Rel. fold source. fold source_abs.
  unfold wbind at 1, on_tree at 1. cbn [tree disk console].
  rewrite (mkdir_parents_noop _ _ Dp).
  unfold wbind at 1, look at 1. cbn [tree disk console].
  assert (is_dir fs cd = false) as -> by (unfold is_dir; now rewrite Scd).
  unfold wbind at 1, on_tree at 1. cbn [tree disk console].
  rewrite (copy2_new fs _ _ cd k m0 b Ecd Nf Ek). fold fs1.
  unfold wbind at 1.
  destruct (Tracking.manifest_add _ _ _ _ man _) as [[[]|e] [fs3 dk3 co3]] eqn:MA;
    [|discriminate].
  apply manifest_add_extends in MA. cbn [tree] in MA.
  assert (fs ⊆ fs1) as Hsub1 by now apply insert_subseteq.
  assert (fs ⊆ fs3) as Hsub by (etransitivity; eauto).
  assert (k <> cd) as Hkd.
  { intros ->. destruct cd; [contradiction|]. simpl in Nf. congruence. }
  assert (cd = cq ++ [c]) as Hcan by congruence.
  pose proof (canon_weaken _ _ _ _ Hsub Eq) as Eq3.
  pose proof (is_dir_at_weaken _ _ _ Hsub Dq) as D3.
  pose proof (lookup_weaken _ _ _ _ Hcd Hsub) as Hcd3.
  pose proof (canon_weaken _ _ _ _ MA Ek1) as Ek3.
  pose proof (stat_weaken _ _ _ _ Hsub Scd) as Scd3.
  assert (node_at fs3 k = Some (File m0 b)) as Nk3.
  { apply (node_at_weaken _ _ _ _ MA). destruct k; [contradiction|].
    simpl. unfold fs1. apply lookup_insert_eq. }
  destruct (unlink_then_symlink fs3 q c cq source_abs m0 b Hc Eq3 D3 Hcd3)
    as (Un & Sy & Fr & Th & L').
  rewrite <- Hp in Un, Sy, Th, L'. rewrite <- Hcan in Un, Sy, Fr, Th, L'.
  assert (under (Sync.home cfg) (mkPath false rel) = cd) as Hu.
  { unfold under. cbn [is_absolute names]. symmetry.
    now apply relative_to_Some. }
  destruct (String.eqb type "symlink"); cbn [Status.check].
  - unfold wbind, look, on_tree, wret. cbn [tree disk console].
    assert (is_dir fs3 cd = false) as -> by (unfold is_dir; now rewrite Scd3).
    cbn [tree disk console]. rewrite Un. cbn [tree disk console]. rewrite Sy.
    intros [= <- <-]. cbn [tree].
    split; [|split; [|split; [|split]]]; auto.
    + unfold stat. rewrite (Th _ Ek3 Hkd).
      now rewrite node_at_insert_ne by exact Hkd.
    + unfold stat. rewrite (Fr _ _ Ek3 Hkd).
      now rewrite node_at_insert_ne by exact Hkd.
    + rewrite StatusFacts.check_symlink_unfold, Hu, L', orb_true_r.
      rewrite (Th _ Ek3 Hkd), (Fr _ _ Ek3 Hkd). simpl.
      now rewrite bool_decide_eq_true_2.
  - unfold wbind, wret. intros [= <- <-]. cbn [tree].
    assert (stat fs3 source_abs = Some (File m0 b)) as Ss3
        by (unfold stat; now rewrite Ek3).
    split; [exact Scd3|]. split; [exact Ss3|]. split; [|split]; auto.
    + unfold is_symlink, lstat, locate.
      rewrite Hp, unsnoc_snoc, Eq3, decide_False by exact Hc.
      unfold child. rewrite D3, Hcd3. simpl. now rewrite node_at_snoc, Hcd3.
    + apply (StatusFacts.check_copy_same _ _ _ _ m0 m0 b); [|exact Ss3].
      now rewrite Hu.
Qed.

End AddFacts.
End AddFacts.

(** ** [status] and [apply] *)

Module OverviewFacts.
Import Resolution Conditions Overview FsFacts ReconcileFacts StatusFacts ApplyFacts.
Section OverviewFacts.

Context {T : TreeOps} {D : Status.DirCmp} (cfg : Sync.Config).

(** Where [check] answers ["ok"], [create] without [force] changes
    nothing. *)
Lemma check_ok_create (home : apath) (link : bool) (source : apath)
    (dest : Path) (backup_dir : option apath) (fs : FS) :
  fst (Status.check home link source dest fs) = Ret "ok" ->
  Reconcile.create home link source dest false backup_dir fs
  = (Ret (if link || is_file fs source then (true, "ok")
          else (false, "conflict")), fs).
Proof.
  destruct link; simpl.
  - rewrite check_symlink_unfold. simpl.
    destruct (exists_ fs (under home dest) || is_symlink fs (under home dest))
      eqn:P; simpl; [|discriminate].
    destruct (is_symlink fs (under home dest)) eqn:L; simpl; [|discriminate].
    case_bool_decide as E; [|discriminate]. intros _.
    apply create_symlink_settled; auto.
    apply present_parent_dir. now rewrite L, orb_true_r.
  - unfold Status.check_copy, bind, ask, lift, ret.
    destruct (exists_ fs (under home dest)) eqn:P; cbv beta iota delta [negb];
      [|discriminate].
    destruct (is_file fs source && is_file fs (under home dest)) eqn:F;
      cbv beta iota.
    + apply andb_true_iff in F as [Fs Fd].
      assert (is_file fs (under home dest) && is_file fs source = true) as F'
          by now rewrite Fs, Fd.
      destruct (filecmp_files _ _ _ F') as (m1 & m2 & x & y & Sa & Sb & C).
      rewrite C, Fs. case_bool_decide as E; simpl; [|discriminate].
      intros _. subst y. now apply (copy_file_settled _ _ _ _ _ m2 m1 x).
    + destruct (is_dir fs source && is_dir fs (under home dest)) eqn:Dd;
        [|discriminate].
      apply andb_true_iff in Dd as [Ds _]. intros _.
      assert (is_file fs source = false) as Fs.
      { unfold is_dir in Ds. unfold is_file.
        now destruct (stat fs source) as [[]|]. }
      rewrite Fs. apply copy_file_conflict; [exact P|].
      rewrite Fs, andb_false_r. discriminate.
Qed.

Lemma count_issues_le (l : list Manifest.FileEntry) :
  forall n w m w1, Overview.count_issues cfg l n w = (Ret m, w1) -> n <= m.
Proof.
  induction l as [|e l IH]; intros n w m w1; simpl.
  - intros [= <- _]. lia.
  - unfold wbind at 1, look at 1.
    destruct (exists_ (tree w) _); cbn [negb].
    + unfold wbind at 1.
      destruct (on_tree _ w) as [[st|x] w2]; [|discriminate].
      intros H. apply IH in H. destruct (String.eqb st "ok"); lia.
    + intros H. apply IH in H. lia.
Qed.

(** [status] counts nothing only when every entry is in sync. *)
Lemma count_issues_none (l : list Manifest.FileEntry) :
  forall n w w1,
    Overview.count_issues cfg l n w = (Ret n, w1) ->
    Forall (in_sync cfg (tree w)) l.
Proof.
  induction l as [|e l IH]; intros n w w1; simpl; [constructor|].
  unfold wbind at 1, look at 1.
  destruct (exists_ (tree w) _) eqn:Ex; cbn [negb].
  - unfold wbind at 1, on_tree at 1.
    pose proof (check_reads (Sync.home cfg) (Sync.is_symlink_type e)
                  (under (Sync.dotfiles_path cfg) (Manifest.source e))
                  (Manifest.dest e) (tree w)) as Rd.
    destruct (Status.check _ _ _ _ (tree w)) as [[st|x] fs'] eqn:Ck;
      simpl in Rd; subst fs'; [|discriminate].
    assert (mkWorld (tree w) (disk w) (console w) = w) as -> by now destruct w.
    destruct (String.eqb st "ok") eqn:Ok.
    + apply String.eqb_eq in Ok as ->. intros H. constructor.
      * split; [exact Ex|]. unfold source_abs. now rewrite Ck.
      * exact (IH _ _ _ H).
    + intros H. apply count_issues_le in H. lia.
  - intros H. apply count_issues_le in H. lia.
Qed.

(** On entries in sync, the loop of [apply] without [force] changes
    neither the tree nor the manifest, and counts no error. *)
Lemma apply_loop_in_sync (backup_dir : option apath)
    (l : list Manifest.FileEntry) :
  forall c fs dk co,
    Forall (in_sync cfg fs) l ->
    Sync.apply_loop cfg false false backup_dir l c (mkWorld fs dk co)
    = (Ret (Sync.mkCounts
              (Sync.ok_count c + length (List.filter (settled cfg fs) l))
              (Sync.skip_count c
               + length (List.filter (fun e => negb (settled cfg fs e)) l))
              (Sync.error_count c)),
       mkWorld fs dk (co ++ map (sync_line cfg fs) l)).
Proof.
  induction l as [|e l IH]; intros c fs dk co Hl; simpl.
  - unfold wret. rewrite !Nat.add_0_r, app_nil_r. now destruct c.
  - apply Forall_cons in Hl as [[Ex Ck] Hl].
    unfold source_abs in Ex, Ck.
    unfold wbind at 1. unfold Sync.apply_entry.
    unfold wbind at 1, look at 1. cbn [tree disk console]. rewrite Ex.
    cbn [negb].
    unfold wbind at 1, on_tree at 1. cbn [tree disk console].
    rewrite (check_ok_create _ _ _ _ backup_dir _ Ck).
    change (Sync.is_symlink_type e
            || is_file fs (under (Sync.dotfiles_path cfg) (Manifest.source e)))
      with (settled cfg fs e).
    unfold sync_line. destruct (settled cfg fs e).
    + unfold wbind at 1, say at 1. unfold wret at 1.
      simpl String.eqb. cbv iota. cbn [tree disk console negb].
      rewrite (IH _ _ _ _ Hl). cbn [Sync.ok_count Sync.skip_count
                                     Sync.error_count length].
      rewrite <- app_assoc. cbn [app]. do 2 f_equal. f_equal; lia.
    + unfold wbind at 1, say at 1. unfold wret at 1.
      rewrite String.eqb_refl. cbn [andb negb]. cbv beta iota.
      cbn [tree disk console].
      rewrite (IH _ _ _ _ Hl). cbn [Sync.ok_count Sync.skip_count
                                     Sync.error_count length].
      rewrite <- app_assoc. cbn [app]. do 2 f_equal. f_equal; lia.
Qed.

(** X18.  When [status] finds nothing that needs attention, [apply] without
    [force] changes neither the tree nor the manifest and reports no
    error: after the header it prints one line for each entry of the
    platform, "already ok" for a symlink entry and for a copy entry whose
    source is a regular file, "already exists (use --force)" for a copy
    entry whose source is a directory, and then the summary of the two
    counts. *)
Theorem status_clean_apply (w w1 : World) :
  Overview.issues cfg w = (Ret 0, w1) ->
  exists m,
    Manifest.load (Sync.files_yaml cfg) (disk w) = Ret m /\
    let es := Manifest.for_platform (Sync.platform cfg) m in
    let c := Sync.mkCounts
               (length (List.filter (settled cfg (tree w)) es))
               (length (List.filter (fun e => negb (settled cfg (tree w) e)) es))
               0 in
    Sync.apply cfg false false w
    = (Ret tt,
       mkWorld (tree w) (disk w)
               (console w
                ++ match Manifest.entries m with
                   | [] => [warn_no_files]
                   | _ => header "Applying files"
                            :: map (sync_line cfg (tree w)) es ++ Reports.summary c
                   end)).
Proof.
  intros H. unfold Overview.issues, Sync.load_manifest, wbind in H.
  destruct (Manifest.load _ _) as [m|e] eqn:L; [|discriminate].
  apply count_issues_none in H.
  exists m. split; [reflexivity|]. cbv zeta.
  unfold Sync.apply, Sync.load_manifest. unfold wbind at 1. rewrite L.
  destruct (Manifest.entries m) as [|e0 l0] eqn:E0; [reflexivity|].
  unfold wbind at 1. unfold say at 1.
  simpl (false && _). unfold wbind at 1. unfold wret at 1.
  unfold wbind at 1.
  rewrite (apply_loop_in_sync None _ _ _ _ _ H).
  rewrite summary_then. unfold wret. cbn.
  now rewrite <- !app_assoc.
Qed.

End OverviewFacts.
End OverviewFacts.

(** ** The places [add] chooses in the repository *)

Module PlacesFacts.
Import Manifest Saved Places SavedFacts.

Lemma prefix_cons a b (p s : string) :
  String.prefix (String a p) (String b s)
  = if Ascii.ascii_dec a b then String.prefix p s else false.
Proof. reflexivity. Qed.

Lemma no_slash_cons a (c : string) :
  no_slash (String a c) = true -> a <> "/"%char /\ no_slash c = true.
Proof.
  simpl. intros [Ha Hc]%andb_true_iff. split; [|exact Hc].
  intros ->. now rewrite Ascii.eqb_refl in Ha.
Qed.

Lemma prefix_name (pat : string) :
  no_slash pat = true ->
  forall c s,
    no_slash c = true ->
    String.prefix (String.append pat "/") (String.append c (String "/" s)) = true ->
    c = pat.
Proof.
  induction pat as [|p pat IH]; intros Hp c s Hc H.
  - destruct c as [|a c]; [reflexivity|].
    apply no_slash_cons in Hc as [Ha _].
    rewrite append_nil_l, append_cons, prefix_cons in H.
    destruct (Ascii.ascii_dec "/" a) as [<-|]; [contradiction|discriminate].
  - apply no_slash_cons in Hp as [Hp1 Hp2].
    destruct c as [|a c].
    + rewrite append_nil_l, append_cons, prefix_cons in H.
      destruct (Ascii.ascii_dec p "/") as [->|]; [contradiction|discriminate].
    + apply no_slash_cons in Hc as [_ Hc].
      rewrite !append_cons, prefix_cons in H.
      destruct (Ascii.ascii_dec p a) as [<-|]; [|discriminate].
      f_equal. exact (IH Hp2 c s Hc H).
Qed.

Lemma prefix_alone (pat : string) :
  forall c, no_slash c = true ->
            String.prefix (String.append pat "/") c = false.
Proof.
  induction pat as [|p pat IH]; intros c Hc.
  - destruct c as [|a c]; [reflexivity|].
    apply no_slash_cons in Hc as [Ha _].
    rewrite append_nil_l, prefix_cons.
    destruct (Ascii.ascii_dec "/" a) as [<-|]; [contradiction|reflexivity].
  - destruct c as [|a c]; [reflexivity|].
    apply no_slash_cons in Hc as [_ Hc].
    rewrite append_cons, prefix_cons.
    destruct (Ascii.ascii_dec p a); [now apply IH | reflexivity].
Qed.

(** A relative path whose text starts with [".config/"] has [".config"]
    for its first name and a name after it. *)
Lemma config_first (d : Path) :
  is_absolute d = false -> plain d = true ->
  String.prefix ".config/" (str d) = true ->
  exists c rest, names d = ".config" :: c :: rest.
Proof.
  destruct d as [a l]. cbn [is_absolute names]. intros -> Hp.
  unfold plain in Hp. cbn [names] in Hp. unfold str. cbn [is_absolute names].
  destruct l as [|c l]; [discriminate|].
  cbn [forallb] in Hp. apply andb_true_iff in Hp as [Hc Hl].
  apply plain_name_no_slash in Hc.
  destruct l as [|c' l].
  - cbn [String.concat]. intros H.
    change ".config/" with (String.append ".config" "/") in H.
    now rewrite (prefix_alone ".config" c Hc) in H.
  - rewrite concat_cons2. intros H.
    change ".config/" with (String.append ".config" "/") in H.
    change (String.append "/" ?x) with (String "/" x) in H.
    apply (prefix_name ".config" eq_refl c _ Hc) in H. subst c.
    now exists c', l.
Qed.

Lemma config_hidden (d : Path) :
  String.prefix ".config/" (str d) = true -> hidden d = true.
Proof.
  unfold hidden. destruct (str d) as [|a s]; [discriminate|].
  rewrite !prefix_cons.
  destruct (Ascii.ascii_dec "." a); [|discriminate]. now destruct s.
Qed.

(** Where [add] puts a file that is no secret. *)
Lemma repo_source_plain (d : Path) :
  is_absolute d = false ->
  Tracking.repo_source false d
  = mkPath false
      (if String.prefix ".config/" (str d)
       then "files" :: "config" :: tail (names d)
       else if hidden d then "files" :: "home" :: names d
            else "files" :: names d).
Proof.
  intros Ha. unfold Tracking.repo_source, hidden, joinpath. cbn [is_absolute].
  rewrite Ha.
  destruct (String.prefix ".config/" (str d)); [reflexivity|].
  now destruct (String.prefix "." (str d)).
Qed.

Lemma last_In (c : string) (l : list string) :
  In (List.last (c :: l) "") (c :: l).
Proof.
  revert c. induction l as [|x l IH]; intros c; [now left|].
  right. apply IH.
Qed.

(** Where [add] puts a secret: under [secrets], by the final name. *)
Lemma repo_source_secret (d : Path) :
  plain d = true ->
  Tracking.repo_source true d
  = mkPath false ("secrets" :: match names d with
                               | [] => []
                               | _ => [name (names d)]
                               end).
Proof.
  intros Hp. unfold Tracking.repo_source.
  destruct (names d) as [|c l] eqn:E; [reflexivity|].
  assert (plain_name (name (c :: l)) = true) as Hn.
  { unfold plain in Hp. rewrite E in Hp.
    rewrite forallb_forall in Hp. apply Hp. apply last_In. }
  pose proof (Path_of_string_str (mkPath false [name (c :: l)])) as P.
  unfold plain in P. cbn [names forallb] in P. rewrite Hn in P.
  specialize (P eq_refl). unfold str in P. cbn [is_absolute names] in P.
  cbn [String.concat] in P. now rewrite P.
Qed.

(** X19.  Two destinations that [add] stores at the same place in the
    repository.  Secrets share a place exactly when their final names are
    the same.  Otherwise two destinations that are both hidden (their text
    starts with a dot) or both not hidden never share a place; a hidden
    one shares its place with one that is not hidden exactly when that one
    is the same path under [config] (for a path under [.config]) or under
    [home]. *)
Theorem repo_source_shared (d1 d2 : Path) :
  is_absolute d1 = false -> is_absolute d2 = false ->
  plain d1 = true -> plain d2 = true ->
  (Tracking.repo_source true d1 = Tracking.repo_source true d2
   <-> name (names d1) = name (names d2)) /\
  (hidden d1 = hidden d2 ->
   Tracking.repo_source false d1 = Tracking.repo_source false d2 -> d1 = d2) /\
  (hidden d1 = true -> hidden d2 = false ->
   (Tracking.repo_source false d1 = Tracking.repo_source false d2
    <-> names d2 = (if String.prefix ".config/" (str d1)
                    then "config" :: tail (names d1)
                    else "home" :: names d1))).
Proof.
  intros A1 A2 P1 P2. split; [|split].
  - rewrite !repo_source_secret by assumption.
    assert (forall d, plain d = true -> names d <> [] -> name (names d) <> "")
      as Hne.
    { intros d Hp Hd E. unfold plain in Hp. rewrite forallb_forall in Hp.
      assert (In (name (names d)) (names d)) as Hin.
      { unfold name. destruct (names d) as [|c l]; [contradiction|].
        apply last_In. }
      apply Hp in Hin. now rewrite E in Hin. }
    split.
    + intros H. injection H as H.
      destruct (names d1) as [|c1 l1] eqn:E1, (names d2) as [|c2 l2] eqn:E2;
        try discriminate; [reflexivity|]. now injection H.
    + intros H.
      destruct (names d1) as [|c1 l1] eqn:E1, (names d2) as [|c2 l2] eqn:E2;
        try reflexivity.
      * exfalso. apply (Hne d2 P2); rewrite E2; [discriminate|].
        now rewrite <- H.
      * exfalso. apply (Hne d1 P1); rewrite E1; [discriminate|].
        now rewrite H.
      * now rewrite H.
  - intros Hh. rewrite !repo_source_plain by assumption.
    assert (names d1 = names d2 -> d1 = d2) as Heq.
    { destruct d1, d2. cbn in *. now intros ->; subst. }
    destruct (String.prefix ".config/" (str d1)) eqn:C1;
      destruct (String.prefix ".config/" (str d2)) eqn:C2.
    + destruct (config_first _ A1 P1 C1) as (c1 & r1 & E1).
      destruct (config_first _ A2 P2 C2) as (c2 & r2 & E2).
      rewrite E1, E2. cbn [tail]. intros [= -> ->]. apply Heq. congruence.
    + rewrite (config_hidden _ C1) in Hh. rewrite <- Hh. discriminate.
    + rewrite (config_hidden _ C2) in Hh. rewrite Hh. discriminate.
    + rewrite <- Hh. destruct (hidden d1); intros [= H]; now apply Heq.
  - intros H1 H2. rewrite !repo_source_plain by assumption.
    rewrite H1, H2.
    assert (String.prefix ".config/" (str d2) = false) as ->.
    { destruct (String.prefix ".config/" (str d2)) eqn:C2; [|reflexivity].
      apply config_hidden in C2. congruence. }
    destruct (String.prefix ".config/" (str d1)); split;
      intros H; try (injection H as H); now rewrite H.
Qed.

End PlacesFacts.

(** ** Sensitive names *)

Module SensitiveFacts.
Import Saved SavedFacts PlacesFacts.

Lemma prefix_nil (s : string) : String.prefix "" s = true.
Proof. now destruct s. Qed.

Lemma lower_append (a b : string) :
  lower (String.append a b) = String.append (lower a) (lower b).
Proof.
  induction a as [|x a IH]; [reflexivity|].
  rewrite append_cons. simpl. now rewrite IH.
Qed.

Lemma contains_cons (w : string) a (s : string) :
  contains w (String a s) = String.prefix w (String a s) || contains w s.
Proof. reflexivity. Qed.

(** A word without a slash does not reach over a slash. *)
Lemma prefix_past (c : string) :
  forall w s,
    no_slash w = true -> w <> "" ->
    String.prefix w (String.append c (String "/" s)) = String.prefix w c.
Proof.
  induction c as [|x c IH]; intros w s Hw Hne;
    destruct w as [|a w]; try contradiction;
    apply no_slash_cons in Hw as [Ha Hw].
  - rewrite append_nil_l, prefix_cons.
    destruct (Ascii.ascii_dec a "/"); [contradiction|reflexivity].
  - rewrite append_cons, !prefix_cons.
    destruct (Ascii.ascii_dec a x); [|reflexivity].
    destruct w as [|a' w]; [now rewrite !prefix_nil|].
    apply IH; [|discriminate]. exact Hw.
Qed.

Lemma contains_past (w : string) :
  no_slash w = true -> w <> "" ->
  forall c s,
    contains w (String.append c (String "/" s)) = contains w c || contains w s.
Proof.
  intros Hw Hne. induction c as [|x c IH]; intros s.
  - rewrite append_nil_l, contains_cons.
    rewrite <- (append_nil_l (String "/" s)) at 1.
    rewrite (prefix_past "" w s Hw Hne).
    destruct w; [contradiction|]. reflexivity.
  - rewrite append_cons, !contains_cons, IH.
    rewrite <- append_cons, (prefix_past _ w s Hw Hne).
    now rewrite orb_assoc.
Qed.

Lemma contains_concat (w : string) :
  no_slash w = true -> w <> "" ->
  forall l,
    contains w (lower (String.concat "/" l))
    = existsb (fun c => contains w (lower c)) l.
Proof.
  intros Hw Hne. induction l as [|c l IH].
  - destruct w; [contradiction|]. reflexivity.
  - destruct l as [|c' l].
    + cbn [String.concat existsb]. now rewrite orb_false_r.
    + rewrite concat_cons2, lower_append.
      change (lower (String.append "/" ?x)) with (String "/" (lower x)).
      rewrite (contains_past w Hw Hne). cbn [existsb] in *. now rewrite IH.
Qed.

Lemma existsb_swap {A B} (f : A -> B -> bool) (la : list A) (lb : list B) :
  existsb (fun a => existsb (f a) lb) la
  = existsb (fun b => existsb (fun a => f a b) la) lb.
Proof.
  induction la as [|a la IH]; simpl.
  - induction lb as [|b lb IHb]; [reflexivity|]. simpl. now rewrite <- IHb.
  - rewrite IH. clear IH. induction lb as [|b lb IHb]; [reflexivity|].
    simpl. rewrite <- IHb.
    destruct (f a b), (existsb (f a) lb), (existsb (fun a0 => f a0 b) la);
      reflexivity.
Qed.

(** X20.  For a path whose names are ASCII text, whether it is sensitive
    is decided name by name: it is exactly when one of its names holds
    one of the six words, whatever the case of its letters.  The anchor
    and the slashes play no part, and neither does the place of the name
    in the path. *)
Theorem is_sensitive_by_name (p : Path) :
  Letters.ascii_path p = true ->
  Copier._is_sensitive p
  = existsb (fun c => existsb (fun w => contains w (lower c))
                              Copier.sensitive_patterns)
            (names p).
Proof.
  intros _.
  rewrite <- existsb_swap. unfold Copier._is_sensitive.
  assert (Forall (fun w => no_slash w = true /\ w <> "" /\
                           contains w "." = false)
                 Copier.sensitive_patterns) as Hw.
  { repeat constructor; discriminate. }
  induction Hw as [|w ws (Hn & Hne & Hdot) _ IH]; [reflexivity|].
  cbn [existsb]. rewrite IH. f_equal.
  rewrite <- (contains_concat w Hn Hne).
  unfold str. destruct (is_absolute p).
  - change (lower (String.append "/" ?x)) with (String "/" (lower x)).
    rewrite contains_cons.
    rewrite <- (append_nil_l (String "/" _)) at 1.
    rewrite (prefix_past "" w _ Hn Hne).
    destruct w; [contradiction|]. reflexivity.
  - destruct (names p) as [|c l]; [|reflexivity].
    cbn [String.concat]. change (lower ".") with ".". rewrite Hdot.
    change (lower "") with "".
    destruct w; [contradiction|]. reflexivity.
Qed.

End SensitiveFacts.

(** ** Worked cases, continued *)

Module FurtherCases.
Import Manifest Fixtures MoreFixtures Conditions.

Lemma collect_twice_skips_witness :
  fst (Sync.collect_entry (T := plain) cfg0 true e_git (0, 0)
         (snd (Sync.collect_entry (T := plain) cfg0 false e_git (0, 0)
                 world_own)))
  = Ret (0, 1).
Proof.
  assert (is_dir (tree world_own) (parent (source_abs cfg0 e_git)) = true)
    as H1 by (vm_compute; reflexivity).
  assert (is_file (tree world_own) (dest_abs cfg0 e_git) = true)
    as H2 by (vm_compute; reflexivity).
  assert (fst (Sync.collect_entry (T := plain) cfg0 false e_git (0, 0)
                 world_own) = Ret (1, 0))
    as H3 by (vm_compute; reflexivity).
  apply Cases.with_snd in H3.
  exact (proj2 (CollectTwice.collect_twice_skips (T := plain) cfg0 true e_git
                  0 0 0 0 world_own _ H1 H2 H3)).
Defined.

Lemma wf_tree_kept : WellFormed.wf tree_kept.
Proof. apply (bool_decide_unpack _). vm_compute. exact I. Qed.

Lemma copy_file_force_backup_witness :
  exists cd k,
    tree_kept !! k = None /\
    Copier.copy_file (T := plain) home0 src_git dest_git true (Some backup0)
                     tree_kept
    = (Ret (true, "copied"),
       <[cd := File 420 "[user]"]> (<[k := File 420 "[user] mine"]> tree_kept)) /\
    stat (<[cd := File 420 "[user]"]> (<[k := File 420 "[user] mine"]> tree_kept))
         (backup0 ++ names dest_git)
    = Some (File 420 "[user] mine").
Proof.
  assert (is_absolute dest_git = false) as H0 by (vm_compute; reflexivity).
  assert (stat tree_kept src_git = Some (File 420 "[user]")) as H1
      by (vm_compute; reflexivity).
  assert (stat tree_kept (under home0 dest_git) = Some (File 420 "[user] mine"))
    as H2 by (vm_compute; reflexivity).
  assert ("[user]" <> "[user] mine") as H3 by discriminate.
  assert (is_dir tree_kept (parent (backup0 ++ names dest_git)) = true) as H4
      by (vm_compute; reflexivity).
  assert (exists_ tree_kept (backup0 ++ names dest_git) = false) as H5
      by (vm_compute; reflexivity).
  assert (is_symlink tree_kept (backup0 ++ names dest_git) = false) as H6
      by (vm_compute; reflexivity).
  assert (Copier._is_sensitive dest_git = false) as H7
      by (vm_compute; reflexivity).
  pose proof (BackupFacts.copy_file_force_backup (T := plain)
                (D := listing_dircmp) home0 src_git
                dest_git backup0 tree_kept 420 420 "[user]" "[user] mine"
                wf_tree_kept H0 H1 H2 H3 H4 H5 H6) as H.
  cbv zeta in H. rewrite H7 in H.
  destruct H as (cd & k & _ & Hk & Hc & _ & Hb & _ & _).
  exists cd, k. split; [exact Hk|]. split; [exact Hc | exact Hb].
Defined.

Lemma create_symlink_force_backup_witness :
  exists cd k,
    tree_kept !! k = None /\
    let fs' := <[cd := Link (absolute src_git)]>
                 (<[k := File 420 "[user] mine"]> tree_kept) in
    Linker.create_symlink (T := plain) home0 src_git dest_git true
                          (Some backup0) tree_kept
    = (Ret (true, "created"), fs') /\
    stat fs' (under home0 dest_git) = Some (File 420 "[user]") /\
    stat fs' (backup0 ++ names dest_git) = Some (File 420 "[user] mine").
Proof.
  assert (is_absolute dest_git = false) as H0 by (vm_compute; reflexivity).
  assert (stat tree_kept (under home0 dest_git) = Some (File 420 "[user] mine"))
    as H1 by (vm_compute; reflexivity).
  assert (is_symlink tree_kept (under home0 dest_git) = false) as H2
      by (vm_compute; reflexivity).
  assert (stat tree_kept src_git = Some (File 420 "[user]")) as H3
      by (vm_compute; reflexivity).
  assert (samefile tree_kept src_git (under home0 dest_git) = false) as H4
      by (vm_compute; reflexivity).
  assert (is_dir tree_kept (parent (backup0 ++ names dest_git)) = true) as H5
      by (vm_compute; reflexivity).
  assert (exists_ tree_kept (backup0 ++ names dest_git) = false) as H6
      by (vm_compute; reflexivity).
  assert (is_symlink tree_kept (backup0 ++ names dest_git) = false) as H7
      by (vm_compute; reflexivity).
  pose proof (ReplaceFacts.create_symlink_force_backup (T := plain) home0
                src_git dest_git backup0 tree_kept 420 "[user] mine"
                (File 420 "[user]") wf_tree_kept H0 H1 H2 H3 H4 H5 H6 H7) as H.
  cbv zeta in H.
  destruct H as (cd & k & _ & Hk & Hc & _ & Hd & Hb & _).
  exists cd, k. split; [exact Hk|]. cbv zeta.
  split; [exact Hc|]. split; [exact Hd | exact Hb].
Defined.

Lemma add_keeps_content_witness :
  let after :=
    tree (snd (Tracking.add (T := plain) cfg0 typed ".gitconfig" "symlink"
                            false None world_kept)) in
  stat after (home0 ++ [".gitconfig"]) = Some (File 420 "[user] mine") /\
  is_symlink after (home0 ++ [".gitconfig"]) = true.
Proof.
  cbv zeta.
  assert (stat (tree world_kept) (typed ".gitconfig")
          = Some (File 420 "[user] mine")) as H1 by (vm_compute; reflexivity).
  assert (fst (canon (tree world_kept) (typed ".gitconfig"))
          = home0 ++ [".gitconfig"]) as Hp by (vm_compute; reflexivity).
  assert (relative_to (fst (canon (tree world_kept) (typed ".gitconfig")))
                      (Sync.home cfg0) = Some [".gitconfig"]) as H2
      by (vm_compute; reflexivity).
  set (source_abs :=
         under (Sync.dotfiles_path cfg0)
               (Tracking.repo_source false (mkPath false [".gitconfig"]))).
  assert (is_dir (tree world_kept) (parent source_abs) = true) as H3
      by (vm_compute; reflexivity).
  assert (exists_ (tree world_kept) source_abs = false) as H4
      by (vm_compute; reflexivity).
  assert (is_symlink (tree world_kept) source_abs = false) as H5
      by (vm_compute; reflexivity).
  assert (fst (Tracking.add (T := plain) cfg0 typed ".gitconfig" "symlink"
                            false None world_kept)
          = Ret (true,
                 [Tracking.success_added
                    (Tracking.repo_source false (mkPath false [".gitconfig"]))
                    (mkPath false [".gitconfig"])])) as H6
      by (vm_compute; reflexivity).
  apply Cases.with_snd in H6.
  pose proof (AddFacts.add_keeps_content (T := plain) (D := listing_dircmp)
                cfg0 typed ".gitconfig"
                "symlink" false None world_kept _ _ 420 "[user] mine"
                [".gitconfig"] wf_tree_kept H1 H2 H3 H4 H5 H6) as H.
  cbv zeta in H. rewrite Hp in H.
  destruct H as (Hs & _ & Hl & _ & _). split; [exact Hs | exact Hl].
Defined.

Lemma status_clean_apply_witness :
  console (snd (Sync.apply (T := plain) cfg0 false false world_synced))
  = [header "Applying files"; warn_exists dest_nvim; dim_already_ok dest_git;
     blank; success_applied 1; warn_skipped 1].
Proof.
  assert (fst (Overview.issues (D := listing_dircmp) cfg0 world_synced) = Ret 0)
    as H by (vm_compute; reflexivity).
  destruct (OverviewFacts.status_clean_apply (T := plain) (D := listing_dircmp)
              cfg0 world_synced _ (Cases.with_snd _ _ H)) as (m & L & A).
  injection L as <-. cbv zeta in A. rewrite A. cbn [snd console].
  vm_compute. reflexivity.
Defined.

Lemma repo_source_shared_witness :
  Tracking.repo_source false (Path_of_string ".config/nvim")
  = Tracking.repo_source false (Path_of_string "config/nvim").
Proof.
  assert (Saved.plain (Path_of_string ".config/nvim") = true) as H1
      by (vm_compute; reflexivity).
  assert (Saved.plain (Path_of_string "config/nvim") = true) as H2
      by (vm_compute; reflexivity).
  assert (Places.hidden (Path_of_string ".config/nvim") = true) as H3
      by (vm_compute; reflexivity).
  assert (Places.hidden (Path_of_string "config/nvim") = false) as H4
      by (vm_compute; reflexivity).
  destruct (PlacesFacts.repo_source_shared (Path_of_string ".config/nvim")
              (Path_of_string "config/nvim") eq_refl eq_refl H1 H2)
    as (_ & _ & H).
  apply (H H3 H4). vm_compute. reflexivity.
Defined.

Lemma is_sensitive_by_name_witness :
  Copier._is_sensitive (Path_of_string "Backup/My_Tokens/notes.txt") = true.
Proof.
  assert (Letters.ascii_path (Path_of_string "Backup/My_Tokens/notes.txt") = true)
    as H by (vm_compute; reflexivity).
  rewrite (SensitiveFacts.is_sensitive_by_name _ H).
  vm_compute. reflexivity.
Defined.

(** C3.  A manifest read from a document in the list format and saved
    again: [save] writes the [symlinks] and [copies] mappings, no
    [entries] list, and of the three entries read, two are read back,
    the copies after the links. *)
Lemma save_loses_listed_entries :
  load (Sync.files_yaml cfg0) (disk world_flat) = Ret flat_manifest /\
  length (entries flat_manifest) = 3 /\
  fst (save flat_manifest world_flat) = Ret tt /\
  disk (snd (save flat_manifest world_flat))
  = Some (Parsed (VDict
       [(VStr "symlinks", VDict [(VStr "files/profile", VStr ".bash_profile")]);
        (VStr "copies", VDict [(VStr "files/gitconfig", VStr ".gitconfig")])])) /\
  load (Sync.files_yaml cfg0) (disk (snd (save flat_manifest world_flat)))
  = Ret (mkManifest
           [mkEntry (Path_of_string "files/profile")
                    (Path_of_string ".bash_profile") (VStr "symlink") VNone;
            mkEntry (Path_of_string "files/gitconfig")
                    (Path_of_string ".gitconfig") (VStr "copy") VNone]
           (Sync.files_yaml cfg0)).
Proof. vm_compute. repeat split; reflexivity. Qed.

(** C9.  A dry run of [collect] over a home where [.config/nvim] is a
    regular file while the repository has a directory for it: the
    comparison of the two raises [IsADirectoryError] after the header, so
    neither this entry nor the one after it is reported, where the dry run
    of [apply] reports both. *)
Lemma collect_dry_run_raises :
  let r := Sync.collect (T := plain) cfg0 true world_clash_tracked in
  let a := Sync.apply (T := plain) cfg0 false true world_clash_tracked in
  fst r = Raise IsADirectoryError /\
  console (snd r) = [header "Collecting files"] /\
  fst a = Ret tt /\
  console (snd a)
  = [header "Applying files";
     info_dry_run (VStr "copy") (Path_of_string "files/nvim") dest_nvim;
     info_dry_run (VStr "symlink") (Path_of_string "files/gitconfig") dest_git].
Proof. vm_compute. repeat split; reflexivity. Qed.

End FurtherCases.
